(** * A singly linked list with a sentinel node and a cursor iterator

    Shallow embedding of [linked_list.c] (with [common.h], [iterator.h] and
    [linked_list.h]) and the properties of its specification.

    The C program lives in a heap of link nodes, list headers and iterator
    objects that point at each other, so the embedding is a state-and-fault
    monad over three typed stores.  Dereferencing [NULL] or a freed object is
    undefined behaviour in C; here it is the result [Fault]. *)

From Stdlib Require Import ZArith Lia String.
From stdpp Require Import base option list gmap sets.

Local Open Scope Z_scope.

(** ** Machine integers

    [int] is 32 bits wide and [size_t] 64 bits wide (gcc on an LP64 target,
    the compiler named by the Makefile).  A conversion to [int] keeps the low
    32 bits in two's complement, a conversion to [size_t] reduces modulo
    2^64. *)

Definition to_int (z : Z) : Z := (z + 2 ^ 31) mod 2 ^ 32 - 2 ^ 31.

Definition to_size_t (z : Z) : Z := z mod 2 ^ 64.

Definition INT_MAX : Z := 2 ^ 31 - 1.

Definition INT_MIN : Z := - 2 ^ 31.

(** ** common.h: the element union

    [union elem] has five members and no discriminant.  A value of the
    embedding records the member it was written through; the list code never
    looks at it.  The constructors are the macros of [common.h]. *)

Inductive elem_t : Type :=
| int_elem (i : Z)
| ptr_elem (p : Z)
| float_elem (f : Z)
| bool_elem (b : bool)
| unsigned_int_elem (u : Z).

#[global] Instance elem_t_eq_dec : EqDecision elem_t.
Proof. solve_decision. Defined.

(** The member [.i] read back from an element written through [.i]. *)
Definition elem_i (e : elem_t) : option Z :=
  match e with int_elem i => Some i | _ => None end.

(** What [calloc] leaves in a [value] field: all bytes zero, which reads as
    zero through every member. *)
Definition calloc_elem : elem_t := int_elem 0.

(** The result [{.i = -1}] that [linked_list_get], [linked_list_remove] and
    [iterator_current] build on their failure paths. *)
Definition no_value : elem_t := int_elem (-1).

(** ** linked_list.h: the function pointer types

    A function pointer may be [NULL] (that is what [calloc] leaves in the
    [fun] field of a list); calling it is a fault.  [E] is the type of the
    object behind [const void *extra]. *)

Definition eq_function : Type := option (elem_t -> elem_t -> bool).

Definition predicate (E : Type) : Type := option (elem_t -> E -> bool).

(** An [apply_function] receives [elem_t *value] and may overwrite the
    element: it maps the old element to the new one. *)
Definition apply_function (E : Type) : Type := option (elem_t -> E -> elem_t).

(** ** linked_list.c: the structures *)

(** A pointer is [NULL] or the address of an object; addresses are
    positive numbers. *)
Abbreviation ptr := (option positive).

Abbreviation NULL := (@None positive).

(** [struct link] *)
Record link_t : Type := Link {
  link_value : elem_t;
  link_next : ptr
}.

(** [struct list] *)
Record list_t : Type := List {
  list_first : ptr;
  list_last : ptr;
  list_size : Z;
  list_fun : eq_function
}.

(** [struct iter] *)
Record iter_t : Type := Iter {
  iter_current : ptr;
  iter_list : ptr
}.

(** ** The program state *)

(** A line written to standard output. *)
Inductive diagnostic : Type :=
| Puts (s : string)
| PrintfInvalidIndex (index : Z).

(** A call through one of the caller's function pointers, with the element
    arguments it received. *)
Inductive call : Type :=
| CallEq (a b : elem_t)
| CallPredicate (value : elem_t)
| CallApply (value : elem_t).

(** The three stores hold the live objects of each structure type.  [freed]
    holds the addresses given back with [free]: they are never handed out
    again, so a dangling pointer never meets a new object and every access
    through it is a fault.  [calloc_plan] decides the coming calls of
    [calloc], one boolean per call ([false]: the call returns [NULL]); once
    it is used up every call succeeds. *)
Record state : Type := State {
  links : gmap positive link_t;
  lists : gmap positive list_t;
  iters : gmap positive iter_t;
  freed : gset positive;
  calloc_plan : list bool;
  stdout : list diagnostic;
  calls : list call
}.

Definition set_links (f : gmap positive link_t -> gmap positive link_t) (st : state) : state :=
  State (f (links st)) (lists st) (iters st) (freed st) (calloc_plan st) (stdout st) (calls st).

Definition set_lists (f : gmap positive list_t -> gmap positive list_t) (st : state) : state :=
  State (links st) (f (lists st)) (iters st) (freed st) (calloc_plan st) (stdout st) (calls st).

Definition set_iters (f : gmap positive iter_t -> gmap positive iter_t) (st : state) : state :=
  State (links st) (lists st) (f (iters st)) (freed st) (calloc_plan st) (stdout st) (calls st).

Definition set_freed (f : gset positive -> gset positive) (st : state) : state :=
  State (links st) (lists st) (iters st) (f (freed st)) (calloc_plan st) (stdout st) (calls st).

Definition set_calloc_plan (p : list bool) (st : state) : state :=
  State (links st) (lists st) (iters st) (freed st) p (stdout st) (calls st).

Definition add_stdout (d : diagnostic) (st : state) : state :=
  State (links st) (lists st) (iters st) (freed st) (calloc_plan st) (stdout st ++ [d]) (calls st).

Definition add_call (c : call) (st : state) : state :=
  State (links st) (lists st) (iters st) (freed st) (calloc_plan st) (stdout st) (calls st ++ [c]).

(** The state a program starts in: nothing allocated, allocation decided by
    [plan]. *)
Definition initial_state (plan : list bool) : state :=
  State ∅ ∅ ∅ ∅ plan [] [].

(** ** The monad *)

Inductive result (A : Type) : Type :=
| Ok (a : A) (st : state)
| Fault
| OutOfFuel.

Arguments Ok {A} a st.
Arguments Fault {A}.
Arguments OutOfFuel {A}.

Definition M (A : Type) : Type := state -> result A.

Definition ret {A : Type} (a : A) : M A := fun st => Ok a st.

Definition bind {A B : Type} (m : M A) (k : A -> M B) : M B :=
  fun st =>
    match m st with
    | Ok a st' => k a st'
    | Fault => Fault
    | OutOfFuel => OutOfFuel
    end.

Definition fault {A : Type} : M A := fun _ => Fault.

Declare Scope prog_scope.
Delimit Scope prog_scope with prog.

Notation "'do' x <- c1 ; c2" := (bind c1 (fun x => c2))
  (at level 10, x name, c1 at level 100, c2 at level 200, only parsing) : prog_scope.

Local Open Scope prog_scope.

(** ** Memory: [calloc], [free] and field access *)

(** The address the next successful [calloc] returns: one that is neither
    live nor freed. *)
Definition calloc_addr (st : state) : positive :=
  fresh (dom (links st) ∪ dom (lists st) ∪ dom (iters st) ∪ freed st).

(** Consumes one entry of the allocation plan; a plan that is used up lets
    the call succeed. *)
Definition calloc_decide : M bool :=
  fun st => Ok (default true (head (calloc_plan st))) (set_calloc_plan (tail (calloc_plan st)) st).

(** [calloc(1, sizeof(link_t))] *)
Definition calloc_link : M ptr :=
  do ok <- calloc_decide;
  if ok
  then fun st => Ok (Some (calloc_addr st))
                    (set_links (insert (calloc_addr st) (Link calloc_elem NULL)) st)
  else ret NULL.

(** [calloc(1, sizeof(list_t))] *)
Definition calloc_list : M ptr :=
  do ok <- calloc_decide;
  if ok
  then fun st => Ok (Some (calloc_addr st))
                    (set_lists (insert (calloc_addr st) (List NULL NULL 0 None)) st)
  else ret NULL.

(** [calloc(1, sizeof(list_iterator_t))] *)
Definition calloc_iter : M ptr :=
  do ok <- calloc_decide;
  if ok
  then fun st => Ok (Some (calloc_addr st))
                    (set_iters (insert (calloc_addr st) (Iter NULL NULL)) st)
  else ret NULL.

(** [free(p)] for a link: nothing for [NULL], a fault for an object that is
    not live. *)
Definition free_link (p : ptr) : M unit :=
  fun st =>
    match p with
    | None => Ok tt st
    | Some a =>
        match links st !! a with
        | Some _ => Ok tt (set_freed (union {[a]}) (set_links (delete a) st))
        | None => Fault
        end
    end.

Definition free_list (p : ptr) : M unit :=
  fun st =>
    match p with
    | None => Ok tt st
    | Some a =>
        match lists st !! a with
        | Some _ => Ok tt (set_freed (union {[a]}) (set_lists (delete a) st))
        | None => Fault
        end
    end.

Definition free_iter (p : ptr) : M unit :=
  fun st =>
    match p with
    | None => Ok tt st
    | Some a =>
        match iters st !! a with
        | Some _ => Ok tt (set_freed (union {[a]}) (set_iters (delete a) st))
        | None => Fault
        end
    end.

(** Reading and writing a whole object through a pointer. *)
Definition load_link (p : ptr) : M link_t :=
  fun st =>
    match p with
    | None => Fault
    | Some a => match links st !! a with Some k => Ok k st | None => Fault end
    end.

Definition store_link (p : ptr) (k : link_t) : M unit :=
  fun st =>
    match p with
    | None => Fault
    | Some a =>
        match links st !! a with
        | Some _ => Ok tt (set_links (insert a k) st)
        | None => Fault
        end
    end.

Definition load_list (p : ptr) : M list_t :=
  fun st =>
    match p with
    | None => Fault
    | Some a => match lists st !! a with Some l => Ok l st | None => Fault end
    end.

Definition store_list (p : ptr) (l : list_t) : M unit :=
  fun st =>
    match p with
    | None => Fault
    | Some a =>
        match lists st !! a with
        | Some _ => Ok tt (set_lists (insert a l) st)
        | None => Fault
        end
    end.

Definition load_iter (p : ptr) : M iter_t :=
  fun st =>
    match p with
    | None => Fault
    | Some a => match iters st !! a with Some i => Ok i st | None => Fault end
    end.

Definition store_iter (p : ptr) (i : iter_t) : M unit :=
  fun st =>
    match p with
    | None => Fault
    | Some a =>
        match iters st !! a with
        | Some _ => Ok tt (set_iters (insert a i) st)
        | None => Fault
        end
    end.

(** [p->value], [p->next] and the assignments to them. *)
Definition read_value (p : ptr) : M elem_t := do k <- load_link p; ret (link_value k).

Definition read_next (p : ptr) : M ptr := do k <- load_link p; ret (link_next k).

Definition write_value (p : ptr) (v : elem_t) : M unit :=
  do k <- load_link p; store_link p (Link v (link_next k)).

Definition write_next (p : ptr) (n : ptr) : M unit :=
  do k <- load_link p; store_link p (Link (link_value k) n).

(** [list->first], [list->last], [list->size], [list->fun]. *)
Definition read_first (list : ptr) : M ptr := do l <- load_list list; ret (list_first l).

Definition read_last (list : ptr) : M ptr := do l <- load_list list; ret (list_last l).

Definition read_size (list : ptr) : M Z := do l <- load_list list; ret (list_size l).

Definition read_fun (list : ptr) : M eq_function := do l <- load_list list; ret (list_fun l).

Definition write_first (list : ptr) (p : ptr) : M unit :=
  do l <- load_list list; store_list list (List p (list_last l) (list_size l) (list_fun l)).

Definition write_last (list : ptr) (p : ptr) : M unit :=
  do l <- load_list list; store_list list (List (list_first l) p (list_size l) (list_fun l)).

Definition write_size (list : ptr) (n : Z) : M unit :=
  do l <- load_list list; store_list list (List (list_first l) (list_last l) n (list_fun l)).

Definition write_fun (list : ptr) (f : eq_function) : M unit :=
  do l <- load_list list; store_list list (List (list_first l) (list_last l) (list_size l) f).

(** [iter->current], [iter->list]. *)
Definition read_current (iter : ptr) : M ptr := do i <- load_iter iter; ret (iter_current i).

Definition read_list (iter : ptr) : M ptr := do i <- load_iter iter; ret (iter_list i).

Definition write_current (iter : ptr) (p : ptr) : M unit :=
  do i <- load_iter iter; store_iter iter (Iter p (iter_list i)).

Definition write_list (iter : ptr) (list : ptr) : M unit :=
  do i <- load_iter iter; store_iter iter (Iter (iter_current i) list).

(** ** Output and calls through function pointers *)

Definition puts (s : string) : M unit := fun st => Ok tt (add_stdout (Puts s) st).

(** [printf("%d is not a valid index!\n", index)] *)
Definition printf_invalid_index (index : Z) : M unit :=
  fun st => Ok tt (add_stdout (PrintfInvalidIndex index) st).

(** [fun(a, b)] for an [eq_function]. *)
Definition call_eq (f : eq_function) (a b : elem_t) : M bool :=
  match f with
  | None => fault
  | Some g => fun st => Ok (g a b) (add_call (CallEq a b) st)
  end.

(** [prop(value, extra)] for a [predicate]. *)
Definition call_predicate {E : Type} (prop : predicate E) (value : elem_t) (extra : E) : M bool :=
  match prop with
  | None => fault
  | Some g => fun st => Ok (g value extra) (add_call (CallPredicate value) st)
  end.

(** [fun(&p->value, extra)] for an [apply_function]: the callee receives the
    address of the element and what it leaves there is stored back. *)
Definition call_apply {E : Type} (f : apply_function E) (p : ptr) (extra : E) : M unit :=
  match f with
  | None => fault
  | Some g =>
      do v <- read_value p;
      do _ <- (fun st => Ok tt (add_call (CallApply v) st));
      write_value p (g v extra)
  end.

(** ** Loops *)

(** [for (size_t i = 0; i < n; ++i) body] with a body that does not use
    [i]. *)
Fixpoint for_loop (n : nat) (body : M unit) : M unit :=
  match n with
  | O => ret tt
  | S n' => do _ <- body; for_loop n' body
  end.

(** How an iteration of a [while] body ends: at its closing brace or at a
    [break]. *)
Inductive control (A : Type) : Type :=
| Continue (a : A)
| Break (a : A).

Arguments Continue {A} a.
Arguments Break {A} a.

(** [while (cond) body], the local variables the loop updates being threaded
    through as [a].  A loop over a heap that holds a cycle does not end, so
    the loop runs on [fuel]: one unit per evaluation of the condition. *)
Fixpoint while {A : Type} (fuel : nat) (cond : A -> M bool) (body : A -> M (control A))
    (a : A) : M A :=
  match fuel with
  | O => fun _ => OutOfFuel
  | S fuel' =>
      do c <- cond a;
      if c
      then do r <- body a;
           match r with
           | Continue a' => while fuel' cond body a'
           | Break a' => ret a'
           end
      else ret a
  end.

(** Pointer comparison, [p == q]. *)
Definition ptr_eqb (p q : ptr) : bool := bool_decide (p = q).

(** ** linked_list.c: index adjustment and link creation *)

(** [list_inner_adjust_index(const int index, const size_t upper_bound)].
    In [index + upper_bound] the [int] is converted to [size_t], the sum is
    taken modulo 2^64 and the assignment converts it back to [int]; the
    comparison with [upper_bound] is between [size_t] values. *)
Definition list_inner_adjust_index (index : Z) (upper_bound : Z) : Z :=
  let index_adjusted :=
    if index <? 0
    then to_int (to_size_t (to_size_t index + upper_bound))
    else index in
  if index_adjusted <? 0 then -1
  else if to_size_t index_adjusted >? upper_bound then -1
  else index_adjusted.

Definition link_new (value : elem_t) (next : ptr) : M ptr :=
  do new <- calloc_link;
  match new with
  | None =>
      do _ <- puts "Failed to allocate memory for another link.";
      ret NULL
  | Some _ =>
      do _ <- write_value new value;
      do _ <- write_next new next;
      ret new
  end.

(** ** linked_list.c: the iterator *)

Definition list_iterator (list : ptr) : M ptr :=
  do result <- calloc_iter;
  do first <- read_first list;
  do _ <- write_current result first;
  do _ <- write_list result list;
  ret result.

Definition iterator_insert (iter : ptr) (element : elem_t) : M unit :=
  do current <- read_current iter;
  do next <- read_next current;
  do link_to_insert <- link_new element next;
  match link_to_insert with
  | None => puts "Insertion failed due to memory corruption!"
  | Some _ =>
      do current <- read_current iter;
      write_next current link_to_insert
  end.

Definition iterator_has_next (iter : ptr) : M bool :=
  do current <- read_current iter;
  do next <- read_next current;
  ret (negb (ptr_eqb next NULL)).

Definition iterator_next (iter : ptr) : M elem_t :=
  do current <- read_current iter;
  do next <- read_next current;
  do _ <- write_current iter next;
  do current <- read_current iter;
  read_value current.

Definition iterator_remove (iter : ptr) : M elem_t :=
  do current <- read_current iter;
  do link_to_remove <- read_next current;
  do value_removed <- read_value link_to_remove;
  do next <- read_next link_to_remove;
  do current <- read_current iter;
  do _ <- write_next current next;
  do _ <- free_link link_to_remove;
  ret value_removed.

Definition iterator_reset (iter : ptr) : M unit :=
  do list <- read_list iter;
  do first <- read_first list;
  write_current iter first.

Definition iterator_current (iter : ptr) : M elem_t :=
  do has_next <- iterator_has_next iter;
  if negb has_next
  then
    let result := int_elem (-1) in
    ret result
  else
    do current <- read_current iter;
    do next <- read_next current;
    read_value next.

Definition iterator_destroy (iter : ptr) : M unit := free_iter iter.

(** ** linked_list.c: the list *)

Definition linked_list_create (fun_ : eq_function) : M ptr :=
  do list <- calloc_list;
  do sentinel <- calloc_link;
  do _ <- write_last list sentinel;
  do _ <- write_first list sentinel;
  do _ <- write_size list 0;
  do _ <- write_fun list fun_;
  ret list.

Definition linked_list_size (list : ptr) : M Z := read_size list.

Definition linked_list_is_empty (list : ptr) : M bool :=
  do size <- linked_list_size list;
  if size =? 0 then ret true else ret false.

Definition linked_list_clear (fuel : nat) (list : ptr) : M unit :=
  do empty <- linked_list_is_empty list;
  if negb empty
  then
    do iter <- list_iterator list;
    do _ <- while fuel
              (fun _ => iterator_has_next iter)
              (fun _ =>
                 do _ <- iterator_remove iter;
                 do _ <- iterator_reset iter;
                 do n <- read_size list;
                 do _ <- write_size list (to_size_t (n - 1));
                 ret (Continue tt))
              tt;
    iterator_destroy iter
  else ret tt.

Definition linked_list_destroy (fuel : nat) (list : ptr) : M unit :=
  do _ <- linked_list_clear fuel list;
  do first <- read_first list;
  do _ <- free_link first;
  free_list list.

Definition linked_list_append (list : ptr) (value : elem_t) : M unit :=
  do link_to_append <- link_new value NULL;
  match link_to_append with
  | None => puts "Append failed due to memory corruption!"
  | Some _ =>
      do last <- read_last list;
      do _ <- write_next last link_to_append;
      do _ <- write_last list link_to_append;
      do n <- read_size list;
      write_size list (to_size_t (n + 1))
  end.

Definition linked_list_prepend (list : ptr) (value : elem_t) : M unit :=
  do first <- read_first list;
  do next <- read_next first;
  do link_to_prepend <- link_new value next;
  match link_to_prepend with
  | None => puts "Prepend failed due to memory corruption!"
  | Some _ =>
      do first <- read_first list;
      do last <- read_last list;
      do _ <- (if ptr_eqb first last then write_last list link_to_prepend else ret tt);
      do first <- read_first list;
      do _ <- write_next first link_to_prepend;
      do n <- read_size list;
      write_size list (to_size_t (n + 1))
  end.

Definition linked_list_insert (list : ptr) (index : Z) (value : elem_t) : M unit :=
  do size <- linked_list_size list;
  let adjusted_index := list_inner_adjust_index index size in
  let valid_index := to_size_t adjusted_index in
  if adjusted_index =? -1 then printf_invalid_index index
  else if valid_index =? 0 then linked_list_prepend list value
  else if valid_index =? size then linked_list_append list value
  else
    do iter <- list_iterator list;
    do _ <- for_loop (Z.to_nat valid_index) (do _ <- iterator_next iter; ret tt);
    do _ <- iterator_insert iter value;
    do n <- read_size list;
    do _ <- write_size list (to_size_t (n + 1));
    iterator_destroy iter.

(** [const int size = linked_list_size(list)] converts the [size_t] to
    [int]; [size - 1] is [int] arithmetic (taken in two's complement) and the
    call converts [upper_limit] to [size_t]. *)
Definition linked_list_remove (list : ptr) (index : Z) : M elem_t :=
  do n <- linked_list_size list;
  let size := to_int n in
  let upper_limit := to_int (size - 1) in
  let adjusted_index := list_inner_adjust_index index (to_size_t upper_limit) in
  let valid_index := to_size_t adjusted_index in
  if adjusted_index =? -1
  then
    let result := int_elem (-1) in
    ret result
  else
    do iter <- list_iterator list;
    do _ <- for_loop (Z.to_nat valid_index) (do _ <- iterator_next iter; ret tt);
    do value_removed <- iterator_remove iter;
    do m <- read_size list;
    do _ <- write_size list (to_size_t (m - 1));
    do _ <- iterator_destroy iter;
    ret value_removed.

Definition linked_list_get (list : ptr) (index : Z) : M elem_t :=
  do n <- linked_list_size list;
  let size := to_int n in
  let upper_limit := to_int (size - 1) in
  let adjusted_index := list_inner_adjust_index index (to_size_t upper_limit) in
  let valid_index := to_size_t adjusted_index in
  if adjusted_index =? -1
  then
    let result := int_elem (-1) in
    ret result
  else
    do iter <- list_iterator list;
    do _ <- for_loop (Z.to_nat valid_index) (do _ <- iterator_next iter; ret tt);
    do value <- iterator_current iter;
    do _ <- iterator_destroy iter;
    ret value.

Definition linked_list_contains (fuel : nat) (list : ptr) (element : elem_t) : M bool :=
  do iter <- list_iterator list;
  do result <- while fuel
                 (fun _ => iterator_has_next iter)
                 (fun result =>
                    do current_value <- iterator_next iter;
                    do f <- read_fun list;
                    do found <- call_eq f current_value element;
                    if found then ret (Break true) else ret (Continue result))
                 false;
  do _ <- iterator_destroy iter;
  ret result.

Definition linked_list_calculate_size (fuel : nat) (list : ptr) : M Z :=
  do iter <- list_iterator list;
  do size <- while fuel
               (fun _ => iterator_has_next iter)
               (fun size =>
                  do _ <- iterator_next iter;
                  ret (Continue (to_size_t (size + 1))))
               0;
  do _ <- iterator_destroy iter;
  ret size.

(** In [result && prop(...)] the right operand, with its call of
    [iterator_current], is evaluated only while [result] is true. *)
Definition linked_list_all {E : Type} (fuel : nat) (list : ptr) (prop : predicate E)
    (extra : E) : M bool :=
  do iter <- list_iterator list;
  do result <- while fuel
                 (fun _ => iterator_has_next iter)
                 (fun result : bool =>
                    do result' <- (if result
                                   then do value <- iterator_current iter;
                                        call_predicate prop value extra
                                   else ret false);
                    do _ <- iterator_next iter;
                    ret (Continue result'))
                 true;
  do _ <- iterator_destroy iter;
  ret result.

Definition linked_list_any {E : Type} (fuel : nat) (list : ptr) (prop : predicate E)
    (extra : E) : M bool :=
  do iter <- list_iterator list;
  do result <- while fuel
                 (fun result : bool =>
                    do has_next <- iterator_has_next iter;
                    ret (has_next && negb result))
                 (fun result : bool =>
                    do result' <- (if negb result
                                   then do value <- iterator_current iter;
                                        call_predicate prop value extra
                                   else ret false);
                    do _ <- iterator_next iter;
                    ret (Continue result'))
                 false;
  do _ <- iterator_destroy iter;
  ret result.

Definition linked_list_apply_to_all {E : Type} (fuel : nat) (list : ptr)
    (fun_ : apply_function E) (extra : E) : M unit :=
  do first <- read_first list;
  do _ <- while fuel
            (fun cursor => ret (negb (ptr_eqb cursor NULL)))
            (fun cursor =>
               do _ <- call_apply fun_ cursor extra;
               do next <- read_next cursor;
               ret (Continue next))
            first;
  ret tt.

(** ** The data model of the specification

    [lseg h p cells q]: in the store [h] the pointer [p] leads through the
    links [cells], given as addresses with the values they hold, and the
    [next] field of the last of them is [q]. *)
Fixpoint lseg (h : gmap positive link_t) (p : ptr) (cells : list (positive * elem_t))
    (q : ptr) : Prop :=
  match cells with
  | [] => p = q
  | (a, v) :: rest => p = Some a /\ exists n, h !! a = Some (Link v n) /\ lseg h n rest q
  end.

(** [list_rep st lst s v0 cells]: [lst] points to a list header whose
    sentinel is the link [s] (holding [v0]), followed by the data links
    [cells] and then [NULL]; no link occurs twice, and the cached size is the
    number of data links. *)
Definition list_rep (st : state) (lst : ptr) (s : positive) (v0 : elem_t)
    (cells : list (positive * elem_t)) : Prop :=
  (exists lp l, lst = Some lp /\ lists st !! lp = Some l /\
                list_first l = Some s /\ list_size l = Z.of_nat (length cells)) /\
  lseg (links st) (Some s) ((s, v0) :: cells) NULL /\
  NoDup (s :: cells.*1).

(** The tail invariant: [last] is the sentinel when there is no data link
    and the last data link otherwise. *)
Definition tail_ok (st : state) (lst : ptr) (s : positive)
    (cells : list (positive * elem_t)) : Prop :=
  exists lp l, lst = Some lp /\ lists st !! lp = Some l /\
               list_last l = last (s :: cells.*1).

(** Every coming call of [calloc] succeeds. *)
Definition calloc_succeeds (st : state) : Prop :=
  Forall (fun b => b = true) (calloc_plan st).

(** The elements up to and including the first one that satisfies [stop]:
    those a front-to-back scan looks at when it stops there. *)
Fixpoint upto_first {A : Type} (stop : A -> bool) (xs : list A) : list A :=
  match xs with
  | [] => []
  | x :: rest => if stop x then [x] else x :: upto_first stop rest
  end.

(** [list_has_fun st lst f]: the comparator stored in the list is [f]. *)
Definition list_has_fun (st : state) (lst : ptr) (f : eq_function) : Prop :=
  exists lp l, lst = Some lp /\ lists st !! lp = Some l /\ list_fun l = f.

(** [iterator_at st iter a k]: [iter] is a live iterator whose cursor is the
    live link [a], which holds [k]. *)
Definition iterator_at (st : state) (iter : ptr) (a : positive) (k : link_t) : Prop :=
  exists ip it, iter = Some ip /\ iters st !! ip = Some it /\
                iter_current it = Some a /\ links st !! a = Some k.

(** The index rule of the specification for [remove] and [get] on a list of
    [n] elements: a negative index is moved up by the bound [n - 1], and the
    index is bad when the outcome is negative or above the bound. *)
Definition normalized_index (n index : Z) : Z :=
  if index <? 0 then index + (n - 1) else index.

Definition bad_index (n index : Z) : Prop :=
  normalized_index n index < 0 \/ n - 1 < normalized_index n index.

(** Executable versions of [lseg], [list_rep] and [tail_ok], to decide them
    on a state that is given in full. *)
Fixpoint lseg_check (h : gmap positive link_t) (p : ptr) (cells : list (positive * elem_t))
    (q : ptr) : bool :=
  match cells with
  | [] => bool_decide (p = q)
  | (a, v) :: rest =>
      bool_decide (p = Some a) &&
      match h !! a with
      | Some k => bool_decide (link_value k = v) && lseg_check h (link_next k) rest q
      | None => false
      end
  end.

Definition list_rep_check (st : state) (lst : ptr) (s : positive) (v0 : elem_t)
    (cells : list (positive * elem_t)) : bool :=
  match lst with
  | Some lp =>
      match lists st !! lp with
      | Some l =>
          bool_decide (list_first l = Some s) &&
          (list_size l =? Z.of_nat (length cells)) &&
          lseg_check (links st) (Some s) ((s, v0) :: cells) NULL &&
          bool_decide (NoDup (s :: cells.*1))
      | None => false
      end
  | None => false
  end.

Definition tail_ok_check (st : state) (lst : ptr) (s : positive)
    (cells : list (positive * elem_t)) : bool :=
  match lst with
  | Some lp =>
      match lists st !! lp with
      | Some l => bool_decide (list_last l = last (s :: cells.*1))
      | None => false
      end
  | None => false
  end.

(** The state and the value a run ends with, for runs that are known to
    end. *)
Definition final_state {A : Type} (r : result A) : state :=
  match r with
  | Ok _ st => st
  | _ => initial_state []
  end.

(** ** The callbacks of the test suite (linked_list_test.c) *)

(** [a.i == b.i], for elements that were written through [.i].  What [.i]
    reads from an element written through another member depends on the
    layout of the union; the embedding answers [false] there, and the runs
    below store elements written through [.i] only. *)
Definition compare_int_elements (a b : elem_t) : bool :=
  match elem_i a, elem_i b with
  | Some x, Some y => x =? y
  | _, _ => false
  end.

Definition dummy_func_ptr (a b : elem_t) : bool := true.

(** [element.i < *(int* )extra], for an element that was written through
    [.i] (see [compare_int_elements]). *)
Definition int_less (element : elem_t) (extra : Z) : bool :=
  match elem_i element with
  | Some x => x <? extra
  | None => false
  end.

(** [*value = *(elem_t* )extra] *)
Definition set_value (value : elem_t) (extra : elem_t) : elem_t := extra.

(** ** Runs used as examples *)

(** The scenario of the specification: [insert(0,1)], [insert(1,2)],
    [insert(2,3)] on a new list. *)
Definition build_123 (fun_ : eq_function) : M ptr :=
  do list <- linked_list_create fun_;
  do _ <- linked_list_insert list 0 (int_elem 1);
  do _ <- linked_list_insert list 1 (int_elem 2);
  do _ <- linked_list_insert list 2 (int_elem 3);
  ret list.

Definition state_123 : state :=
  final_state (build_123 (Some compare_int_elements) (initial_state [])).

(** The same list with an iterator at its start. *)
Definition state_123_iterator : state :=
  final_state (list_iterator (Some 1%positive) state_123).

(** The same list when the second coming call of [calloc] returns [NULL]. *)
Definition state_123_no_memory : state :=
  set_calloc_plan [true; false] state_123.

(** A new list and nothing else. *)
Definition state_empty : state :=
  final_state (linked_list_create (Some dummy_func_ptr) (initial_state [])).

(** A new list with an iterator at its start, as in the test
    [test_iterator_current]. *)
Definition state_empty_iterator : state :=
  final_state (list_iterator (Some 1%positive) state_empty).

(** A list that stores the element [int_elem (-1)]. *)
Definition state_minus_one : state :=
  final_state
    ((do list <- linked_list_create (Some compare_int_elements);
      do _ <- linked_list_append list (int_elem (-1));
      ret list) (initial_state [])).

(** A list with the one element 1. *)
Definition state_1 : state :=
  final_state
    ((do list <- linked_list_create (Some dummy_func_ptr);
      do _ <- linked_list_append list (int_elem 1);
      ret list) (initial_state [])).

(** ** The list as a sequence of values

    [chain st s v0 cells]: the links of a list in the state [st], from the
    sentinel [s] (holding [v0]) through the data links [cells] to [NULL], no
    link twice.  It is [list_rep] without the list header. *)
Definition chain (st : state) (s : positive) (v0 : elem_t)
    (cells : list (positive * elem_t)) : Prop :=
  lseg (links st) (Some s) ((s, v0) :: cells) NULL /\ NoDup (s :: cells.*1).

(** [list_holds st lst values]: [lst] is a list whose chain stores [values],
    front to back, and whose cached size is their number. *)
Definition list_holds (st : state) (lst : ptr) (values : list elem_t) : Prop :=
  exists s v0 cells, list_rep st lst s v0 cells /\ cells.*2 = values.

(** [list_intact st lst values]: moreover the tail pointer is in order. *)
Definition list_intact (st : state) (lst : ptr) (values : list elem_t) : Prop :=
  exists s v0 cells,
    list_rep st lst s v0 cells /\ tail_ok st lst s cells /\ cells.*2 = values.

(** [iterator_pos st iter lst s v0 cells i]: [iter] is a live iterator of
    the list [lst] whose cursor is the link at position [i] of the chain, the
    sentinel counting as position 0: [i] data links are behind the cursor
    and the element at index [i] is the next one. *)
Definition iterator_pos (st : state) (iter lst : ptr) (s : positive) (v0 : elem_t)
    (cells : list (positive * elem_t)) (i : nat) : Prop :=
  exists ip a va, iter = Some ip /\ iters st !! ip = Some (Iter (Some a) lst) /\
                  ((s, v0) :: cells) !! i = Some (a, va).

(** The position an index denotes in [linked_list_insert] on a list of [n]
    elements: a negative index is moved up by [n]. *)
Definition insert_position (n index : Z) : Z :=
  if index <? 0 then index + n else index.

(** ** What an operation leaves alone

    [respects R m]: every run of [m] that returns relates the state it
    starts in to the state it ends in by [R]. *)
Definition respects (R : state -> state -> Prop) {A : Type} (m : M A) : Prop :=
  forall st a st', m st = Ok a st' -> R st st'.

(** The links and the list headers are the same. *)
Definition same_heap (st st' : state) : Prop :=
  links st' = links st /\ lists st' = lists st.

(** No function pointer was called. *)
Definition same_calls (st st' : state) : Prop := calls st' = calls st.

(** Nothing was printed. *)
Definition same_stdout (st st' : state) : Prop := stdout st' = stdout st.

(** Neither happened. *)
Definition quiet (st st' : state) : Prop := same_calls st st' /\ same_stdout st st'.

(** Every list header is still there, with the sentinel and the comparator
    it had. *)
Definition keeps_headers (st st' : state) : Prop :=
  forall lp l, lists st !! lp = Some l ->
               exists l', lists st' !! lp = Some l' /\
                          list_first l' = list_first l /\ list_fun l' = list_fun l.

(** ** Further runs used as examples *)

(** The list 1, 2, 3 when the coming call of [calloc] returns [NULL]. *)
Definition state_123_out_of_memory : state :=
  set_calloc_plan [false] state_123.

(** A list with the one element 1 that was created with a [NULL]
    comparator. *)
Definition state_1_no_comparator : state :=
  final_state
    ((do list <- linked_list_create None;
      do _ <- linked_list_append list (int_elem 1);
      ret list) (initial_state [])).

(** Two lists: 1, 2, 3 and, created after it, the list with the one
    element 9. *)
Definition state_two_lists : state :=
  final_state
    ((do list2 <- linked_list_create (Some compare_int_elements);
      do _ <- linked_list_append list2 (int_elem 9);
      ret list2) state_123).

(** The list 1, 2, 3 with an iterator that was stepped once: its cursor is
    the link of the first element. *)
Definition state_123_iterator_next : state :=
  final_state (iterator_next (Some 6%positive) state_123_iterator).
(** * Properties *)

(** ** Machine integers *)

Lemma to_int_id z : INT_MIN <= z <= INT_MAX -> to_int z = z.
Proof.
  unfold to_int, INT_MIN, INT_MAX. intros H.
  rewrite Z.mod_small; lia.
Qed.

Lemma to_size_t_id z : 0 <= z < 2 ^ 64 -> to_size_t z = z.
Proof. unfold to_size_t. intros H. apply Z.mod_small. lia. Qed.

Lemma to_int_to_size_t x : to_int (to_size_t x) = to_int x.
Proof.
  unfold to_int, to_size_t.
  rewrite (Z.mod_eq x (2 ^ 64)) by lia.
  replace (x - 2 ^ 64 * (x / 2 ^ 64) + 2 ^ 31)
    with (x + 2 ^ 31 + (- (x / 2 ^ 64) * 2 ^ 32) * 2 ^ 32) by lia.
  by rewrite Z_mod_plus_full.
Qed.

Lemma int_plus_size_t index ub :
  INT_MIN <= index + ub <= INT_MAX ->
  to_int (to_size_t (to_size_t index + ub)) = index + ub.
Proof.
  intros H. rewrite to_int_to_size_t.
  unfold to_size_t, to_int.
  rewrite (Z.mod_eq index (2 ^ 64)) by lia.
  replace (index - 2 ^ 64 * (index / 2 ^ 64) + ub + 2 ^ 31)
    with (index + ub + 2 ^ 31 + (- (index / 2 ^ 64) * 2 ^ 32) * 2 ^ 32) by lia.
  rewrite Z_mod_plus_full.
  unfold INT_MIN, INT_MAX in H. rewrite Z.mod_small; lia.
Qed.

(** ** Index adjustment

    What [list_inner_adjust_index] returns for the bounds its callers pass:
    [size] in [linked_list_insert], [size - 1] converted to [size_t] in
    [linked_list_remove] and [linked_list_get]. *)

Lemma adjust_index_valid i ub :
  0 <= i <= ub -> i <= INT_MAX -> ub < 2 ^ 64 -> list_inner_adjust_index i ub = i.
Proof.
  intros Hi Hmax Hub. unfold list_inner_adjust_index.
  assert ((i <? 0) = false) as -> by (apply Z.ltb_ge; lia). cbv zeta.
  assert ((i <? 0) = false) as -> by (apply Z.ltb_ge; lia).
  rewrite to_size_t_id by (unfold INT_MAX in *; lia).
  destruct (Z.gtb_spec i ub); [lia|done].
Qed.

Lemma upper_limit_nonempty n :
  1 <= n <= INT_MAX -> to_size_t (to_int (to_int n - 1)) = n - 1.
Proof.
  intros H. unfold INT_MAX in *.
  rewrite (to_int_id n) by (unfold INT_MIN, INT_MAX; lia).
  rewrite to_int_id by (unfold INT_MIN, INT_MAX; lia).
  apply to_size_t_id. lia.
Qed.

Lemma upper_limit_empty : to_size_t (to_int (to_int 0 - 1)) = 2 ^ 64 - 1.
Proof. reflexivity. Qed.

Lemma adjust_index_normalized n index :
  1 <= n <= INT_MAX -> INT_MIN <= index <= INT_MAX ->
  list_inner_adjust_index index (to_size_t (to_int (to_int n - 1))) =
  if decide (bad_index n index) then -1 else normalized_index n index.
Proof.
  intros Hn Hindex. rewrite upper_limit_nonempty by done.
  unfold list_inner_adjust_index, bad_index, normalized_index.
  unfold INT_MIN, INT_MAX in *.
  destruct (Z.ltb_spec index 0) as [Hneg|Hpos].
  - rewrite int_plus_size_t by (unfold INT_MIN, INT_MAX; lia).
    destruct (Z.ltb_spec (index + (n - 1)) 0) as [Hlt|Hge].
    + by rewrite decide_True by lia.
    + rewrite to_size_t_id by lia.
      destruct (Z.gtb_spec (index + (n - 1)) (n - 1)); [lia|].
      by rewrite decide_False by lia.
  - destruct (Z.ltb_spec index 0); [lia|].
    rewrite to_size_t_id by lia.
    destruct (Z.gtb_spec index (n - 1)).
    + by rewrite decide_True by lia.
    + by rewrite decide_False by lia.
Qed.

Lemma adjust_index_bad n index :
  1 <= n <= INT_MAX -> INT_MIN <= index <= INT_MAX -> bad_index n index ->
  list_inner_adjust_index index (to_size_t (to_int (to_int n - 1))) = -1.
Proof.
  intros Hn Hindex Hbad. rewrite adjust_index_normalized by done.
  by rewrite decide_True.
Qed.

(** ** Running the monad *)

Lemma bind_ok {A B : Type} (m : M A) (k : A -> M B) st a st' :
  m st = Ok a st' -> bind m k st = k a st'.
Proof. unfold bind. by intros ->. Qed.

Lemma bind_assoc {A B C : Type} (m : M A) (k : A -> M B) (k' : B -> M C) st :
  bind (bind m k) k' st = bind m (fun a => bind (k a) k') st.
Proof. unfold bind. by destruct (m st). Qed.

Lemma bind_ret {A B : Type} (a : A) (k : A -> M B) st : bind (ret a) k st = k a st.
Proof. reflexivity. Qed.

Lemma state_eta st :
  State (links st) (lists st) (iters st) (freed st) (calloc_plan st) (stdout st) (calls st) = st.
Proof. by destruct st. Qed.

Lemma set_iters_id f st : f (iters st) = iters st -> set_iters f st = st.
Proof. unfold set_iters. intros ->. apply state_eta. Qed.

Lemma set_iters_twice f g st : set_iters f (set_iters g st) = set_iters (fun m => f (g m)) st.
Proof. reflexivity. Qed.

Lemma set_iters_ext f g st : f (iters st) = g (iters st) -> set_iters f st = set_iters g st.
Proof. unfold set_iters. by intros ->. Qed.

Lemma set_links_twice f g st : set_links f (set_links g st) = set_links (fun m => f (g m)) st.
Proof. reflexivity. Qed.

Lemma set_links_ext f g st : f (links st) = g (links st) -> set_links f st = set_links g st.
Proof. unfold set_links. by intros ->. Qed.

(** ** Field access *)

Lemma read_value_ok st a k :
  links st !! a = Some k -> read_value (Some a) st = Ok (link_value k) st.
Proof. intros H. unfold read_value, bind, ret, load_link. by rewrite H. Qed.

Lemma read_next_ok st a k :
  links st !! a = Some k -> read_next (Some a) st = Ok (link_next k) st.
Proof. intros H. unfold read_next, bind, ret, load_link. by rewrite H. Qed.

Lemma write_value_ok st a k v :
  links st !! a = Some k ->
  write_value (Some a) v st = Ok tt (set_links (insert a (Link v (link_next k))) st).
Proof.
  intros H. unfold write_value, bind, ret, load_link, store_link.
  rewrite H. simpl. by rewrite H.
Qed.

Lemma write_next_ok st a k n :
  links st !! a = Some k ->
  write_next (Some a) n st = Ok tt (set_links (insert a (Link (link_value k) n)) st).
Proof.
  intros H. unfold write_next, bind, ret, load_link, store_link.
  rewrite H. simpl. by rewrite H.
Qed.

Lemma read_first_ok st lp l :
  lists st !! lp = Some l -> read_first (Some lp) st = Ok (list_first l) st.
Proof. intros H. unfold read_first, bind, ret, load_list. by rewrite H. Qed.

Lemma read_last_ok st lp l :
  lists st !! lp = Some l -> read_last (Some lp) st = Ok (list_last l) st.
Proof. intros H. unfold read_last, bind, ret, load_list. by rewrite H. Qed.

Lemma read_size_ok st lp l :
  lists st !! lp = Some l -> read_size (Some lp) st = Ok (list_size l) st.
Proof. intros H. unfold read_size, bind, ret, load_list. by rewrite H. Qed.

Lemma read_fun_ok st lp l :
  lists st !! lp = Some l -> read_fun (Some lp) st = Ok (list_fun l) st.
Proof. intros H. unfold read_fun, bind, ret, load_list. by rewrite H. Qed.

Lemma write_first_ok st lp l p :
  lists st !! lp = Some l ->
  write_first (Some lp) p st =
  Ok tt (set_lists (insert lp (List p (list_last l) (list_size l) (list_fun l))) st).
Proof.
  intros H. unfold write_first, bind, ret, load_list, store_list.
  rewrite H. simpl. by rewrite H.
Qed.

Lemma write_last_ok st lp l p :
  lists st !! lp = Some l ->
  write_last (Some lp) p st =
  Ok tt (set_lists (insert lp (List (list_first l) p (list_size l) (list_fun l))) st).
Proof.
  intros H. unfold write_last, bind, ret, load_list, store_list.
  rewrite H. simpl. by rewrite H.
Qed.

Lemma write_size_ok st lp l n :
  lists st !! lp = Some l ->
  write_size (Some lp) n st =
  Ok tt (set_lists (insert lp (List (list_first l) (list_last l) n (list_fun l))) st).
Proof.
  intros H. unfold write_size, bind, ret, load_list, store_list.
  rewrite H. simpl. by rewrite H.
Qed.

Lemma write_fun_ok st lp l f :
  lists st !! lp = Some l ->
  write_fun (Some lp) f st =
  Ok tt (set_lists (insert lp (List (list_first l) (list_last l) (list_size l) f)) st).
Proof.
  intros H. unfold write_fun, bind, ret, load_list, store_list.
  rewrite H. simpl. by rewrite H.
Qed.

Lemma read_current_ok st ip it :
  iters st !! ip = Some it -> read_current (Some ip) st = Ok (iter_current it) st.
Proof. intros H. unfold read_current, bind, ret, load_iter. by rewrite H. Qed.

Lemma read_list_ok st ip it :
  iters st !! ip = Some it -> read_list (Some ip) st = Ok (iter_list it) st.
Proof. intros H. unfold read_list, bind, ret, load_iter. by rewrite H. Qed.

Lemma write_current_ok st ip it p :
  iters st !! ip = Some it ->
  write_current (Some ip) p st = Ok tt (set_iters (insert ip (Iter p (iter_list it))) st).
Proof.
  intros H. unfold write_current, bind, ret, load_iter, store_iter.
  rewrite H. simpl. by rewrite H.
Qed.

Lemma write_list_ok st ip it p :
  iters st !! ip = Some it ->
  write_list (Some ip) p st = Ok tt (set_iters (insert ip (Iter (iter_current it) p)) st).
Proof.
  intros H. unfold write_list, bind, ret, load_iter, store_iter.
  rewrite H. simpl. by rewrite H.
Qed.

(** ** The allocation plan and fresh addresses *)

Lemma calloc_addr_fresh st :
  calloc_addr st ∉ dom (links st) ∪ dom (lists st) ∪ dom (iters st) ∪ freed st.
Proof. unfold calloc_addr. apply is_fresh. Qed.

Lemma calloc_addr_links st : links st !! calloc_addr st = None.
Proof.
  apply not_elem_of_dom. intros H. apply (calloc_addr_fresh st).
  rewrite !elem_of_union. auto.
Qed.

Lemma calloc_addr_iters st : iters st !! calloc_addr st = None.
Proof.
  apply not_elem_of_dom. intros H. apply (calloc_addr_fresh st).
  rewrite !elem_of_union. auto.
Qed.

Lemma calloc_decide_ok st :
  head (calloc_plan st) <> Some false ->
  calloc_decide st = Ok true (set_calloc_plan (tail (calloc_plan st)) st).
Proof.
  unfold calloc_decide. intros H.
  destruct (calloc_plan st) as [|[] plan]; simpl in *; congruence.
Qed.

Lemma calloc_succeeds_head st : calloc_succeeds st -> head (calloc_plan st) <> Some false.
Proof.
  unfold calloc_succeeds. destruct (calloc_plan st) as [|b plan]; simpl; [done|].
  inversion 1; subst. congruence.
Qed.

Lemma calloc_succeeds_step st st' :
  calloc_succeeds st -> calloc_plan st' = tail (calloc_plan st) -> calloc_succeeds st'.
Proof.
  unfold calloc_succeeds. intros H ->. destruct (calloc_plan st); simpl; [done|].
  by inversion H.
Qed.

(** ** Symbolic execution *)

(** Projections of an updated state. *)
Ltac simpl_state :=
  cbn [links lists iters freed calloc_plan stdout calls
       set_links set_lists set_iters set_freed set_calloc_plan add_stdout add_call] in *.

(** Looking up an address in a store that was just updated. *)
Ltac lookup :=
  simpl_state;
  solve [ eassumption
        | apply lookup_insert_eq
        | rewrite lookup_insert_ne by congruence; lookup
        | eauto using calloc_succeeds_head
        | simplify_map_eq; eauto ].

(** [run lem]: the first call of the program is the one described by [lem]. *)
Ltac norm_bind := repeat (first [rewrite bind_assoc | rewrite bind_ret]; cbv beta iota).

Ltac run lem :=
  norm_bind;
  erewrite bind_ok; [ | eapply lem; lookup ]; cbv beta iota; norm_bind.

(** ** Allocation and release *)

Lemma calloc_link_ok st :
  head (calloc_plan st) <> Some false ->
  calloc_link st =
  Ok (Some (calloc_addr st))
     (set_links (insert (calloc_addr st) (Link calloc_elem NULL))
                (set_calloc_plan (tail (calloc_plan st)) st)).
Proof. intros H. unfold calloc_link. run calloc_decide_ok. reflexivity. Qed.

Lemma calloc_iter_ok st :
  head (calloc_plan st) <> Some false ->
  calloc_iter st =
  Ok (Some (calloc_addr st))
     (set_iters (insert (calloc_addr st) (Iter NULL NULL))
                (set_calloc_plan (tail (calloc_plan st)) st)).
Proof. intros H. unfold calloc_iter. run calloc_decide_ok. reflexivity. Qed.

Lemma calloc_list_ok st :
  head (calloc_plan st) <> Some false ->
  calloc_list st =
  Ok (Some (calloc_addr st))
     (set_lists (insert (calloc_addr st) (List NULL NULL 0 None))
                (set_calloc_plan (tail (calloc_plan st)) st)).
Proof. intros H. unfold calloc_list. run calloc_decide_ok. reflexivity. Qed.

Lemma link_new_ok st v n :
  head (calloc_plan st) <> Some false ->
  link_new v n st =
  Ok (Some (calloc_addr st))
     (set_links (insert (calloc_addr st) (Link v n))
                (set_calloc_plan (tail (calloc_plan st)) st)).
Proof.
  intros H. unfold link_new.
  run calloc_link_ok.
  run write_value_ok.
  run write_next_ok.
  unfold ret. f_equal. rewrite !set_links_twice. apply set_links_ext.
  simpl. by rewrite !insert_insert_eq.
Qed.

Lemma link_new_fail st v n plan :
  calloc_plan st = false :: plan ->
  link_new v n st =
  Ok NULL (add_stdout (Puts "Failed to allocate memory for another link.")
                      (set_calloc_plan plan st)).
Proof.
  intros H. unfold link_new, calloc_link, calloc_decide, bind, ret, puts.
  by rewrite H.
Qed.

Lemma free_link_ok st a k :
  links st !! a = Some k ->
  free_link (Some a) st = Ok tt (set_freed (union {[a]}) (set_links (delete a) st)).
Proof. intros H. unfold free_link. by rewrite H. Qed.

Lemma free_iter_ok st ip it :
  iters st !! ip = Some it ->
  free_iter (Some ip) st = Ok tt (set_freed (union {[ip]}) (set_iters (delete ip) st)).
Proof. intros H. unfold free_iter. by rewrite H. Qed.

(** ** Calls through function pointers *)

Lemma call_eq_ok g a b st :
  call_eq (Some g) a b st = Ok (g a b) (add_call (CallEq a b) st).
Proof. reflexivity. Qed.

Lemma call_predicate_ok {E : Type} (g : elem_t -> E -> bool) value extra st :
  call_predicate (Some g) value extra st = Ok (g value extra) (add_call (CallPredicate value) st).
Proof. reflexivity. Qed.

Lemma call_apply_ok {E : Type} (g : elem_t -> E -> elem_t) extra st a k :
  links st !! a = Some k ->
  call_apply (Some g) (Some a) extra st =
  Ok tt (set_links (insert a (Link (g (link_value k) extra) (link_next k)))
           (add_call (CallApply (link_value k)) st)).
Proof.
  intros Ha. unfold call_apply.
  run read_value_ok.
  erewrite bind_ok by reflexivity. cbv beta.
  by erewrite write_value_ok by lookup.
Qed.

(** ** The iterator *)

Lemma list_iterator_ok st lp l :
  head (calloc_plan st) <> Some false ->
  lists st !! lp = Some l ->
  list_iterator (Some lp) st =
  Ok (Some (calloc_addr st))
     (set_iters (insert (calloc_addr st) (Iter (list_first l) (Some lp)))
                (set_calloc_plan (tail (calloc_plan st)) st)).
Proof.
  intros H Hl. unfold list_iterator.
  run calloc_iter_ok.
  run read_first_ok.
  run write_current_ok.
  run write_list_ok.
  unfold ret. f_equal. rewrite !set_iters_twice. apply set_iters_ext.
  simpl. by rewrite !insert_insert_eq.
Qed.

Lemma iterator_has_next_ok st ip it a k :
  iters st !! ip = Some it -> iter_current it = Some a -> links st !! a = Some k ->
  iterator_has_next (Some ip) st = Ok (negb (ptr_eqb (link_next k) NULL)) st.
Proof.
  intros Hit Hc Ha. unfold iterator_has_next.
  run read_current_ok. rewrite Hc.
  run read_next_ok. reflexivity.
Qed.

Lemma iterator_next_ok st ip it a k b kb :
  iters st !! ip = Some it -> iter_current it = Some a -> links st !! a = Some k ->
  link_next k = Some b -> links st !! b = Some kb ->
  iterator_next (Some ip) st =
  Ok (link_value kb) (set_iters (insert ip (Iter (Some b) (iter_list it))) st).
Proof.
  intros Hit Hc Ha Hn Hb. unfold iterator_next.
  run read_current_ok. rewrite Hc.
  run read_next_ok. rewrite Hn.
  run write_current_ok.
  run read_current_ok.
  simpl. by apply read_value_ok.
Qed.

Lemma iterator_current_ok st ip it a k b kb :
  iters st !! ip = Some it -> iter_current it = Some a -> links st !! a = Some k ->
  link_next k = Some b -> links st !! b = Some kb ->
  iterator_current (Some ip) st = Ok (link_value kb) st.
Proof.
  intros Hit Hc Ha Hn Hb. unfold iterator_current.
  run iterator_has_next_ok. rewrite Hn. simpl.
  run read_current_ok. rewrite Hc.
  run read_next_ok. rewrite Hn.
  by apply read_value_ok.
Qed.

Lemma iterator_current_none st ip it a k :
  iters st !! ip = Some it -> iter_current it = Some a -> links st !! a = Some k ->
  link_next k = NULL ->
  iterator_current (Some ip) st = Ok no_value st.
Proof.
  intros Hit Hc Ha Hn. unfold iterator_current.
  run iterator_has_next_ok. rewrite Hn. reflexivity.
Qed.

Lemma iterator_insert_ok st ip it a k v :
  iters st !! ip = Some it -> iter_current it = Some a -> links st !! a = Some k ->
  head (calloc_plan st) <> Some false ->
  iterator_insert (Some ip) v st =
  Ok tt (set_links (insert a (Link (link_value k) (Some (calloc_addr st))))
           (set_links (insert (calloc_addr st) (Link v (link_next k)))
              (set_calloc_plan (tail (calloc_plan st)) st))).
Proof.
  intros Hit Hc Ha Hplan. unfold iterator_insert.
  pose proof (calloc_addr_links st) as Hnew.
  assert (a <> calloc_addr st) as Hne by (intros E; rewrite <- E in Hnew; congruence).
  run read_current_ok. rewrite Hc.
  run read_next_ok.
  run link_new_ok.
  run read_current_ok. rewrite Hc.
  erewrite write_next_ok by lookup. reflexivity.
Qed.

Lemma iterator_insert_fail st ip it a k v plan :
  iters st !! ip = Some it -> iter_current it = Some a -> links st !! a = Some k ->
  calloc_plan st = false :: plan ->
  iterator_insert (Some ip) v st =
  Ok tt (add_stdout (Puts "Insertion failed due to memory corruption!")
           (add_stdout (Puts "Failed to allocate memory for another link.")
              (set_calloc_plan plan st))).
Proof.
  intros Hit Hc Ha Hplan. unfold iterator_insert.
  run read_current_ok. rewrite Hc.
  run read_next_ok.
  erewrite bind_ok by (by apply link_new_fail). reflexivity.
Qed.

Lemma iterator_remove_ok st ip it t kt a ka :
  iters st !! ip = Some it -> iter_current it = Some t ->
  links st !! t = Some kt -> link_next kt = Some a -> links st !! a = Some ka ->
  t <> a ->
  iterator_remove (Some ip) st =
  Ok (link_value ka)
     (set_freed (union {[a]})
        (set_links (delete a)
           (set_links (insert t (Link (link_value kt) (link_next ka))) st))).
Proof.
  intros Hit Hc Ht Hn Ha Hne. unfold iterator_remove.
  run read_current_ok. rewrite Hc.
  run read_next_ok. rewrite Hn.
  run read_value_ok.
  run read_next_ok.
  run read_current_ok. rewrite Hc.
  run write_next_ok.
  run free_link_ok. reflexivity.
Qed.

Lemma iterator_reset_ok st ip it lp l :
  iters st !! ip = Some it -> iter_list it = Some lp -> lists st !! lp = Some l ->
  iterator_reset (Some ip) st =
  Ok tt (set_iters (insert ip (Iter (list_first l) (Some lp))) st).
Proof.
  intros Hit Hlist Hl. unfold iterator_reset.
  run read_list_ok. rewrite Hlist.
  run read_first_ok.
  erewrite write_current_ok by lookup. by rewrite Hlist.
Qed.

Lemma for_loop_next_end st ip it s k n :
  iters st !! ip = Some it -> iter_current it = Some s ->
  links st !! s = Some k -> link_next k = NULL ->
  for_loop (S n) (do _ <- iterator_next (Some ip); ret tt) st = Fault.
Proof.
  intros Hit Hc Hs Hnext. cbn [for_loop]. unfold iterator_next.
  run read_current_ok. rewrite Hc.
  run read_next_ok. rewrite Hnext.
  run write_current_ok.
  run read_current_ok. reflexivity.
Qed.

(** ** Chains of links *)

Lemma lseg_app h p c1 c2 q :
  lseg h p (c1 ++ c2) q <-> exists m, lseg h p c1 m /\ lseg h m c2 q.
Proof.
  revert p. induction c1 as [|[a v] c1 IH]; intros p; simpl.
  - split; [intros H; by exists p | by intros (m & -> & H)].
  - split.
    + intros (-> & n & Ha & H). apply IH in H as (m & H1 & H2). exists m. eauto.
    + intros (m & (-> & n & Ha & H1) & H2). split; [done|]. exists n. split; [done|].
      apply IH. eauto.
Qed.

Lemma lseg_ext h h' p cells q :
  (forall a, a ∈ cells.*1 -> h' !! a = h !! a) ->
  lseg h p cells q -> lseg h' p cells q.
Proof.
  revert p. induction cells as [|[a v] cells IH]; intros p Hext; simpl; [done|].
  intros (-> & n & Ha & H). split; [done|]. exists n. split.
  - rewrite Hext; [done|]. simpl. apply elem_of_cons. by left.
  - apply IH; [|done]. intros b Hb. apply Hext. simpl. apply elem_of_cons. by right.
Qed.

Lemma lseg_insert h p cells q a k :
  a ∉ cells.*1 -> lseg h p cells q -> lseg (<[a:=k]> h) p cells q.
Proof.
  intros Ha. apply lseg_ext. intros b Hb. apply lookup_insert_ne. by intros ->.
Qed.

Lemma lseg_delete h p cells q a :
  a ∉ cells.*1 -> lseg h p cells q -> lseg (delete a h) p cells q.
Proof.
  intros Ha. apply lseg_ext. intros b Hb. apply lookup_delete_ne. by intros ->.
Qed.

Lemma lseg_live h p cells q a :
  lseg h p cells q -> a ∈ cells.*1 -> is_Some (h !! a).
Proof.
  revert p. induction cells as [|[b v] cells IH]; intros p; simpl.
  - intros _ Ha. by apply elem_of_nil in Ha.
  - intros (-> & n & Hb & H) Ha. apply elem_of_cons in Ha as [->|Ha]; eauto.
Qed.

Lemma lseg_fresh h p cells q a :
  lseg h p cells q -> h !! a = None -> a ∉ cells.*1.
Proof.
  intros Hseg Ha Hin. destruct (lseg_live _ _ _ _ _ Hseg Hin) as [k Hk]. congruence.
Qed.

Lemma lseg_split h p nodes q i b vb :
  lseg h p nodes q -> nodes !! i = Some (b, vb) ->
  exists n, lseg h p (take i nodes ++ [(b, vb)]) n /\
            h !! b = Some (Link vb n) /\
            lseg h n (drop (S i) nodes) q.
Proof.
  intros Hseg Hi.
  rewrite <- (take_drop_middle nodes i (b, vb) Hi) in Hseg.
  apply lseg_app in Hseg as (m & H1 & H2). simpl in H2.
  destruct H2 as (-> & n & Hb & H2).
  exists n. split; [|by split]. apply lseg_app. exists (Some b). split; [done|].
  simpl. eauto.
Qed.

Lemma NoDup_insert_at {A : Type} (xs : list A) (x : A) (i : nat) :
  NoDup xs -> x ∉ xs -> NoDup (take i xs ++ x :: drop i xs).
Proof.
  intros Hnd Hx. rewrite <- (take_drop i xs) in Hnd, Hx.
  apply NoDup_app in Hnd as (Hnd1 & Hnd2 & Hnd3).
  apply not_elem_of_app in Hx as (Hx1 & Hx2).
  apply NoDup_app. split; [done|]. split.
  - intros y Hy [->|Hy']%elem_of_cons; [done|]. by apply (Hnd2 y).
  - by apply NoDup_cons.
Qed.

Lemma lookup_insert_at {A : Type} (xs : list A) (i : nat) (x : A) :
  (i <= length xs)%nat -> (take i xs ++ x :: drop i xs) !! i = Some x.
Proof.
  intros H. rewrite lookup_app_r; rewrite length_take_le by done; [|done].
  by rewrite Nat.sub_diag.
Qed.

(** Splicing a new link after the link at position [i]. *)
Lemma lseg_insert_after h p nodes q i t vt new v :
  lseg h p nodes q -> NoDup nodes.*1 -> nodes !! i = Some (t, vt) -> h !! new = None ->
  exists n,
    h !! t = Some (Link vt n) /\
    lseg (<[t:=Link vt (Some new)]> (<[new:=Link v n]> h)) p
         (take (S i) nodes ++ (new, v) :: drop (S i) nodes) q.
Proof.
  intros Hseg Hnd Hi Hnew.
  pose proof (lseg_fresh _ _ _ _ _ Hseg Hnew) as Hnew_notin.
  destruct (lseg_split _ _ _ _ _ _ _ Hseg Hi) as (n & Hpre & Ht & Hpost).
  apply lseg_app in Hpre as (m & Hpre & Hlast). simpl in Hlast. destruct Hlast as (-> & _).
  rewrite <- (take_drop_middle nodes i (t, vt) Hi) in Hnd, Hnew_notin.
  rewrite fmap_app, fmap_cons in Hnd, Hnew_notin. simpl in Hnd, Hnew_notin.
  apply NoDup_app in Hnd as (_ & Hnd1 & Hnd2). apply NoDup_cons in Hnd2 as (Hnd2 & _).
  apply not_elem_of_app in Hnew_notin as (Hnew1 & Hnew2).
  apply not_elem_of_cons in Hnew2 as (Hne & Hnew2).
  assert (t ∉ (take i nodes).*1) as Hnd3.
  { intros Hin. apply (Hnd1 t Hin). apply elem_of_cons. by left. }
  exists n. split; [done|].
  rewrite (take_S_r _ _ _ Hi). rewrite <- app_assoc.
  apply lseg_app. exists (Some t). split.
  { by apply lseg_insert; [|apply lseg_insert]. }
  simpl. split; [done|]. exists (Some new). split; [apply lookup_insert_eq|].
  split; [done|]. exists n. split.
  { rewrite lookup_insert_ne by done. apply lookup_insert_eq. }
  by apply lseg_insert; [|apply lseg_insert].
Qed.

(** Unlinking the link after the link at position [i]. *)
Lemma lseg_remove_after h p nodes q i t vt a v :
  lseg h p nodes q -> NoDup nodes.*1 ->
  nodes !! i = Some (t, vt) -> nodes !! S i = Some (a, v) ->
  exists n,
    h !! t = Some (Link vt (Some a)) /\ h !! a = Some (Link v n) /\ t <> a /\
    lseg (delete a (<[t:=Link vt n]> h)) p (delete (S i) nodes) q.
Proof.
  intros Hseg Hnd Hi Ha.
  destruct (lseg_split _ _ _ _ _ _ _ Hseg Hi) as (m & Hpre & Ht & Hpost).
  erewrite (drop_S _ (a, v)) in Hpost by exact Ha.
  simpl in Hpost. destruct Hpost as (-> & n & Hla & Hpost).
  apply lseg_app in Hpre as (m & Hpre & Hlast). simpl in Hlast. destruct Hlast as (-> & _).
  assert (nodes = take i nodes ++ (t, vt) :: (a, v) :: drop (S (S i)) nodes) as Hnodes.
  { rewrite <- (take_drop_middle nodes i (t, vt) Hi) at 1.
    by rewrite (drop_S _ (a, v) (S i) Ha). }
  rewrite Hnodes in Hnd. rewrite fmap_app, !fmap_cons in Hnd. simpl in Hnd.
  apply NoDup_app in Hnd as (_ & Hnd1 & Hnd2).
  apply NoDup_cons in Hnd2 as (Hnd2 & Hnd3). apply NoDup_cons in Hnd3 as (Hnd3 & _).
  apply not_elem_of_cons in Hnd2 as (Hne & Hnd2).
  assert (t ∉ (take i nodes).*1) as Ht1.
  { intros Hin. apply (Hnd1 t Hin). apply elem_of_cons. by left. }
  assert (a ∉ (take i nodes).*1) as Ha1.
  { intros Hin. apply (Hnd1 a Hin). apply elem_of_cons. right. apply elem_of_cons. by left. }
  exists n. split; [done|]. split; [done|]. split; [done|].
  rewrite delete_take_drop, (take_S_r _ _ _ Hi), <- app_assoc. simpl.
  apply lseg_app. exists (Some t). split.
  { by apply lseg_delete; [|apply lseg_insert]. }
  simpl. split; [done|]. exists n. split.
  { rewrite lookup_delete_ne by done. apply lookup_insert_eq. }
  by apply lseg_delete; [|apply lseg_insert].
Qed.

Lemma for_loop_next st ip lst pre :
  forall p b vb q,
    iters st !! ip = Some (Iter p lst) ->
    lseg (links st) p (pre ++ [(b, vb)]) q ->
    for_loop (length pre) (do _ <- iterator_next (Some ip); ret tt) st =
    Ok tt (set_iters (insert ip (Iter (Some b) lst)) st).
Proof.
  revert st. induction pre as [|[a va] pre IH]; intros st p b vb q Hit Hseg; simpl in *.
  - destruct Hseg as (-> & _). unfold ret. f_equal. symmetry.
    apply set_iters_id. by apply insert_id.
  - destruct Hseg as (-> & n & Ha & Hseg).
    assert (exists c vc nc, n = Some c /\ links st !! c = Some (Link vc nc))
      as (c & vc & nc & -> & Hc).
    { destruct pre as [|[c vc] pre]; simpl in Hseg; destruct Hseg as (-> & nc & Hc & _); eauto. }
    run iterator_next_ok. simpl.
    erewrite IH; [ | apply lookup_insert_eq | exact Hseg ].
    f_equal. rewrite set_iters_twice. apply set_iters_ext. by rewrite insert_insert_eq.
Qed.

(** ** The data model on a given state *)

Lemma lseg_check_sound h p cells q : lseg_check h p cells q = true -> lseg h p cells q.
Proof.
  revert p. induction cells as [|[a v] cells IH]; intros p; simpl.
  - by intros ?%bool_decide_eq_true.
  - intros [->%bool_decide_eq_true H]%andb_prop. split; [done|].
    destruct (h !! a) as [[v' n]|]; [|done].
    apply andb_prop in H as [<-%bool_decide_eq_true H]. simpl in *. eauto.
Qed.

Lemma list_rep_check_sound st lst s v0 cells :
  list_rep_check st lst s v0 cells = true -> list_rep st lst s v0 cells.
Proof.
  unfold list_rep_check, list_rep. destruct lst as [lp|]; [|done].
  destruct (lists st !! lp) as [l|] eqn:Hl; [|done].
  intros [[[Hf%bool_decide_eq_true Hs%Z.eqb_eq]%andb_prop Hseg%lseg_check_sound]%andb_prop
            Hnd%bool_decide_eq_true]%andb_prop.
  split; [|done]. by exists lp, l.
Qed.

Lemma tail_ok_check_complete st lst s cells :
  tail_ok st lst s cells -> tail_ok_check st lst s cells = true.
Proof.
  intros (lp & l & -> & Hl & Hlast). unfold tail_ok_check. rewrite Hl.
  by apply bool_decide_eq_true.
Qed.

Lemma tail_ok_check_sound st lst s cells :
  tail_ok_check st lst s cells = true -> tail_ok st lst s cells.
Proof.
  unfold tail_ok_check, tail_ok. destruct lst as [lp|]; [|done].
  destruct (lists st !! lp) as [l|] eqn:Hl; [|done].
  intros H%bool_decide_eq_true. by exists lp, l.
Qed.

Lemma list_rep_same st st' lst s v0 cells :
  links st' = links st -> lists st' = lists st ->
  list_rep st lst s v0 cells -> list_rep st' lst s v0 cells.
Proof. unfold list_rep. by intros -> ->. Qed.

Lemma list_rep_insert st st' lp l l' s v0 cells i t vt new v n :
  lists st !! lp = Some l -> list_first l = Some s ->
  lseg (links st) (Some s) ((s, v0) :: cells) NULL ->
  NoDup (s :: cells.*1) ->
  ((s, v0) :: cells) !! i = Some (t, vt) ->
  links st !! new = None ->
  links st !! t = Some (Link vt n) ->
  links st' = <[t:=Link vt (Some new)]> (<[new:=Link v n]> (links st)) ->
  lists st' !! lp = Some l' -> list_first l' = Some s ->
  list_size l' = Z.of_nat (length cells) + 1 ->
  list_rep st' (Some lp) s v0 (take i cells ++ (new, v) :: drop i cells).
Proof.
  intros Hl Hfirst Hseg Hnd Hi Hnew Ht Hlinks Hl' Hfirst' Hsize'.
  pose proof (lookup_lt_Some _ _ _ Hi) as Hlt. simpl in Hlt.
  split; [|split].
  - exists lp, l'. repeat split; try done.
    rewrite Hsize', length_app. simpl. rewrite length_take, length_drop. lia.
  - destruct (lseg_insert_after _ _ _ _ i t vt new v Hseg Hnd Hi Hnew) as (n' & Ht' & H).
    rewrite Ht in Ht'. injection Ht' as <-. rewrite Hlinks. exact H.
  - pose proof (lseg_fresh _ _ _ _ _ Hseg Hnew) as Hnotin.
    rewrite fmap_app, fmap_cons, fmap_take, fmap_drop.
    by apply (NoDup_insert_at (s :: cells.*1) new (S i)).
Qed.

(** ** The tail invariant *)

Lemma tail_sentinel_iff_empty (s : positive) (cells : list (positive * elem_t)) :
  NoDup (s :: cells.*1) -> (last (s :: cells.*1) = Some s <-> cells = []).
Proof.
  intros Hnd. split; [|by intros ->].
  destruct cells as [|c cells]; [done|]. intros Hlast. exfalso.
  apply NoDup_cons in Hnd as (Hs & _). apply Hs.
  simpl in Hlast |- *.
  apply last_Some in Hlast as (pre & Hpre). rewrite Hpre.
  apply elem_of_app. right. by apply list_elem_of_singleton.
Qed.

Lemma last_lookup_cons {A : Type} (x : A) (xs : list A) :
  last (x :: xs) = (x :: xs) !! length xs.
Proof. rewrite last_lookup. reflexivity. Qed.

Lemma last_insert_at (s new : positive) (v : elem_t) (cells : list (positive * elem_t)) i :
  (i <= length cells)%nat ->
  last (s :: (take i cells ++ (new, v) :: drop i cells).*1) =
  if decide (i = length cells) then Some new else last (s :: cells.*1).
Proof.
  intros Hi. destruct (decide (i = length cells)) as [->|Hne].
  - rewrite firstn_all, drop_all, fmap_app.
    exact (last_snoc new (s :: cells.*1)).
  - destruct (drop i cells) as [|d rest] eqn:Hdrop.
    { apply (f_equal length) in Hdrop. rewrite length_drop in Hdrop. simpl in Hdrop. lia. }
    assert (cells = take i cells ++ d :: rest) as Hcells
      by (rewrite <- Hdrop; symmetry; apply take_drop).
    set (pre := take i cells) in *. clearbody pre. subst cells.
    rewrite !fmap_app, !fmap_cons, !app_comm_cons, !last_app.
    rewrite (last_cons_cons (new, v).1). by destruct (last (d.1 :: rest.*1)).
Qed.

Lemma tail_ok_insert st st' lp l l' s cells i new v :
  tail_ok st (Some lp) s cells ->
  lists st !! lp = Some l -> lists st' !! lp = Some l' ->
  (i <= length cells)%nat ->
  list_last l' = (if decide (i = length cells) then Some new else list_last l) ->
  tail_ok st' (Some lp) s (take i cells ++ (new, v) :: drop i cells).
Proof.
  intros (lp0 & l0 & E & Hl0 & Hlast) Hl Hl' Hi Hlast'.
  injection E as <-. rewrite Hl in Hl0. injection Hl0 as <-.
  exists lp, l'. split; [done|]. split; [done|].
  rewrite Hlast', last_insert_at by done. by rewrite Hlast.
Qed.

(** ** Creating a list and reading from it *)

Lemma linked_list_create_ok st f :
  calloc_succeeds st ->
  exists st' lp s,
    linked_list_create f st = Ok (Some lp) st' /\
    list_rep st' (Some lp) s calloc_elem [] /\
    tail_ok st' (Some lp) s [] /\
    list_has_fun st' (Some lp) f /\
    calloc_succeeds st'.
Proof.
  intros Hplan.
  set (st1 := set_calloc_plan (tail (calloc_plan st)) st).
  assert (calloc_succeeds st1) as Hplan1 by (by eapply calloc_succeeds_step).
  eexists. exists (calloc_addr st). eexists. split; [|split; [|split; [|split]]].
  - unfold linked_list_create.
    run calloc_list_ok. fold st1.
    run calloc_link_ok.
    run write_last_ok. run write_first_ok. run write_size_ok.
    run write_fun_ok. reflexivity.
  - split; [|split].
    + eexists _, _. split; [reflexivity|]. simpl_state. rewrite lookup_insert_eq.
      split; [reflexivity|]. split; reflexivity.
    + simpl_state. cbn [lseg]. split; [reflexivity|]. eexists.
      rewrite lookup_insert_eq. split; reflexivity.
    + cbn [fmap list_fmap]. apply NoDup_singleton.
  - eexists _, _. split; [reflexivity|]. simpl_state. rewrite lookup_insert_eq.
    split; reflexivity.
  - eexists _, _. split; [reflexivity|]. simpl_state. rewrite lookup_insert_eq.
    split; reflexivity.
  - eapply (calloc_succeeds_step st1); [done|]. reflexivity.
Qed.

Lemma linked_list_get_ok st lst s v0 cells i a v :
  list_rep st lst s v0 cells ->
  head (calloc_plan st) <> Some false ->
  Z.of_nat (length cells) <= INT_MAX ->
  cells !! i = Some (a, v) ->
  exists st',
    linked_list_get lst (Z.of_nat i) st = Ok v st' /\
    links st' = links st /\ lists st' = lists st /\ iters st' = iters st /\
    stdout st' = stdout st /\ calls st' = calls st /\
    calloc_plan st' = tail (calloc_plan st).
Proof.
  intros ((lp & l & -> & Hl & Hfirst & Hsize) & Hseg & Hnd) Hplan Hmax Hi.
  pose proof (lookup_lt_Some _ _ _ Hi) as Hlt.
  assert (exists b vb, ((s, v0) :: cells) !! i = Some (b, vb)) as (b & vb & Hcur).
  { destruct (((s, v0) :: cells) !! i) as [[b vb]|] eqn:E; [eauto|].
    apply lookup_ge_None in E. simpl in E. lia. }
  destruct (lseg_split _ _ _ _ _ _ _ Hseg Hcur) as (n & Hpre & Hb & Hpost).
  erewrite (drop_S _ (a, v)) in Hpost by exact Hi.
  simpl in Hpost. destruct Hpost as (-> & n' & Ha & _).
  eexists. split.
  { unfold linked_list_get, linked_list_size.
    run read_size_ok. rewrite Hsize.
    rewrite upper_limit_nonempty by lia.
    rewrite adjust_index_valid by (unfold INT_MAX in *; lia).
    destruct (Z.eqb_spec (Z.of_nat i) (-1)) as [?|_]; [lia|].
    rewrite to_size_t_id by (unfold INT_MAX in *; lia). rewrite Nat2Z.id.
    run list_iterator_ok. rewrite Hfirst.
    match goal with
    | |- bind _ _ ?st1 = _ =>
        pose proof (for_loop_next st1 (calloc_addr st) (Some lp)
                      (take i ((s, v0) :: cells)) (Some s) b vb (Some a)) as Hloop
    end.
    rewrite length_take_le in Hloop by (simpl; lia).
    run Hloop.
    run iterator_current_ok.
    run free_iter_ok.
    reflexivity. }
  simpl.
  rewrite insert_insert_eq, delete_insert_eq, delete_id by apply calloc_addr_iters. done.
Qed.

Lemma get_bad_index st lp l index :
  lists st !! lp = Some l ->
  list_inner_adjust_index index (to_size_t (to_int (to_int (list_size l) - 1))) = -1 ->
  linked_list_get (Some lp) index st = Ok no_value st.
Proof.
  intros Hl Hadj. unfold linked_list_get, linked_list_size.
  run read_size_ok. by rewrite Hadj.
Qed.

Lemma remove_bad_index st lp l index :
  lists st !! lp = Some l ->
  list_inner_adjust_index index (to_size_t (to_int (to_int (list_size l) - 1))) = -1 ->
  linked_list_remove (Some lp) index st = Ok no_value st.
Proof.
  intros Hl Hadj. unfold linked_list_remove, linked_list_size.
  run read_size_ok. by rewrite Hadj.
Qed.

Lemma get_on_empty_list st lst s v0 index :
  list_rep st lst s v0 [] ->
  head (calloc_plan st) <> Some false ->
  0 <= index <= INT_MAX ->
  (index = 0 -> exists st', linked_list_get lst index st = Ok no_value st') /\
  (index <> 0 -> linked_list_get lst index st = Fault).
Proof.
  intros ((lp & l & -> & Hl & Hfirst & Hsize) & Hseg & _) Hplan Hindex.
  simpl in Hseg. destruct Hseg as (_ & n & Hs & ->).
  unfold linked_list_get, linked_list_size.
  run read_size_ok. rewrite Hsize. cbn [length]. change (Z.of_nat 0) with 0.
  rewrite upper_limit_empty.
  rewrite adjust_index_valid by (unfold INT_MAX in *; lia).
  destruct (Z.eqb_spec index (-1)) as [?|_]; [lia|].
  rewrite to_size_t_id by (unfold INT_MAX in *; lia).
  run list_iterator_ok. rewrite Hfirst.
  split.
  - intros ->. change (Z.to_nat 0) with 0%nat. cbn [for_loop].
    run iterator_current_none. run free_iter_ok. by eexists.
  - intros Hne. destruct (Z.to_nat index) as [|k] eqn:E; [lia|].
    norm_bind. unfold bind at 1.
    erewrite for_loop_next_end; [reflexivity| lookup | reflexivity | lookup | reflexivity].
Qed.

(** ** Insertion *)

Lemma linked_list_prepend_ok st lst s v0 cells v :
  list_rep st lst s v0 cells ->
  head (calloc_plan st) <> Some false ->
  Z.of_nat (length cells) < 2 ^ 64 - 1 ->
  exists st',
    linked_list_prepend lst v st = Ok tt st' /\
    list_rep st' lst s v0 ((calloc_addr st, v) :: cells) /\
    (tail_ok st lst s cells -> tail_ok st' lst s ((calloc_addr st, v) :: cells)) /\
    calloc_plan st' = tail (calloc_plan st).
Proof.
  intros ((lp & l & -> & Hl & Hfirst & Hsize) & Hseg & Hnd) Hplan Hmax.
  pose proof Hseg as Hseg'. simpl in Hseg'. destruct Hseg' as (_ & n & Hs & Hrest).
  pose proof (calloc_addr_links st) as Hnew.
  assert (s <> calloc_addr st) as Hne by (intros E; rewrite <- E in Hnew; congruence).
  assert (exists st',
             linked_list_prepend (Some lp) v st = Ok tt st' /\
             links st' = <[s:=Link v0 (Some (calloc_addr st))]>
                           (<[calloc_addr st:=Link v n]> (links st)) /\
             (exists l', lists st' !! lp = Some l' /\ list_first l' = Some s /\
                         list_size l' = Z.of_nat (length cells) + 1 /\
                         list_last l' = if ptr_eqb (Some s) (list_last l)
                                        then Some (calloc_addr st) else list_last l) /\
             calloc_plan st' = tail (calloc_plan st))
    as (st' & Hrun & Hlinks & (l' & Hl' & Hf' & Hs' & Hlast') & Hp').
  { unfold linked_list_prepend.
    run read_first_ok. rewrite Hfirst.
    run read_next_ok. simpl.
    run link_new_ok.
    run read_first_ok. run read_last_ok. rewrite Hfirst.
    destruct (ptr_eqb (Some s) (list_last l)).
    - run write_last_ok. run read_first_ok. simpl. rewrite Hfirst. run write_next_ok.
      run read_size_ok.
      erewrite write_size_ok by lookup.
      eexists. split; [reflexivity|]. simpl. split; [done|]. split; [|done].
      eexists. rewrite insert_insert_eq, lookup_insert_eq. split; [done|]. simpl.
      split; [done|]. split; [|done]. rewrite Hsize. apply to_size_t_id. lia.
    - run read_first_ok. rewrite Hfirst. run write_next_ok. run read_size_ok.
      erewrite write_size_ok by lookup.
      eexists. split; [reflexivity|]. simpl. split; [done|]. split; [|done].
      eexists. rewrite lookup_insert_eq. split; [done|]. simpl.
      split; [done|]. split; [|done]. rewrite Hsize. apply to_size_t_id. lia. }
  exists st'. split; [done|]. split; [|split; [|done]].
  - by apply (list_rep_insert st st' lp l l' s v0 cells 0%nat s v0 (calloc_addr st) v n).
  - intros Htail.
    apply (tail_ok_insert st st' lp l l' s cells 0%nat (calloc_addr st) v Htail Hl Hl');
      [lia|].
    destruct Htail as (lp0 & l0 & E & Hl0 & Hlast).
    injection E as <-. rewrite Hl in Hl0. injection Hl0 as <-.
    rewrite Hlast'. unfold ptr_eqb.
    destruct (decide (0%nat = length cells)) as [Hempty|Hnonempty].
    + rewrite bool_decide_eq_true_2; [done|].
      rewrite Hlast. symmetry. apply tail_sentinel_iff_empty; [done|].
      by destruct cells.
    + rewrite bool_decide_eq_false_2; [done|].
      rewrite Hlast. intros E. symmetry in E.
      apply tail_sentinel_iff_empty in E; [|done]. by subst cells.
Qed.

Lemma linked_list_append_ok st lst s v0 cells v :
  list_rep st lst s v0 cells ->
  tail_ok st lst s cells ->
  head (calloc_plan st) <> Some false ->
  Z.of_nat (length cells) < 2 ^ 64 - 1 ->
  exists st',
    linked_list_append lst v st = Ok tt st' /\
    list_rep st' lst s v0 (cells ++ [(calloc_addr st, v)]) /\
    tail_ok st' lst s (cells ++ [(calloc_addr st, v)]) /\
    calloc_plan st' = tail (calloc_plan st).
Proof.
  intros ((lp & l & -> & Hl & Hfirst & Hsize) & Hseg & Hnd) Htail Hplan Hmax.
  pose proof Htail as (lp' & l0 & E & Hl0 & Hlast).
  injection E as <-. rewrite Hl in Hl0. injection Hl0 as <-.
  pose proof (calloc_addr_links st) as Hnew.
  assert (exists t vt, ((s, v0) :: cells) !! length cells = Some (t, vt) /\ list_last l = Some t)
    as (t & vt & Ht & Hlast').
  { destruct (((s, v0) :: cells) !! length cells) as [[t vt]|] eqn:E.
    - exists t, vt. split; [done|].
      rewrite Hlast, last_lookup_cons, length_fmap.
      change (s :: cells.*1) with (((s, v0) :: cells).*1).
      by rewrite list_lookup_fmap, E.
    - apply lookup_ge_None in E. simpl in E. lia. }
  destruct (lseg_split _ _ _ _ _ _ _ Hseg Ht) as (n & _ & Hlt & Hpost).
  rewrite drop_ge in Hpost by (simpl; lia). simpl in Hpost. subst n.
  assert (t <> calloc_addr st) as Hne by (intros E; rewrite <- E in Hnew; congruence).
  assert (exists st',
             linked_list_append (Some lp) v st = Ok tt st' /\
             links st' = <[t:=Link vt (Some (calloc_addr st))]>
                           (<[calloc_addr st:=Link v NULL]> (links st)) /\
             (exists l', lists st' !! lp = Some l' /\ list_first l' = Some s /\
                         list_size l' = Z.of_nat (length cells) + 1 /\
                         list_last l' = Some (calloc_addr st)) /\
             calloc_plan st' = tail (calloc_plan st))
    as (st' & Hrun & Hlinks & (l' & Hl' & Hf' & Hs' & Hlast'') & Hp').
  { unfold linked_list_append.
    run link_new_ok.
    run read_last_ok. rewrite Hlast'.
    run write_next_ok. run write_last_ok. run read_size_ok.
    erewrite write_size_ok by lookup.
    eexists. split; [reflexivity|]. simpl. split; [done|]. split; [|done].
    eexists. rewrite insert_insert_eq, lookup_insert_eq. split; [done|]. simpl.
    split; [done|]. split; [|done]. rewrite Hsize. apply to_size_t_id. lia. }
  exists st'. split; [done|]. split; [|split; [|done]].
  - pose proof (list_rep_insert st st' lp l l' s v0 cells (length cells) t vt (calloc_addr st)
                  v NULL Hl Hfirst Hseg Hnd Ht Hnew Hlt Hlinks Hl' Hf' Hs') as Hrep.
    rewrite firstn_all, drop_all in Hrep. exact Hrep.
  - pose proof (tail_ok_insert st st' lp l l' s cells (length cells) (calloc_addr st) v
                  Htail Hl Hl') as Htail'.
    rewrite firstn_all, drop_all in Htail'. apply Htail'; [lia|].
    by rewrite decide_True.
Qed.

(** [linked_list_insert] with a valid index that is not negative.  The
    tail is used, and has to be in order, only for an insertion at the end of
    a list that is not empty. *)
Lemma linked_list_insert_ok st lst s v0 cells i v :
  list_rep st lst s v0 cells ->
  (i = length cells -> i <> 0%nat -> tail_ok st lst s cells) ->
  calloc_succeeds st ->
  (i <= length cells)%nat ->
  Z.of_nat (length cells) < INT_MAX ->
  exists st' new,
    linked_list_insert lst (Z.of_nat i) v st = Ok tt st' /\
    list_rep st' lst s v0 (take i cells ++ (new, v) :: drop i cells) /\
    (tail_ok st lst s cells ->
     tail_ok st' lst s (take i cells ++ (new, v) :: drop i cells)) /\
    calloc_succeeds st'.
Proof.
  intros Hrep Htail Hplan Hi Hmax.
  pose proof Hrep as ((lp & l & -> & Hl & Hfirst & Hsize) & Hseg & Hnd).
  unfold linked_list_insert, linked_list_size.
  run read_size_ok. rewrite Hsize.
  rewrite adjust_index_valid by (unfold INT_MAX in *; lia).
  destruct (Z.eqb_spec (Z.of_nat i) (-1)) as [?|_]; [lia|].
  rewrite to_size_t_id by (unfold INT_MAX in *; lia).
  destruct (Z.eqb_spec (Z.of_nat i) 0) as [Hi0|Hi0].
  { assert (i = 0%nat) as -> by lia.
    destruct (linked_list_prepend_ok st (Some lp) s v0 cells v Hrep)
      as (st' & Hrun & Hrep' & Htail' & Hp');
      [by apply calloc_succeeds_head | unfold INT_MAX in *; lia |].
    exists st', (calloc_addr st). split; [done|]. rewrite drop_0.
    split; [done|]. split; [done|]. by eapply calloc_succeeds_step. }
  destruct (Z.eqb_spec (Z.of_nat i) (Z.of_nat (length cells))) as [Hin|Hin].
  { assert (i = length cells) as -> by lia.
    destruct (linked_list_append_ok st (Some lp) s v0 cells v Hrep)
      as (st' & Hrun & Hrep' & Htail' & Hp');
      [apply Htail; [done|lia] | by apply calloc_succeeds_head | unfold INT_MAX in *; lia |].
    exists st', (calloc_addr st). split; [done|]. rewrite firstn_all, drop_all.
    split; [done|]. split; [done|]. by eapply calloc_succeeds_step. }
  rewrite Nat2Z.id.
  assert (exists t vt, ((s, v0) :: cells) !! i = Some (t, vt)) as (t & vt & Hcur).
  { destruct (((s, v0) :: cells) !! i) as [[t vt]|] eqn:E; [eauto|].
    apply lookup_ge_None in E. simpl in E. lia. }
  destruct (lseg_split _ _ _ _ _ _ _ Hseg Hcur) as (n & Hpre & Ht & _).
  set (st1 := set_calloc_plan (tail (calloc_plan st)) st).
  assert (calloc_succeeds st1) as Hplan1 by (by eapply calloc_succeeds_step).
  assert (exists st' new,
             bind (list_iterator (Some lp))
               (fun iter =>
                  do _ <- for_loop i (do _ <- iterator_next iter; ret tt);
                  do _ <- iterator_insert iter v;
                  do n <- read_size (Some lp);
                  do _ <- write_size (Some lp) (to_size_t (n + 1));
                  iterator_destroy iter) st = Ok tt st' /\
             links st' = <[t:=Link vt (Some new)]> (<[new:=Link v n]> (links st)) /\
             links st !! new = None /\
             (exists l', lists st' !! lp = Some l' /\ list_first l' = Some s /\
                         list_size l' = Z.of_nat (length cells) + 1 /\
                         list_last l' = list_last l) /\
             calloc_plan st' = tail (calloc_plan st1))
    as (st' & new & Hrun & Hlinks & Hnew & (l' & Hl' & Hf' & Hs' & Hlast') & Hp').
  { eexists. eexists. split.
    { run list_iterator_ok. rewrite Hfirst. fold st1.
      match goal with
      | |- bind _ _ ?st2 = _ =>
          pose proof (for_loop_next st2 (calloc_addr st) (Some lp)
                        (take i ((s, v0) :: cells)) (Some s) t vt n) as Hloop
      end.
      rewrite length_take_le in Hloop by (simpl; lia).
      run Hloop.
      run iterator_insert_ok.
      run read_size_ok.
      run write_size_ok.
      erewrite free_iter_ok by lookup. reflexivity. }
    simpl_state. split; [reflexivity|]. split.
    { match goal with |- _ !! calloc_addr ?x = None => exact (calloc_addr_links x) end. }
    split; [|reflexivity].
    eexists. rewrite lookup_insert_eq. split; [done|]. simpl. split; [done|].
    split; [|done]. rewrite Hsize. apply to_size_t_id. unfold INT_MAX in *. lia. }
  exists st', new. split; [done|]. split; [|split].
  - by apply (list_rep_insert st st' lp l l' s v0 cells i t vt new v n).
  - intros Htail0.
    apply (tail_ok_insert st st' lp l l' s cells i new v Htail0 Hl Hl'); [lia|].
    rewrite decide_False by lia. done.
  - by eapply (calloc_succeeds_step st1).
Qed.

(** ** Insertion without memory *)

Lemma append_alloc_failure st lst v plan :
  calloc_plan st = false :: plan ->
  linked_list_append lst v st =
  Ok tt (add_stdout (Puts "Append failed due to memory corruption!")
           (add_stdout (Puts "Failed to allocate memory for another link.")
              (set_calloc_plan plan st))).
Proof.
  intros Hplan. unfold linked_list_append.
  erewrite bind_ok by (by apply link_new_fail). reflexivity.
Qed.

Lemma prepend_alloc_failure st lst s v0 cells v plan :
  list_rep st lst s v0 cells ->
  calloc_plan st = false :: plan ->
  linked_list_prepend lst v st =
  Ok tt (add_stdout (Puts "Prepend failed due to memory corruption!")
           (add_stdout (Puts "Failed to allocate memory for another link.")
              (set_calloc_plan plan st))).
Proof.
  intros ((lp & l & -> & Hl & Hfirst & Hsize) & Hseg & _) Hplan.
  simpl in Hseg. destruct Hseg as (_ & n & Hs & _).
  unfold linked_list_prepend.
  run read_first_ok. rewrite Hfirst.
  run read_next_ok.
  erewrite bind_ok by (by apply link_new_fail). reflexivity.
Qed.

Lemma insert_alloc_failure st lp l s v0 cells i v plan :
  lists st !! lp = Some l -> list_first l = Some s ->
  list_size l = Z.of_nat (length cells) ->
  lseg (links st) (Some s) ((s, v0) :: cells) NULL ->
  (0 < i < length cells)%nat ->
  Z.of_nat (length cells) < INT_MAX ->
  calloc_plan st = true :: false :: plan ->
  exists st',
    linked_list_insert (Some lp) (Z.of_nat i) v st = Ok tt st' /\
    links st' = links st /\
    lists st' = <[lp:=List (list_first l) (list_last l) (Z.of_nat (length cells) + 1)
                        (list_fun l)]> (lists st) /\
    calloc_plan st' = plan.
Proof.
  intros Hl Hfirst Hsize Hseg Hi Hmax Hplan.
  assert (exists t vt, ((s, v0) :: cells) !! i = Some (t, vt)) as (t & vt & Hcur).
  { destruct (((s, v0) :: cells) !! i) as [[t vt]|] eqn:E; [eauto|].
    apply lookup_ge_None in E. simpl in E. lia. }
  destruct (lseg_split _ _ _ _ _ _ _ Hseg Hcur) as (n & Hpre & Ht & _).
  eexists. split; [|split; [|split]].
  - unfold linked_list_insert, linked_list_size.
    run read_size_ok. rewrite Hsize.
    rewrite adjust_index_valid by (unfold INT_MAX in *; lia).
    destruct (Z.eqb_spec (Z.of_nat i) (-1)) as [?|_]; [lia|].
    rewrite to_size_t_id by (unfold INT_MAX in *; lia).
    destruct (Z.eqb_spec (Z.of_nat i) 0) as [?|_]; [lia|].
    destruct (Z.eqb_spec (Z.of_nat i) (Z.of_nat (length cells))) as [?|_]; [lia|].
    rewrite Nat2Z.id.
    erewrite bind_ok by (eapply list_iterator_ok; [by rewrite Hplan|exact Hl]).
    cbv beta. rewrite Hfirst, Hplan. cbn [tail].
    match goal with
    | |- bind _ _ ?st2 = _ =>
        pose proof (for_loop_next st2 (calloc_addr st) (Some lp)
                      (take i ((s, v0) :: cells)) (Some s) t vt n) as Hloop
    end.
    rewrite length_take_le in Hloop by (simpl; lia).
    run Hloop.
    erewrite bind_ok by (eapply iterator_insert_fail; [lookup|reflexivity|lookup|reflexivity]).
    cbv beta.
    run read_size_ok.
    run write_size_ok.
    erewrite free_iter_ok by lookup. reflexivity.
  - reflexivity.
  - simpl_state. rewrite Hsize, to_size_t_id by (unfold INT_MAX in *; lia). reflexivity.
  - reflexivity.
Qed.

(** ** Removal *)

Lemma linked_list_remove_ok st lst s v0 cells i a v :
  list_rep st lst s v0 cells ->
  head (calloc_plan st) <> Some false ->
  Z.of_nat (length cells) <= INT_MAX ->
  cells !! i = Some (a, v) ->
  exists st',
    linked_list_remove lst (Z.of_nat i) st = Ok v st' /\
    list_rep st' lst s v0 (delete i cells) /\
    links st' !! a = None /\ a ∈ freed st' /\
    (exists lp l l', lst = Some lp /\ lists st !! lp = Some l /\
                     lists st' !! lp = Some l' /\ list_last l' = list_last l) /\
    calloc_plan st' = tail (calloc_plan st).
Proof.
  intros ((lp & l & -> & Hl & Hfirst & Hsize) & Hseg & Hnd) Hplan Hmax Hi.
  pose proof (lookup_lt_Some _ _ _ Hi) as Hlt.
  assert (exists t vt, ((s, v0) :: cells) !! i = Some (t, vt)) as (t & vt & Hcur).
  { destruct (((s, v0) :: cells) !! i) as [[t vt]|] eqn:E; [eauto|].
    apply lookup_ge_None in E. simpl in E. lia. }
  destruct (lseg_remove_after _ _ _ _ i t vt a v Hseg Hnd Hcur Hi)
    as (n & Ht & Ha & Hne & Hseg').
  destruct (lseg_split _ _ _ _ _ _ _ Hseg Hcur) as (m & Hpre & Ht' & _).
  rewrite Ht in Ht'. injection Ht' as <-.
  eexists. split; [|split; [|split; [|split; [|split]]]].
  - unfold linked_list_remove, linked_list_size.
    run read_size_ok. rewrite Hsize.
    rewrite upper_limit_nonempty by lia.
    rewrite adjust_index_valid by (unfold INT_MAX in *; lia).
    destruct (Z.eqb_spec (Z.of_nat i) (-1)) as [?|_]; [lia|].
    rewrite to_size_t_id by (unfold INT_MAX in *; lia). rewrite Nat2Z.id.
    run list_iterator_ok. rewrite Hfirst.
    match goal with
    | |- bind _ _ ?st1 = _ =>
        pose proof (for_loop_next st1 (calloc_addr st) (Some lp)
                      (take i ((s, v0) :: cells)) (Some s) t vt (Some a)) as Hloop
    end.
    rewrite length_take_le in Hloop by (simpl; lia).
    run Hloop.
    run iterator_remove_ok.
    run read_size_ok.
    run write_size_ok.
    run free_iter_ok. reflexivity.
  - split; [|split].
    + eexists _, _. split; [reflexivity|]. simpl_state. rewrite lookup_insert_eq.
      split; [reflexivity|]. simpl. split; [done|].
      rewrite Hsize, length_delete by eauto.
      rewrite to_size_t_id by (unfold INT_MAX in *; lia). lia.
    + simpl_state. exact Hseg'.
    + change (s :: (delete i cells).*1) with ((delete (S i) ((s, v0) :: cells)).*1).
      rewrite list_fmap_delete. simpl.
      apply NoDup_cons in Hnd as (Hs & Hnd). apply NoDup_cons. split.
      * intros Hin. apply Hs. rewrite delete_take_drop in Hin.
        rewrite <- (take_drop i cells.*1).
        apply elem_of_app in Hin as [Hin|Hin]; apply elem_of_app; [by left|right].
        rewrite <- (take_drop 1 (drop i cells.*1)), drop_drop.
        apply elem_of_app. right. by rewrite Nat.add_1_r.
      * rewrite delete_take_drop. rewrite <- (take_drop i cells.*1) in Hnd.
        apply NoDup_app in Hnd as (Hnd1 & Hnd2 & Hnd3).
        rewrite <- (take_drop 1 (drop i cells.*1)), drop_drop, Nat.add_1_r in Hnd2, Hnd3.
        apply NoDup_app in Hnd3 as (_ & _ & Hnd3).
        apply NoDup_app. split; [done|]. split; [|done].
        intros x Hx Hx'. apply (Hnd2 x Hx). apply elem_of_app. by right.
  - simpl_state. apply lookup_delete_eq.
  - simpl_state. rewrite !elem_of_union, !elem_of_singleton. auto.
  - eexists _, _, _. split; [reflexivity|]. split; [exact Hl|]. simpl_state.
    rewrite lookup_insert_eq. split; reflexivity.
  - reflexivity.
Qed.

Lemma read_last_dangling_append st lp l a w :
  lists st !! lp = Some l -> list_last l = Some a ->
  links st !! a = None -> a ∈ freed st ->
  head (calloc_plan st) <> Some false ->
  linked_list_append (Some lp) w st = Fault.
Proof.
  intros Hl Hlast Ha Hfreed Hplan. unfold linked_list_append.
  run link_new_ok.
  run read_last_ok. rewrite Hlast.
  unfold bind at 1. unfold write_next, bind, load_link. simpl_state.
  rewrite lookup_insert_ne.
  - by rewrite Ha.
  - intros E. apply (calloc_addr_fresh st). rewrite E. apply elem_of_union. by right.
Qed.

Lemma clear_loop ip lp s v0 cells :
  forall st l fuel,
    (length cells < fuel)%nat ->
    Z.of_nat (length cells) < 2 ^ 64 ->
    iters st !! ip = Some (Iter (Some s) (Some lp)) ->
    lists st !! lp = Some l -> list_first l = Some s ->
    list_size l = Z.of_nat (length cells) ->
    lseg (links st) (Some s) ((s, v0) :: cells) NULL ->
    NoDup (s :: cells.*1) ->
    exists st' l',
      while fuel
        (fun _ => iterator_has_next (Some ip))
        (fun _ =>
           do _ <- iterator_remove (Some ip);
           do _ <- iterator_reset (Some ip);
           do n <- read_size (Some lp);
           do _ <- write_size (Some lp) (to_size_t (n - 1));
           ret (Continue tt))
        tt st
      = Ok tt st' /\
      iters st' !! ip = Some (Iter (Some s) (Some lp)) /\
      lists st' !! lp = Some l' /\ list_first l' = Some s /\ list_size l' = 0 /\
      list_last l' = list_last l /\
      lseg (links st') (Some s) [(s, v0)] NULL.
Proof.
  induction cells as [|[a v] cells IH]; intros st l fuel Hfuel Hmax Hit Hl Hfirst Hsize Hseg Hnd;
    (destruct fuel as [|fuel]; [simpl in Hfuel; lia|]).
  - exists st, l. split.
    { pose proof Hseg as (_ & n & Hs & ->). cbn [while].
      run iterator_has_next_ok. reflexivity. }
    eauto 10.
  - destruct (lseg_remove_after _ _ _ _ 0%nat s v0 a v Hseg Hnd eq_refl eq_refl)
      as (n & Hs & Ha & Hne & Hseg').
    cbn [while].
    run iterator_has_next_ok. cbn [link_next].
    replace (negb (ptr_eqb (Some a) NULL)) with true by reflexivity. cbv iota.
    run iterator_remove_ok. cbn [link_value link_next].
    run iterator_reset_ok. cbn [iter_list].
    run read_size_ok.
    run write_size_ok.
    rewrite Hfirst, Hsize.
    rewrite to_size_t_id by (simpl length in *; lia).
    match goal with
    | |- context [while fuel _ _ tt ?st1] =>
        destruct (IH st1 (List (Some s) (list_last l) (Z.of_nat (length ((a, v) :: cells)) - 1)
                            (list_fun l)) fuel)
          as (st' & l' & Hrun & Hit' & Hl' & Hfirst' & Hsize' & Hlast' & Hseg'')
    end.
    + simpl in Hfuel. lia.
    + simpl length in Hmax. lia.
    + simpl_state. rewrite insert_id by done. exact Hit.
    + simpl_state. apply lookup_insert_eq.
    + reflexivity.
    + simpl. lia.
    + simpl_state. exact Hseg'.
    + apply NoDup_cons in Hnd as (Hs' & Hnd). rewrite fmap_cons in Hs', Hnd.
      apply not_elem_of_cons in Hs' as (_ & Hs'). apply NoDup_cons in Hnd as (_ & Hnd).
      by apply NoDup_cons.
    + exists st', l'. split; [exact Hrun|]. eauto 10.
Qed.

Lemma linked_list_clear_ok st lst s v0 cells fuel :
  list_rep st lst s v0 cells ->
  head (calloc_plan st) <> Some false ->
  (length cells < fuel)%nat ->
  Z.of_nat (length cells) < 2 ^ 64 ->
  exists st',
    linked_list_clear fuel lst st = Ok tt st' /\
    list_rep st' lst s v0 [] /\
    linked_list_is_empty lst st' = Ok true st' /\
    (tail_ok st lst s cells -> cells <> [] -> ~ tail_ok st' lst s []).
Proof.
  intros Hrep Hplan Hfuel Hmax.
  pose proof Hrep as ((lp & l & -> & Hl & Hfirst & Hsize) & Hseg & Hnd).
  unfold linked_list_clear, linked_list_is_empty, linked_list_size.
  run read_size_ok. rewrite Hsize.
  destruct cells as [|c cells].
  - exists st. split; [reflexivity|]. split; [done|]. split; [|done].
    run read_size_ok. by rewrite Hsize.
  - destruct (Z.eqb_spec (Z.of_nat (length (c :: cells))) 0) as [E|_]; [simpl in E; lia|].
    rewrite bind_ret. cbn [negb].
    run list_iterator_ok. rewrite Hfirst.
    match goal with
    | |- context [bind (while fuel _ _ tt) _ ?st1] =>
        destruct (clear_loop (calloc_addr st) lp s v0 (c :: cells) st1 l fuel)
          as (st' & l' & Hrun & Hit' & Hl' & Hfirst' & Hsize' & Hlast' & Hseg');
          [done|done|lookup|lookup|done|done|by simpl_state|done|]
    end.
    run Hrun.
    erewrite free_iter_ok by lookup.
    eexists. split; [reflexivity|]. split; [|split].
    + split; [|split].
      * exists lp, l'. by simpl_state.
      * by simpl_state.
      * apply NoDup_singleton.
    + run read_size_ok. by rewrite Hsize'.
    + intros (lp0 & l0 & E0 & Hl0 & Hlast) _ (lp1 & l1 & E1 & Hl1 & Hlast1).
      injection E0 as <-. injection E1 as <-. simpl_state.
      rewrite Hl in Hl0. injection Hl0 as <-. rewrite Hl' in Hl1. injection Hl1 as <-.
      rewrite Hlast', Hlast in Hlast1.
      by apply tail_sentinel_iff_empty in Hlast1.
Qed.

(** ** The scanning loops

    The loops of [linked_list_contains], [linked_list_all] and
    [linked_list_calculate_size] drive the iterator [ip] from the link [b]
    to the end of the chain. *)

Section ScanningLoops.

Variables (ip : positive) (lstp : ptr).

Lemma contains_loop lp l cmp v rest :
  forall st b vb fuel,
    (length rest < fuel)%nat ->
    iters st !! ip = Some (Iter (Some b) lstp) ->
    lseg (links st) (Some b) ((b, vb) :: rest) NULL ->
    lists st !! lp = Some l -> list_fun l = Some cmp ->
    exists st' it',
      while fuel
        (fun _ => iterator_has_next (Some ip))
        (fun result =>
           do current_value <- iterator_next (Some ip);
           do f <- read_fun (Some lp);
           do found <- call_eq f current_value v;
           if found then ret (Break true) else ret (Continue result))
        false st
      = Ok (existsb (fun x => cmp x v) rest.*2) st' /\
      links st' = links st /\ lists st' = lists st /\
      iters st' !! ip = Some it' /\
      calls st' = calls st ++
                  map (fun x => CallEq x v) (upto_first (fun x => cmp x v) rest.*2).
Proof.
  induction rest as [|[c vc] rest IH]; intros st b vb fuel Hfuel Hit Hseg Hl Hfun;
    (destruct fuel as [|fuel]; [simpl in Hfuel; lia|]);
    simpl in Hseg; destruct Hseg as (_ & n & Hb & Hrest); simpl in Hrest.
  - subst n. exists st. eexists. split.
    { cbn [while]. run iterator_has_next_ok. reflexivity. }
    simpl. rewrite app_nil_r. eauto.
  - destruct Hrest as (-> & nc & Hc & Hrest).
    cbn [while].
    run iterator_has_next_ok. cbn [link_next ptr_eqb negb].
    replace (negb (ptr_eqb (Some c) NULL)) with true by reflexivity. cbv iota.
    run iterator_next_ok. cbn [link_value iter_list].
    run read_fun_ok. rewrite Hfun.
    rewrite ?bind_assoc. erewrite bind_ok by apply call_eq_ok. cbv beta.
    cbn [fmap list_fmap existsb upto_first snd].
    destruct (cmp vc v) eqn:Heq.
    + rewrite bind_ret. cbv iota. unfold ret. eexists. eexists. split; [reflexivity|].
      simpl_state. rewrite lookup_insert_eq. eauto.
    + rewrite bind_ret. cbv iota.
      edestruct (IH (add_call (CallEq vc v)
                       (set_iters (insert ip (Iter (Some c) lstp)) st)) c vc fuel)
        as (st' & it' & Hrun & Hlinks & Hlists & Hit' & Hcalls).
      * simpl in Hfuel. lia.
      * simpl_state. apply lookup_insert_eq.
      * simpl_state. simpl. eauto.
      * exact Hl.
      * exact Hfun.
      * exists st', it'. split; [exact Hrun|]. simpl_state.
        rewrite Hcalls. simpl. rewrite <- app_assoc. eauto.
Qed.

Lemma all_loop_false {E : Type} (prop : predicate E) extra rest :
  forall st b vb fuel,
    (length rest < fuel)%nat ->
    iters st !! ip = Some (Iter (Some b) lstp) ->
    lseg (links st) (Some b) ((b, vb) :: rest) NULL ->
    exists st' it',
      while fuel
        (fun _ => iterator_has_next (Some ip))
        (fun result : bool =>
           do result' <- (if result
                          then do value <- iterator_current (Some ip);
                               call_predicate prop value extra
                          else ret false);
           do _ <- iterator_next (Some ip);
           ret (Continue result'))
        false st
      = Ok false st' /\
      links st' = links st /\ lists st' = lists st /\
      iters st' !! ip = Some it' /\
      calls st' = calls st.
Proof.
  induction rest as [|[c vc] rest IH]; intros st b vb fuel Hfuel Hit Hseg;
    (destruct fuel as [|fuel]; [simpl in Hfuel; lia|]);
    simpl in Hseg; destruct Hseg as (_ & n & Hb & Hrest); simpl in Hrest.
  - subst n. exists st. eexists. split.
    { cbn [while]. run iterator_has_next_ok. reflexivity. }
    eauto.
  - destruct Hrest as (-> & nc & Hc & Hrest).
    cbn [while].
    run iterator_has_next_ok. cbn [link_next].
    replace (negb (ptr_eqb (Some c) NULL)) with true by reflexivity. cbv iota.
    run iterator_next_ok.
    edestruct (IH (set_iters (insert ip (Iter (Some c) lstp)) st) c vc fuel)
      as (st' & it' & Hrun & Hlinks & Hlists & Hit' & Hcalls).
    + simpl in Hfuel. lia.
    + simpl_state. apply lookup_insert_eq.
    + simpl_state. simpl. eauto.
    + exists st', it'. split; [exact Hrun|]. simpl_state. eauto.
Qed.

Lemma all_loop_true {E : Type} (p : elem_t -> E -> bool) extra rest :
  forall st b vb fuel,
    (length rest < fuel)%nat ->
    iters st !! ip = Some (Iter (Some b) lstp) ->
    lseg (links st) (Some b) ((b, vb) :: rest) NULL ->
    exists st' it',
      while fuel
        (fun _ => iterator_has_next (Some ip))
        (fun result : bool =>
           do result' <- (if result
                          then do value <- iterator_current (Some ip);
                               call_predicate (Some p) value extra
                          else ret false);
           do _ <- iterator_next (Some ip);
           ret (Continue result'))
        true st
      = Ok (forallb (fun x => p x extra) rest.*2) st' /\
      links st' = links st /\ lists st' = lists st /\
      iters st' !! ip = Some it' /\
      calls st' = calls st ++
                  map CallPredicate (upto_first (fun x => negb (p x extra)) rest.*2).
Proof.
  induction rest as [|[c vc] rest IH]; intros st b vb fuel Hfuel Hit Hseg;
    (destruct fuel as [|fuel]; [simpl in Hfuel; lia|]);
    pose proof Hseg as Hseg';
    simpl in Hseg; destruct Hseg as (_ & n & Hb & Hrest); simpl in Hrest.
  - subst n. exists st. eexists. split.
    { cbn [while]. run iterator_has_next_ok. reflexivity. }
    simpl. rewrite app_nil_r. eauto.
  - destruct Hrest as (-> & nc & Hc & Hrest).
    cbn [while].
    run iterator_has_next_ok. cbn [link_next].
    replace (negb (ptr_eqb (Some c) NULL)) with true by reflexivity. cbv iota.
    run iterator_current_ok. cbn [link_value].
    rewrite ?bind_assoc. erewrite bind_ok by apply call_predicate_ok. cbv beta.
    run iterator_next_ok.
    cbn [fmap list_fmap forallb upto_first snd].
    destruct (p vc extra) eqn:Hp; cbn [negb andb].
    + edestruct (IH (set_iters (insert ip (Iter (Some c) lstp))
                       (add_call (CallPredicate vc) st)) c vc fuel)
        as (st' & it' & Hrun & Hlinks & Hlists & Hit' & Hcalls).
      * simpl in Hfuel. lia.
      * simpl_state. apply lookup_insert_eq.
      * simpl_state. simpl. eauto.
      * exists st', it'. split; [exact Hrun|]. simpl_state.
        rewrite Hcalls. simpl. rewrite <- app_assoc. eauto.
    + edestruct (all_loop_false (Some p) extra rest
                   (set_iters (insert ip (Iter (Some c) lstp))
                      (add_call (CallPredicate vc) st)) c vc fuel)
        as (st' & it' & Hrun & Hlinks & Hlists & Hit' & Hcalls).
      * simpl in Hfuel. lia.
      * simpl_state. apply lookup_insert_eq.
      * simpl_state. simpl. eauto.
      * exists st', it'. split; [exact Hrun|]. simpl_state. eauto.
Qed.

Lemma calculate_size_loop rest :
  forall st b vb fuel acc,
    (length rest < fuel)%nat ->
    0 <= acc -> acc + Z.of_nat (length rest) < 2 ^ 64 ->
    iters st !! ip = Some (Iter (Some b) lstp) ->
    lseg (links st) (Some b) ((b, vb) :: rest) NULL ->
    exists st' it',
      while fuel
        (fun _ => iterator_has_next (Some ip))
        (fun size =>
           do _ <- iterator_next (Some ip);
           ret (Continue (to_size_t (size + 1))))
        acc st
      = Ok (acc + Z.of_nat (length rest)) st' /\
      links st' = links st /\ lists st' = lists st /\
      iters st' !! ip = Some it' /\ calls st' = calls st.
Proof.
  induction rest as [|[c vc] rest IH]; intros st b vb fuel acc Hfuel Hacc Hmax Hit Hseg;
    (destruct fuel as [|fuel]; [simpl in Hfuel; lia|]);
    simpl in Hseg; destruct Hseg as (_ & n & Hb & Hrest); simpl in Hrest.
  - subst n. exists st. eexists. split.
    { cbn [while]. run iterator_has_next_ok. simpl. unfold ret. f_equal. lia. }
    eauto.
  - destruct Hrest as (-> & nc & Hc & Hrest).
    cbn [while].
    run iterator_has_next_ok. cbn [link_next].
    replace (negb (ptr_eqb (Some c) NULL)) with true by reflexivity. cbv iota.
    run iterator_next_ok. cbn [iter_list].
    rewrite to_size_t_id by (simpl length in Hmax; lia).
    edestruct (IH (set_iters (insert ip (Iter (Some c) lstp)) st) c vc fuel (acc + 1))
      as (st' & it' & Hrun & Hlinks & Hlists & Hit' & Hcalls).
    + simpl in Hfuel. lia.
    + lia.
    + simpl length in Hmax. lia.
    + simpl_state. apply lookup_insert_eq.
    + simpl_state. simpl. eauto.
    + exists st', it'. split.
      { rewrite Hrun. f_equal. simpl length. lia. }
      simpl_state. eauto.
Qed.

End ScanningLoops.

(** [upto_first] stops at the first element that satisfies the test, and
    goes through the whole list when there is none. *)
Lemma upto_first_stop {A : Type} (stop : A -> bool) (pre post : list A) (x : A) :
  Forall (fun y => stop y = false) pre -> stop x = true ->
  upto_first stop (pre ++ x :: post) = pre ++ [x].
Proof.
  intros Hpre Hx. induction Hpre as [|y pre Hy Hpre IH]; simpl.
  - by rewrite Hx.
  - by rewrite Hy, IH.
Qed.

Lemma upto_first_all {A : Type} (stop : A -> bool) (xs : list A) :
  Forall (fun y => stop y = false) xs -> upto_first stop xs = xs.
Proof.
  intros Hxs. induction Hxs as [|y xs Hy Hxs IH]; simpl; [done|].
  by rewrite Hy, IH.
Qed.

Lemma linked_list_calculate_size_count st lp l s v0 cells fuel :
  lists st !! lp = Some l -> list_first l = Some s ->
  lseg (links st) (Some s) ((s, v0) :: cells) NULL ->
  head (calloc_plan st) <> Some false ->
  (length cells < fuel)%nat ->
  Z.of_nat (length cells) < 2 ^ 64 ->
  exists st',
    linked_list_calculate_size fuel (Some lp) st = Ok (Z.of_nat (length cells)) st' /\
    links st' = links st /\ lists st' = lists st.
Proof.
  intros Hl Hfirst Hseg Hplan Hfuel Hmax.
  unfold linked_list_calculate_size.
  run list_iterator_ok. rewrite Hfirst.
  set (st1 := set_iters _ _).
  destruct (calculate_size_loop (calloc_addr st) (Some lp) cells st1 s v0 fuel 0) as
    (st' & it' & Hrun & Hlinks & Hlists & Hit' & Hcalls);
    [exact Hfuel|lia|lia| | |].
  { subst st1. simpl_state. apply lookup_insert_eq. }
  { subst st1. simpl_state. exact Hseg. }
  run Hrun.
  run free_iter_ok.
  eexists. split; [reflexivity|]. simpl_state. subst st1. simpl_state. done.
Qed.

Lemma linked_list_calculate_size_ok st lst s v0 cells fuel :
  list_rep st lst s v0 cells ->
  head (calloc_plan st) <> Some false ->
  (length cells < fuel)%nat ->
  Z.of_nat (length cells) < 2 ^ 64 ->
  exists st',
    linked_list_calculate_size fuel lst st = Ok (Z.of_nat (length cells)) st' /\
    linked_list_size lst st' = Ok (Z.of_nat (length cells)) st' /\
    list_rep st' lst s v0 cells.
Proof.
  intros Hrep Hplan Hfuel Hmax.
  pose proof Hrep as ((lp & l & -> & Hl & Hfirst & Hsize) & Hseg & Hnd).
  destruct (linked_list_calculate_size_count st lp l s v0 cells fuel)
    as (st' & Hrun & Hlinks & Hlists); try done.
  exists st'. split; [done|]. split.
  - unfold linked_list_size. erewrite read_size_ok; [by rewrite Hsize|].
    by rewrite Hlists.
  - by eapply list_rep_same.
Qed.

Lemma apply_to_all_loop {E : Type} (g : elem_t -> E -> elem_t) extra nodes :
  forall st p fuel,
    (length nodes < fuel)%nat ->
    lseg (links st) p nodes NULL ->
    NoDup nodes.*1 ->
    exists st',
      while fuel
        (fun cursor => ret (negb (ptr_eqb cursor NULL)))
        (fun cursor =>
           do _ <- call_apply (Some g) cursor extra;
           do next <- read_next cursor;
           ret (Continue next))
        p st
      = Ok NULL st' /\
      lseg (links st') p (prod_map id (fun x => g x extra) <$> nodes) NULL /\
      (forall b, b ∉ nodes.*1 -> links st' !! b = links st !! b) /\
      lists st' = lists st /\
      calls st' = calls st ++ map CallApply nodes.*2.
Proof.
  induction nodes as [|[a v] nodes IH]; intros st p fuel Hfuel Hseg Hnd;
    (destruct fuel as [|fuel]; [simpl in Hfuel; lia|]); simpl in Hseg.
  - subst p. exists st. split; [reflexivity|]. simpl. rewrite app_nil_r. eauto.
  - destruct Hseg as (-> & n & Ha & Hseg).
    rewrite fmap_cons in Hnd. apply NoDup_cons in Hnd as (Hnotin & Hnd). simpl in Hnotin.
    cbn [while]. rewrite bind_ret.
    replace (negb (ptr_eqb (Some a) NULL)) with true by reflexivity. cbv iota.
    run (@call_apply_ok E). cbn [link_value link_next].
    run read_next_ok. cbn [link_next].
    edestruct (IH (set_links (insert a (Link (g v extra) n)) (add_call (CallApply v) st))
                 n fuel)
      as (st' & Hrun & Hseg' & Hframe & Hlists & Hcalls).
    + simpl in Hfuel. lia.
    + simpl_state. by apply lseg_insert.
    + done.
    + exists st'. split; [exact Hrun|]. split; [|split; [|split]].
      * simpl. split; [done|]. exists n. split; [|done].
        rewrite Hframe by done. simpl_state. apply lookup_insert_eq.
      * intros b Hb. rewrite fmap_cons in Hb. apply not_elem_of_cons in Hb as (Hne & Hb).
        rewrite Hframe by done. simpl_state. by rewrite lookup_insert_ne.
      * by rewrite Hlists.
      * rewrite Hcalls. simpl_state. simpl. by rewrite <- app_assoc.
Qed.

(** ** The example states *)

Lemma state_123_rep :
  list_rep state_123 (Some 1%positive) 2 calloc_elem
    [(3%positive, int_elem 1); (4%positive, int_elem 2); (5%positive, int_elem 3)].
Proof. apply list_rep_check_sound. vm_compute. reflexivity. Defined.

Lemma state_123_tail :
  tail_ok state_123 (Some 1%positive) 2
    [(3%positive, int_elem 1); (4%positive, int_elem 2); (5%positive, int_elem 3)].
Proof. apply tail_ok_check_sound. vm_compute. reflexivity. Defined.

Lemma state_123_calloc : calloc_succeeds state_123.
Proof.
  unfold calloc_succeeds.
  replace (calloc_plan state_123) with (@nil bool) by (vm_compute; reflexivity).
  constructor.
Defined.

Lemma state_123_next_calloc : head (calloc_plan state_123) <> Some false.
Proof.
  replace (calloc_plan state_123) with (@nil bool) by (vm_compute; reflexivity).
  simpl. discriminate.
Defined.

Lemma state_123_iterator_at :
  iterator_at state_123_iterator (Some 6%positive) 2 (Link calloc_elem (Some 3%positive)).
Proof.
  exists 6%positive, (Iter (Some 2%positive) (Some 1%positive)).
  split; [reflexivity|]. split; [vm_compute; reflexivity|].
  split; [reflexivity|vm_compute; reflexivity].
Defined.

Lemma state_123_no_memory_rep :
  list_rep state_123_no_memory (Some 1%positive) 2 calloc_elem
    [(3%positive, int_elem 1); (4%positive, int_elem 2); (5%positive, int_elem 3)].
Proof. apply list_rep_check_sound. vm_compute. reflexivity. Defined.

(** * The claims of the specification *)

(** C1. The tail of a list is the sentinel exactly when the list is empty,
    and otherwise the last data link, after every sequence of operations.
    [linked_list_remove] does not keep this.  On a list in which the
    invariant holds, removing the last element returns its value and leaves
    the shorter list in order, but [last] still holds the address of the link
    that was freed: the invariant is lost (when no element is left the tail
    is not the sentinel), and every later [linked_list_append] goes through
    the dangling pointer. *)
Theorem remove_of_last_element_leaves_tail_dangling st lst s v0 cells a v :
  list_rep st lst s v0 (cells ++ [(a, v)]) ->
  tail_ok st lst s (cells ++ [(a, v)]) ->
  calloc_succeeds st ->
  Z.of_nat (length cells) < INT_MAX ->
  exists st',
    linked_list_remove lst (Z.of_nat (length cells)) st = Ok v st' /\
    list_rep st' lst s v0 cells /\
    ~ tail_ok st' lst s cells /\
    read_last lst st' = Ok (Some a) st' /\
    links st' !! a = None /\
    forall w, linked_list_append lst w st' = Fault.
Proof.
  intros Hrep (lp0 & l0 & E0 & Hl0 & Hlast) Hplan Hmax.
  destruct (linked_list_remove_ok st lst s v0 (cells ++ [(a, v)]) (length cells) a v Hrep)
    as (st' & Hrun & Hrep' & Ha & Hfreed & (lp & l & l' & -> & Hl & Hl' & Hlast') & Hplan').
  { by apply calloc_succeeds_head. }
  { rewrite length_app. simpl. unfold INT_MAX in *. lia. }
  { rewrite lookup_app_r by lia. by rewrite Nat.sub_diag. }
  injection E0 as <-. rewrite Hl in Hl0. injection Hl0 as <-.
  rewrite (delete_middle cells [] (a, v)), app_nil_r in Hrep'.
  assert (list_last l' = Some a) as Hdangling.
  { rewrite Hlast', Hlast, fmap_app. exact (last_snoc a (s :: cells.*1)). }
  exists st'. split; [done|]. split; [done|]. split; [|split; [|split]].
  - intros (lp1 & l1 & E1 & Hl1 & Hlast1).
    injection E1 as <-. rewrite Hl' in Hl1. injection Hl1 as <-.
    rewrite Hdangling in Hlast1. symmetry in Hlast1.
    destruct Hrep as (_ & _ & Hnd). rewrite fmap_app in Hnd.
    apply (NoDup_app (s :: cells.*1) [a]) in Hnd as (_ & Hnd & _).
    apply last_Some in Hlast1 as (pre & Hpre).
    apply (Hnd a); [|by apply list_elem_of_singleton].
    rewrite Hpre. apply elem_of_app. right. by apply list_elem_of_singleton.
  - erewrite read_last_ok by exact Hl'. by rewrite Hdangling.
  - done.
  - intros w. eapply read_last_dangling_append; try done.
    apply calloc_succeeds_head. by eapply calloc_succeeds_step.
Qed.

Lemma remove_of_last_element_leaves_tail_dangling_witness :
  exists st',
    linked_list_remove (Some 1%positive) 0 state_1 = Ok (int_elem 1) st' /\
    list_rep st' (Some 1%positive) 2 calloc_elem [] /\
    ~ tail_ok st' (Some 1%positive) 2 [] /\
    read_last (Some 1%positive) st' = Ok (Some 3%positive) st' /\
    links st' !! 3%positive = None /\
    forall w, linked_list_append (Some 1%positive) w st' = Fault.
Proof.
  apply (remove_of_last_element_leaves_tail_dangling state_1 (Some 1%positive) 2%positive
           calloc_elem [] 3%positive (int_elem 1)).
  - apply list_rep_check_sound. vm_compute. reflexivity.
  - apply tail_ok_check_sound. vm_compute. reflexivity.
  - unfold calloc_succeeds.
    replace (calloc_plan state_1) with (@nil bool) by (vm_compute; reflexivity).
    constructor.
  - vm_compute. reflexivity.
Defined.

(** C2. [remove] with an index that is out of range returns the no-value
    result and leaves the list as it is, also on an empty list.  On an empty
    list the code does not: [size - 1] is -1, converted to [size_t] it is the
    largest bound there is, no index from 0 up is rejected, and the traversal
    dereferences the [NULL] successor of the sentinel. *)
Theorem remove_on_empty_list_faults st lst s v0 index :
  list_rep st lst s v0 [] ->
  head (calloc_plan st) <> Some false ->
  0 <= index <= INT_MAX ->
  linked_list_remove lst index st = Fault.
Proof.
  intros ((lp & l & -> & Hl & Hfirst & Hsize) & Hseg & _) Hplan Hindex.
  simpl in Hseg. destruct Hseg as (_ & n & Hs & ->).
  unfold linked_list_remove, linked_list_size.
  run read_size_ok. rewrite Hsize. cbn [length]. change (Z.of_nat 0) with 0.
  rewrite upper_limit_empty.
  rewrite adjust_index_valid by (unfold INT_MAX in *; lia).
  destruct (Z.eqb_spec index (-1)) as [?|_]; [lia|].
  rewrite to_size_t_id by (unfold INT_MAX in *; lia).
  run list_iterator_ok. rewrite Hfirst.
  destruct (Z.to_nat index) as [|k].
  - cbn [for_loop]. norm_bind. unfold iterator_remove.
    run read_current_ok. cbn [iter_current].
    run read_next_ok. reflexivity.
  - norm_bind. unfold bind at 1.
    erewrite for_loop_next_end; [reflexivity| lookup | reflexivity | lookup | reflexivity].
Qed.

Lemma remove_on_empty_list_faults_witness :
  linked_list_remove (Some 1%positive) 0 state_empty = Fault.
Proof.
  apply (remove_on_empty_list_faults state_empty (Some 1%positive) 2%positive calloc_elem 0).
  - apply list_rep_check_sound. vm_compute. reflexivity.
  - replace (calloc_plan state_empty) with (@nil bool) by (vm_compute; reflexivity).
    simpl. discriminate.
  - vm_compute. split; discriminate.
Defined.

(** C3. When the allocation of the new link fails, the mutation does
    nothing: contents and cached size stay as they were.  [linked_list_insert]
    with an index strictly inside the list does not keep the size: the links
    are unchanged but the cached size grows by one. *)
Theorem insert_counts_a_link_it_could_not_allocate st lst s v0 cells i v plan :
  list_rep st lst s v0 cells ->
  (0 < i < length cells)%nat ->
  Z.of_nat (length cells) < INT_MAX ->
  calloc_plan st = true :: false :: plan ->
  exists st',
    linked_list_insert lst (Z.of_nat i) v st = Ok tt st' /\
    links st' = links st /\
    linked_list_size lst st = Ok (Z.of_nat (length cells)) st /\
    linked_list_size lst st' = Ok (Z.of_nat (length cells) + 1) st'.
Proof.
  intros ((lp & l & -> & Hl & Hfirst & Hsize) & Hseg & Hnd) Hi Hmax Hplan.
  destruct (insert_alloc_failure st lp l s v0 cells i v plan)
    as (st' & Hrun & Hlinks & Hlists & _); try done.
  exists st'. split; [done|]. split; [done|]. unfold linked_list_size. split.
  - erewrite read_size_ok by exact Hl. by rewrite Hsize.
  - erewrite read_size_ok by (rewrite Hlists; apply lookup_insert_eq). reflexivity.
Qed.

Lemma insert_counts_a_link_it_could_not_allocate_witness :
  exists st',
    linked_list_insert (Some 1%positive) 1 (int_elem 7) state_123_no_memory = Ok tt st' /\
    links st' = links state_123_no_memory /\
    linked_list_size (Some 1%positive) state_123_no_memory = Ok 3 state_123_no_memory /\
    linked_list_size (Some 1%positive) st' = Ok 4 st'.
Proof.
  apply (insert_counts_a_link_it_could_not_allocate state_123_no_memory (Some 1%positive)
           2%positive calloc_elem
           [(3%positive, int_elem 1); (4%positive, int_elem 2); (5%positive, int_elem 3)]
           1%nat (int_elem 7) []).
  - exact state_123_no_memory_rep.
  - simpl. lia.
  - vm_compute. reflexivity.
  - reflexivity.
Defined.

(** C4. After every completed mutating operation the cached size is the
    number of data links, so [linked_list_calculate_size] agrees with
    [linked_list_size].  After an insertion strictly inside the list whose
    link cannot be allocated, the operation has completed, the cached size is
    one more than the number of data links, and
    [linked_list_calculate_size] still counts the links. *)
Theorem cached_size_differs_from_counted_size st lst s v0 cells i v plan fuel :
  list_rep st lst s v0 cells ->
  (0 < i < length cells)%nat ->
  Z.of_nat (length cells) < INT_MAX ->
  calloc_plan st = true :: false :: plan ->
  head plan <> Some false ->
  (length cells < fuel)%nat ->
  exists st1 st2,
    linked_list_insert lst (Z.of_nat i) v st = Ok tt st1 /\
    linked_list_size lst st1 = Ok (Z.of_nat (length cells) + 1) st1 /\
    linked_list_calculate_size fuel lst st1 = Ok (Z.of_nat (length cells)) st2.
Proof.
  intros ((lp & l & -> & Hl & Hfirst & Hsize) & Hseg & Hnd) Hi Hmax Hplan Hplan' Hfuel.
  destruct (insert_alloc_failure st lp l s v0 cells i v plan)
    as (st1 & Hrun & Hlinks & Hlists & Hplan1); try done.
  destruct (linked_list_calculate_size_count st1 lp
              (List (list_first l) (list_last l) (Z.of_nat (length cells) + 1) (list_fun l))
              s v0 cells fuel)
    as (st2 & Hcount & _); try done.
  - rewrite Hlists. apply lookup_insert_eq.
  - by rewrite Hlinks.
  - by rewrite Hplan1.
  - unfold INT_MAX in *. lia.
  - exists st1, st2. split; [done|]. split; [|done].
    unfold linked_list_size.
    erewrite read_size_ok by (rewrite Hlists; apply lookup_insert_eq). reflexivity.
Qed.

Lemma cached_size_differs_from_counted_size_witness :
  exists st1 st2,
    linked_list_insert (Some 1%positive) 1 (int_elem 7) state_123_no_memory = Ok tt st1 /\
    linked_list_size (Some 1%positive) st1 = Ok 4 st1 /\
    linked_list_calculate_size 4 (Some 1%positive) st1 = Ok 3 st2.
Proof.
  apply (cached_size_differs_from_counted_size state_123_no_memory (Some 1%positive)
           2%positive calloc_elem
           [(3%positive, int_elem 1); (4%positive, int_elem 2); (5%positive, int_elem 3)]
           1%nat (int_elem 7) [] 4%nat).
  - exact state_123_no_memory_rep.
  - simpl. lia.
  - vm_compute. reflexivity.
  - reflexivity.
  - simpl. discriminate.
  - simpl. lia.
Defined.

(** C5. On every list that satisfies the data model, [linked_list_all]
    returns whether the predicate holds of every stored element, and applies
    the predicate, front to back, to the elements up to and including the
    first one that fails and to no element after it; on a list without a
    failing element (the empty list among them) it returns true. *)
Theorem all_short_circuits {E : Type} st lst s v0 cells (p : elem_t -> E -> bool) extra fuel :
  list_rep st lst s v0 cells ->
  head (calloc_plan st) <> Some false ->
  (length cells < fuel)%nat ->
  exists st',
    linked_list_all fuel lst (Some p) extra st =
      Ok (forallb (fun x => p x extra) cells.*2) st' /\
    calls st' = calls st ++
                map CallPredicate (upto_first (fun x => negb (p x extra)) cells.*2) /\
    list_rep st' lst s v0 cells.
Proof.
  intros Hrep Hplan Hfuel.
  pose proof Hrep as ((lp & l & -> & Hl & Hfirst & Hsize) & Hseg & Hnd).
  unfold linked_list_all.
  run list_iterator_ok. rewrite Hfirst.
  set (st1 := set_iters _ _).
  destruct (all_loop_true (calloc_addr st) (Some lp) p extra cells st1 s v0 fuel) as
    (st' & it' & Hrun & Hlinks & Hlists & Hit' & Hcalls);
    [exact Hfuel| | |].
  { subst st1. simpl_state. apply lookup_insert_eq. }
  { subst st1. simpl_state. exact Hseg. }
  run Hrun.
  run free_iter_ok.
  eexists. split; [reflexivity|]. simpl_state. split; [exact Hcalls|].
  eapply list_rep_same; [| |exact Hrep]; simpl_state; subst st1; simpl_state; congruence.
Qed.

Lemma all_short_circuits_witness :
  exists st',
    linked_list_all 4 (Some 1%positive) (Some int_less) 2 state_123 = Ok false st' /\
    calls st' = calls state_123 ++ [CallPredicate (int_elem 1); CallPredicate (int_elem 2)] /\
    list_rep st' (Some 1%positive) 2 calloc_elem
      [(3%positive, int_elem 1); (4%positive, int_elem 2); (5%positive, int_elem 3)].
Proof.
  apply (all_short_circuits state_123 (Some 1%positive) 2%positive calloc_elem
           [(3%positive, int_elem 1); (4%positive, int_elem 2); (5%positive, int_elem 3)]
           int_less 2 4%nat).
  - exact state_123_rep.
  - exact state_123_next_calloc.
  - simpl. lia.
Defined.

(** C6. [linked_list_apply_to_all] calls the function once per stored
    value, in order, and on nothing else.  The loop of the code starts at the
    sentinel: the function is called once more than there are stored values,
    first on the element of the sentinel, which it overwrites as well. *)
Theorem apply_to_all_calls_on_sentinel {E : Type} st lst s v0 cells
    (g : elem_t -> E -> elem_t) extra fuel :
  list_rep st lst s v0 cells ->
  (S (length cells) < fuel)%nat ->
  exists st',
    linked_list_apply_to_all fuel lst (Some g) extra st = Ok tt st' /\
    calls st' = calls st ++ CallApply v0 :: map CallApply cells.*2 /\
    list_rep st' lst s (g v0 extra) (prod_map id (fun x => g x extra) <$> cells).
Proof.
  intros ((lp & l & -> & Hl & Hfirst & Hsize) & Hseg & Hnd) Hfuel.
  destruct (apply_to_all_loop g extra ((s, v0) :: cells) st (Some s) fuel)
    as (st' & Hrun & Hseg' & Hframe & Hlists & Hcalls); [simpl; lia|done|done|].
  exists st'. split; [|split].
  - unfold linked_list_apply_to_all.
    run read_first_ok. rewrite Hfirst.
    run Hrun. reflexivity.
  - exact Hcalls.
  - split; [|split].
    + exists lp, l. rewrite Hlists, length_fmap. done.
    + exact Hseg'.
    + rewrite <- list_fmap_compose.
      replace (fst ∘ prod_map id (fun x => g x extra)) with (@fst positive elem_t); [done|].
      reflexivity.
Qed.

Lemma apply_to_all_calls_on_sentinel_witness :
  exists st',
    linked_list_apply_to_all 5 (Some 1%positive) (Some set_value) (int_elem 4) state_123
      = Ok tt st' /\
    calls st' = calls state_123 ++
                [CallApply calloc_elem; CallApply (int_elem 1); CallApply (int_elem 2);
                 CallApply (int_elem 3)] /\
    list_rep st' (Some 1%positive) 2 (int_elem 4)
      [(3%positive, int_elem 4); (4%positive, int_elem 4); (5%positive, int_elem 4)].
Proof.
  apply (apply_to_all_calls_on_sentinel state_123 (Some 1%positive) 2%positive calloc_elem
           [(3%positive, int_elem 1); (4%positive, int_elem 2); (5%positive, int_elem 3)]
           set_value (int_elem 4) 5%nat).
  - exact state_123_rep.
  - simpl. lia.
Defined.

(** On a list that is in order, [linked_list_insert(L, i, v)] followed by
    [linked_list_get(L, i)] returns [v] for every index [i] from 0 to the
    size of the list, the allocations succeeding.  The tail has to be in
    order only where the code goes through it: for [i] equal to the size of a
    list that is not empty. *)
Lemma insert_then_get st lst s v0 cells i v :
  list_rep st lst s v0 cells ->
  (i = Z.of_nat (length cells) -> i <> 0 -> tail_ok st lst s cells) ->
  calloc_succeeds st ->
  Z.of_nat (length cells) < INT_MAX ->
  0 <= i <= Z.of_nat (length cells) ->
  exists st1 st2,
    linked_list_insert lst i v st = Ok tt st1 /\
    linked_list_get lst i st1 = Ok v st2.
Proof.
  intros Hrep Htail Hplan Hmax Hi.
  rewrite <- (Z2Nat.id i) by lia.
  destruct (linked_list_insert_ok st lst s v0 cells (Z.to_nat i) v Hrep)
    as (st1 & new & Hins & Hrep1 & _ & Hplan1); [|done|lia|done|].
  { intros Hend Hne. apply Htail; lia. }
  destruct (linked_list_get_ok st1 lst s v0 _ (Z.to_nat i) new v Hrep1)
    as (st2 & Hget & _).
  - by apply calloc_succeeds_head.
  - rewrite length_app. simpl. rewrite length_take, length_drop. lia.
  - apply lookup_insert_at. lia.
  - eauto.
Qed.

(** C7. [linked_list_insert(L, i, v)] followed by [linked_list_get(L, i)]
    returns [v], for every list and every index [i] from 0 to the size of the
    list.  The code does not do so on the lists [linked_list_remove] leaves
    behind.  After the last element of a list was removed, [last] still holds
    the address of the freed link (the defect of C1); when elements are
    left, the index [size] sends [linked_list_insert] to
    [linked_list_append], which writes through the dangling pointer: the
    insertion does not complete and no [linked_list_get] returns [v]. *)
Theorem insert_at_size_after_remove_faults st lst s v0 cells a v w :
  list_rep st lst s v0 (cells ++ [(a, v)]) ->
  tail_ok st lst s (cells ++ [(a, v)]) ->
  cells <> [] ->
  calloc_succeeds st ->
  Z.of_nat (length cells) < INT_MAX ->
  exists st',
    linked_list_remove lst (Z.of_nat (length cells)) st = Ok v st' /\
    list_rep st' lst s v0 cells /\
    linked_list_size lst st' = Ok (Z.of_nat (length cells)) st' /\
    linked_list_insert lst (Z.of_nat (length cells)) w st' = Fault /\
    (do _ <- linked_list_insert lst (Z.of_nat (length cells)) w;
     linked_list_get lst (Z.of_nat (length cells))) st' = Fault.
Proof.
  intros Hrep (lp0 & l0 & E0 & Hl0 & Hlast) Hne Hplan Hmax.
  destruct (linked_list_remove_ok st lst s v0 (cells ++ [(a, v)]) (length cells) a v Hrep)
    as (st' & Hrun & Hrep' & Ha & Hfreed & (lp & l & l' & -> & Hl & Hl' & Hlast') & Hplan').
  { by apply calloc_succeeds_head. }
  { rewrite length_app. simpl. unfold INT_MAX in *. lia. }
  { rewrite lookup_app_r by lia. by rewrite Nat.sub_diag. }
  injection E0 as <-. rewrite Hl in Hl0. injection Hl0 as <-.
  rewrite (delete_middle cells [] (a, v)), app_nil_r in Hrep'.
  assert (list_last l' = Some a) as Hdangling.
  { rewrite Hlast', Hlast, fmap_app. exact (last_snoc a (s :: cells.*1)). }
  pose proof Hrep' as ((lp1 & l1 & E1 & Hl1 & Hfirst & Hsize) & _).
  injection E1 as <-. rewrite Hl' in Hl1. injection Hl1 as <-.
  assert (linked_list_insert (Some lp) (Z.of_nat (length cells)) w st' = Fault) as Hinsert.
  { unfold linked_list_insert, linked_list_size.
    run read_size_ok. rewrite Hsize.
    rewrite adjust_index_valid by (unfold INT_MAX in *; lia).
    destruct (Z.eqb_spec (Z.of_nat (length cells)) (-1)) as [?|_]; [lia|].
    rewrite to_size_t_id by (unfold INT_MAX in *; lia).
    destruct (Z.eqb_spec (Z.of_nat (length cells)) 0) as [E|_].
    { destruct cells; [done|simpl in E; lia]. }
    rewrite Z.eqb_refl.
    eapply read_last_dangling_append; try done.
    rewrite Hplan'.
    exact (calloc_succeeds_head _
             (calloc_succeeds_step st (set_calloc_plan (tail (calloc_plan st)) st)
                Hplan eq_refl)). }
  exists st'. split; [done|]. split; [done|]. split; [|split; [done|]].
  - unfold linked_list_size. erewrite read_size_ok by done. by rewrite Hsize.
  - unfold bind. by rewrite Hinsert.
Qed.

Lemma insert_at_size_after_remove_faults_witness :
  exists st',
    linked_list_remove (Some 1%positive) 2 state_123 = Ok (int_elem 3) st' /\
    list_rep st' (Some 1%positive) 2 calloc_elem
      [(3%positive, int_elem 1); (4%positive, int_elem 2)] /\
    linked_list_size (Some 1%positive) st' = Ok 2 st' /\
    linked_list_insert (Some 1%positive) 2 (int_elem 7) st' = Fault /\
    (do _ <- linked_list_insert (Some 1%positive) 2 (int_elem 7);
     linked_list_get (Some 1%positive) 2) st' = Fault.
Proof.
  apply (insert_at_size_after_remove_faults state_123 (Some 1%positive) 2%positive calloc_elem
           [(3%positive, int_elem 1); (4%positive, int_elem 2)] 5%positive (int_elem 3)
           (int_elem 7)).
  - exact state_123_rep.
  - exact state_123_tail.
  - discriminate.
  - exact state_123_calloc.
  - vm_compute. reflexivity.
Defined.

(** C8. For every iterator whose cursor is a live link, after
    [iterator_insert(iter, v)] (its allocation succeeding) the cursor has not
    moved, [iterator_has_next] is true and [iterator_next] returns [v]. *)
Theorem iterator_insert_then_next st iter a k v :
  iterator_at st iter a k ->
  head (calloc_plan st) <> Some false ->
  exists st1 st2,
    iterator_insert iter v st = Ok tt st1 /\
    read_current iter st = Ok (Some a) st /\
    read_current iter st1 = Ok (Some a) st1 /\
    iterator_has_next iter st1 = Ok true st1 /\
    iterator_next iter st1 = Ok v st2.
Proof.
  intros (ip & it & -> & Hit & Hc & Ha) Hplan.
  pose proof (calloc_addr_links st) as Hnew.
  assert (a <> calloc_addr st) as Hne by (intros E; rewrite <- E in Hnew; congruence).
  eexists. eexists. split; [by eapply iterator_insert_ok|].
  split; [rewrite <- Hc; by apply read_current_ok|].
  split; [rewrite <- Hc; by apply read_current_ok|].
  split.
  - erewrite iterator_has_next_ok; [| lookup | exact Hc | lookup ]. reflexivity.
  - erewrite iterator_next_ok;
      [ | lookup | exact Hc | lookup | reflexivity
        | simpl_state; rewrite lookup_insert_ne by done; apply lookup_insert_eq ].
    reflexivity.
Qed.

Lemma iterator_insert_then_next_witness :
  exists st1 st2,
    iterator_insert (Some 6%positive) (int_elem 7) state_123_iterator = Ok tt st1 /\
    read_current (Some 6%positive) state_123_iterator = Ok (Some 2%positive) state_123_iterator /\
    read_current (Some 6%positive) st1 = Ok (Some 2%positive) st1 /\
    iterator_has_next (Some 6%positive) st1 = Ok true st1 /\
    iterator_next (Some 6%positive) st1 = Ok (int_elem 7) st2.
Proof.
  apply (iterator_insert_then_next state_123_iterator (Some 6%positive) 2%positive
           (Link calloc_elem (Some 3%positive)) (int_elem 7)).
  - exact state_123_iterator_at.
  - replace (calloc_plan state_123_iterator) with (@nil bool) by (vm_compute; reflexivity).
    simpl. discriminate.
Defined.

(** C9. [linked_list_get] and [linked_list_remove] on their bad-index
    path, and [iterator_current] without a next element, all return the same
    element, the one whose [int] member is -1; [linked_list_get] returns that
    very element for a stored [int_elem (-1)] too. *)
Theorem no_value_is_int_minus_one :
  no_value = int_elem (-1) /\
  (forall st lp l index,
      lists st !! lp = Some l ->
      list_inner_adjust_index index (to_size_t (to_int (to_int (list_size l) - 1))) = -1 ->
      linked_list_get (Some lp) index st = Ok no_value st /\
      linked_list_remove (Some lp) index st = Ok no_value st) /\
  (forall st lst s v0 cells index,
      list_rep st lst s v0 cells ->
      1 <= Z.of_nat (length cells) <= INT_MAX ->
      INT_MIN <= index <= INT_MAX ->
      bad_index (Z.of_nat (length cells)) index ->
      linked_list_get lst index st = Ok no_value st /\
      linked_list_remove lst index st = Ok no_value st) /\
  (forall st iter a k,
      iterator_at st iter a k -> link_next k = NULL ->
      iterator_current iter st = Ok no_value st) /\
  (forall st lst s v0 cells i a,
      list_rep st lst s v0 cells ->
      head (calloc_plan st) <> Some false ->
      Z.of_nat (length cells) <= INT_MAX ->
      cells !! i = Some (a, int_elem (-1)) ->
      exists st', linked_list_get lst (Z.of_nat i) st = Ok no_value st').
Proof.
  split; [reflexivity|]. split; [|split; [|split]].
  - intros st lp l index Hl Hadj. split; [by eapply get_bad_index|by eapply remove_bad_index].
  - intros st lst s v0 cells index ((lp & l & -> & Hl & Hfirst & Hsize) & _) Hn Hindex Hbad.
    assert (list_inner_adjust_index index (to_size_t (to_int (to_int (list_size l) - 1))) = -1)
      as Hadj by (rewrite Hsize; by apply adjust_index_bad).
    split; [by eapply get_bad_index|by eapply remove_bad_index].
  - intros st iter a k (ip & it & -> & Hit & Hc & Ha) Hnext.
    by eapply iterator_current_none.
  - intros st lst s v0 cells i a Hrep Hplan Hmax Hi.
    destruct (linked_list_get_ok st lst s v0 cells i a _ Hrep Hplan Hmax Hi) as (st' & Hget & _).
    by exists st'.
Qed.

Lemma no_value_is_int_minus_one_witness :
  (linked_list_get (Some 1%positive) 3 state_123 = Ok (int_elem (-1)) state_123 /\
   linked_list_remove (Some 1%positive) 3 state_123 = Ok (int_elem (-1)) state_123) /\
  iterator_current (Some 3%positive) state_empty_iterator =
    Ok (int_elem (-1)) state_empty_iterator /\
  exists st', linked_list_get (Some 1%positive) 0 state_minus_one = Ok (int_elem (-1)) st'.
Proof.
  destruct no_value_is_int_minus_one as (_ & _ & Hbad & Hcurrent & Hstored).
  split; [|split].
  - apply (Hbad state_123 (Some 1%positive) 2%positive calloc_elem
             [(3%positive, int_elem 1); (4%positive, int_elem 2); (5%positive, int_elem 3)] 3).
    + exact state_123_rep.
    + vm_compute. split; discriminate.
    + vm_compute. split; discriminate.
    + right. vm_compute. reflexivity.
  - apply (Hcurrent state_empty_iterator (Some 3%positive) 2%positive (Link calloc_elem NULL)).
    + exists 3%positive, (Iter (Some 2%positive) (Some 1%positive)).
      split; [reflexivity|]. split; [vm_compute; reflexivity|].
      split; [reflexivity|vm_compute; reflexivity].
    + reflexivity.
  - apply (Hstored state_minus_one (Some 1%positive) 2%positive calloc_elem
             [(3%positive, int_elem (-1))] 0%nat 3%positive).
    + apply list_rep_check_sound. vm_compute. reflexivity.
    + replace (calloc_plan state_minus_one) with (@nil bool) by (vm_compute; reflexivity).
      simpl. discriminate.
    + vm_compute. discriminate.
    + reflexivity.
Defined.

(** C10. On every list that satisfies the data model,
    [linked_list_contains] calls the comparator stored in the list with the
    stored element first and the sought element second, on the stored
    elements front to back, up to and including the first one for which it
    returns true, and returns whether there was one. *)
Theorem contains_calls_comparator st lst s v0 cells cmp v fuel :
  list_rep st lst s v0 cells ->
  list_has_fun st lst (Some cmp) ->
  head (calloc_plan st) <> Some false ->
  (length cells < fuel)%nat ->
  exists st',
    linked_list_contains fuel lst v st = Ok (existsb (fun x => cmp x v) cells.*2) st' /\
    calls st' = calls st ++
                map (fun x => CallEq x v) (upto_first (fun x => cmp x v) cells.*2) /\
    list_rep st' lst s v0 cells.
Proof.
  intros Hrep (lp & l & -> & Hl & Hfun) Hplan Hfuel.
  pose proof Hrep as ((lp' & l' & E & Hl' & Hfirst & Hsize) & Hseg & Hnd).
  injection E as <-. rewrite Hl in Hl'. injection Hl' as <-.
  unfold linked_list_contains.
  run list_iterator_ok. rewrite Hfirst.
  set (st1 := set_iters _ _).
  destruct (contains_loop (calloc_addr st) (Some lp) lp l cmp v cells st1 s v0 fuel) as
    (st' & it' & Hrun & Hlinks & Hlists & Hit' & Hcalls);
    [exact Hfuel| | | | |].
  { subst st1. simpl_state. apply lookup_insert_eq. }
  { subst st1. simpl_state. exact Hseg. }
  { subst st1. simpl_state. exact Hl. }
  { exact Hfun. }
  run Hrun.
  run free_iter_ok.
  eexists. split; [reflexivity|]. simpl_state. split; [exact Hcalls|].
  eapply list_rep_same; [| |exact Hrep]; simpl_state; subst st1; simpl_state; congruence.
Qed.

Lemma contains_calls_comparator_witness :
  exists st',
    linked_list_contains 4 (Some 1%positive) (int_elem 2) state_123 = Ok true st' /\
    calls st' = calls state_123 ++
                [CallEq (int_elem 1) (int_elem 2); CallEq (int_elem 2) (int_elem 2)] /\
    list_rep st' (Some 1%positive) 2 calloc_elem
      [(3%positive, int_elem 1); (4%positive, int_elem 2); (5%positive, int_elem 3)].
Proof.
  apply (contains_calls_comparator state_123 (Some 1%positive) 2%positive calloc_elem
           [(3%positive, int_elem 1); (4%positive, int_elem 2); (5%positive, int_elem 3)]
           compare_int_elements (int_elem 2) 4%nat).
  - exact state_123_rep.
  - exists 1%positive, (List (Some 2%positive) (Some 5%positive) 3 (Some compare_int_elements)).
    split; [reflexivity|]. split; [vm_compute; reflexivity|reflexivity].
  - exact state_123_next_calloc.
  - simpl. lia.
Defined.

(** * Further properties of the code *)

(** ** Index adjustment without wrap-around *)

Lemma adjust_index_cases index ub :
  INT_MIN <= index <= INT_MAX -> 0 <= ub <= INT_MAX ->
  list_inner_adjust_index index ub =
    (if index <? 0
     then if index + ub <? 0 then -1 else index + ub
     else if ub <? index then -1 else index).
Proof.
  intros Hindex Hub.
  unfold list_inner_adjust_index, INT_MIN, INT_MAX in *.
  destruct (Z.ltb_spec index 0) as [Hneg|Hpos].
  - rewrite int_plus_size_t by (unfold INT_MIN, INT_MAX; lia).
    destruct (Z.ltb_spec (index + ub) 0) as [Hlt|Hge]; [done|].
    rewrite to_size_t_id by lia.
    destruct (Z.gtb_spec (index + ub) ub); [lia|done].
  - destruct (Z.ltb_spec index 0); [lia|].
    rewrite to_size_t_id by lia.
    destruct (Z.gtb_spec index ub), (Z.ltb_spec ub index); try lia; done.
Qed.

(** X1. For an [int] index and a bound that fits an [int],
    [list_inner_adjust_index] computes in the integers: an index from 0 up is
    kept when it is at most the bound, a negative index is moved up by the
    bound and kept when the sum is not negative, and every other index gives
    -1.  So a result is -1 or lies between 0 and the bound, and the index
    [-k] denotes the position [bound - k]. *)
Theorem adjust_index_spec index ub :
  INT_MIN <= index <= INT_MAX -> 0 <= ub <= INT_MAX ->
  list_inner_adjust_index index ub =
    (if index <? 0
     then if index + ub <? 0 then -1 else index + ub
     else if ub <? index then -1 else index) /\
  (list_inner_adjust_index index ub = -1 \/ 0 <= list_inner_adjust_index index ub <= ub).
Proof.
  intros Hindex Hub.
  pose proof (adjust_index_cases index ub Hindex Hub) as Heq.
  split; [exact Heq|]. rewrite Heq.
  destruct (Z.ltb_spec index 0).
  - destruct (Z.ltb_spec (index + ub) 0); [by left|right; lia].
  - destruct (Z.ltb_spec ub index); [by left|right; lia].
Qed.

Lemma adjust_index_spec_witness :
  list_inner_adjust_index (-1) 3 = 2 /\
  (list_inner_adjust_index (-1) 3 = -1 \/ 0 <= list_inner_adjust_index (-1) 3 <= 3).
Proof.
  apply (adjust_index_spec (-1) 3); vm_compute; split; discriminate.
Defined.

(** ** The data model as a sequence *)

Lemma list_intact_holds st lst values : list_intact st lst values -> list_holds st lst values.
Proof. intros (s & v0 & cells & Hrep & _ & Hv). by exists s, v0, cells. Qed.

Lemma list_rep_chain st lst s v0 cells : list_rep st lst s v0 cells -> chain st s v0 cells.
Proof. by intros (_ & Hseg & Hnd). Qed.

(** A chain that ends in [NULL] is determined by where it starts. *)
Lemma lseg_unique h p c1 c2 : lseg h p c1 NULL -> lseg h p c2 NULL -> c1 = c2.
Proof.
  revert p c2. induction c1 as [|[a v] c1 IH]; intros p [|[b w] c2]; simpl; try done.
  - intros -> (E & _). done.
  - intros (-> & _) E. done.
  - intros (-> & n & Ha & H1) (E & m & Hb & H2). injection E as <-.
    rewrite Ha in Hb. injection Hb as <- <-. f_equal. by eapply IH.
Qed.

Lemma list_rep_unique st lst s v0 cells s' v0' cells' :
  list_rep st lst s v0 cells -> list_rep st lst s' v0' cells' ->
  s' = s /\ v0' = v0 /\ cells' = cells.
Proof.
  intros ((lp & l & -> & Hl & Hfirst & _) & Hseg & _)
         ((lp' & l' & E & Hl' & Hfirst' & _) & Hseg' & _).
  injection E as <-. rewrite Hl in Hl'. injection Hl' as <-.
  assert (s' = s) as -> by congruence.
  pose proof (lseg_unique _ _ _ _ Hseg' Hseg) as E. by injection E as -> ->.
Qed.

Lemma list_intact_rep st lst s v0 cells :
  list_rep st lst s v0 cells -> list_intact st lst cells.*2 -> tail_ok st lst s cells.
Proof.
  intros Hrep (s' & v0' & cells' & Hrep' & Htail & _).
  destruct (list_rep_unique _ _ _ _ _ _ _ _ Hrep Hrep') as (-> & -> & ->). done.
Qed.

Lemma calloc_addr_lists st : lists st !! calloc_addr st = None.
Proof.
  apply not_elem_of_dom. intros H. apply (calloc_addr_fresh st).
  rewrite !elem_of_union. auto.
Qed.

Lemma state_123_intact :
  list_intact state_123 (Some 1%positive) [int_elem 1; int_elem 2; int_elem 3].
Proof.
  exists 2%positive, calloc_elem,
    [(3%positive, int_elem 1); (4%positive, int_elem 2); (5%positive, int_elem 3)].
  split; [exact state_123_rep|]. split; [exact state_123_tail|reflexivity].
Defined.

Lemma state_123_holds :
  list_holds state_123 (Some 1%positive) [int_elem 1; int_elem 2; int_elem 3].
Proof. exact (list_intact_holds _ _ _ state_123_intact). Defined.

(** ** Creation *)

Lemma calloc_link_fail st plan :
  calloc_plan st = false :: plan -> calloc_link st = Ok NULL (set_calloc_plan plan st).
Proof. intros H. unfold calloc_link, calloc_decide, bind, ret. by rewrite H. Qed.

Lemma calloc_iter_fail st plan :
  calloc_plan st = false :: plan -> calloc_iter st = Ok NULL (set_calloc_plan plan st).
Proof. intros H. unfold calloc_iter, calloc_decide, bind, ret. by rewrite H. Qed.

(** The state [linked_list_create] ends in when both allocations succeed. *)
Lemma linked_list_create_run st f :
  head (calloc_plan st) <> Some false ->
  head (tail (calloc_plan st)) <> Some false ->
  let lp := calloc_addr st in
  let st1 := set_lists (insert lp (List NULL NULL 0 None))
               (set_calloc_plan (tail (calloc_plan st)) st) in
  let s := calloc_addr st1 in
  linked_list_create f st =
  Ok (Some lp)
     (set_lists (insert lp (List (Some s) (Some s) 0 f))
        (set_links (insert s (Link calloc_elem NULL))
           (set_calloc_plan (tail (tail (calloc_plan st))) st))).
Proof.
  intros Hplan Hplan' lp st1 s. unfold linked_list_create.
  run calloc_list_ok. fold lp. fold st1.
  run calloc_link_ok. fold s.
  run write_last_ok. run write_first_ok. run write_size_ok.
  run write_fun_ok. unfold ret.
  f_equal. simpl_state. cbn [list_first list_last list_size list_fun].
  subst st1. unfold set_lists, set_links, set_calloc_plan. simpl.
  by rewrite !insert_insert_eq.
Qed.

(** X2. When its two allocations succeed, [linked_list_create] returns a new
    list that is empty and in order (sentinel, size 0, tail at the sentinel),
    with the comparator it was given; [linked_list_size] is 0 and
    [linked_list_is_empty] is true.  The lists that existed before are
    different objects and are left as they were, and nothing is printed. *)
Theorem create_gives_an_empty_list st f :
  head (calloc_plan st) <> Some false ->
  head (tail (calloc_plan st)) <> Some false ->
  exists st' lst,
    linked_list_create f st = Ok lst st' /\
    list_intact st' lst [] /\
    list_has_fun st' lst f /\
    linked_list_size lst st' = Ok 0 st' /\
    linked_list_is_empty lst st' = Ok true st' /\
    (forall lst2 values, list_intact st lst2 values ->
                         lst2 <> lst /\ list_intact st' lst2 values) /\
    stdout st' = stdout st.
Proof.
  intros Hplan Hplan'.
  pose proof (linked_list_create_run st f Hplan Hplan') as Hrun. cbv zeta in Hrun.
  set (lp := calloc_addr st) in *.
  set (s := calloc_addr (set_lists _ _)) in *.
  assert (links st !! s = None) as Hs by (subst s; exact (calloc_addr_links _)).
  assert (lists st !! lp = None) as Hlp by apply calloc_addr_lists.
  eexists. exists (Some lp). split; [exact Hrun|].
  split; [|split; [|split; [|split; [|split]]]].
  - exists s, calloc_elem, []. split; [|split; [|done]].
    + split; [|split].
      * exists lp. eexists. split; [done|]. simpl_state. rewrite lookup_insert_eq.
        split; [reflexivity|split; reflexivity].
      * simpl_state. simpl. split; [done|]. exists NULL. by rewrite lookup_insert_eq.
      * apply NoDup_singleton.
    + exists lp. eexists. split; [done|]. simpl_state. rewrite lookup_insert_eq.
      split; reflexivity.
  - exists lp. eexists. split; [done|]. simpl_state. rewrite lookup_insert_eq.
    split; reflexivity.
  - unfold linked_list_size. erewrite read_size_ok by lookup. done.
  - unfold linked_list_is_empty, linked_list_size. run read_size_ok. done.
  - intros lst2 values (s2 & v2 & cells2 & Hrep & Htail & Hv).
    destruct Hrep as ((lp2 & l2 & -> & Hl2 & Hfirst2 & Hsize2) & Hseg2 & Hnd2).
    assert (lp2 <> lp) as Hne by (intros ->; congruence).
    split; [congruence|].
    exists s2, v2, cells2. split; [|split; [|done]].
    + split; [|split; [|done]].
      * exists lp2, l2. simpl_state. by rewrite lookup_insert_ne.
      * simpl_state. apply lseg_insert; [|done].
        eapply lseg_fresh; [exact Hseg2|exact Hs].
    + destruct Htail as (lp3 & l3 & E & Hl3 & Hlast). injection E as <-.
      exists lp2, l3. simpl_state. by rewrite lookup_insert_ne.
  - done.
Qed.

Lemma create_gives_an_empty_list_witness :
  exists st' lst,
    linked_list_create (Some compare_int_elements) state_123 = Ok lst st' /\
    list_intact st' lst [] /\
    list_has_fun st' lst (Some compare_int_elements) /\
    linked_list_size lst st' = Ok 0 st' /\
    linked_list_is_empty lst st' = Ok true st' /\
    (forall lst2 values, list_intact state_123 lst2 values ->
                         lst2 <> lst /\ list_intact st' lst2 values) /\
    stdout st' = stdout state_123.
Proof.
  apply (create_gives_an_empty_list state_123 (Some compare_int_elements)).
  - exact state_123_next_calloc.
  - replace (calloc_plan state_123) with (@nil bool) by (vm_compute; reflexivity).
    simpl. discriminate.
Defined.

(** X3. [linked_list_create] does not look at what [calloc] returns.  When
    the list header cannot be allocated it writes through [NULL].  When the
    sentinel cannot be allocated it returns a list whose [first] and [last]
    are [NULL], of size 0, and inserting into that list at either end writes
    through [NULL]. *)
Theorem create_without_memory st f plan :
  (calloc_plan st = false :: plan -> linked_list_create f st = Fault) /\
  (calloc_plan st = true :: false :: plan ->
   exists st' lst,
     linked_list_create f st = Ok lst st' /\
     read_first lst st' = Ok NULL st' /\
     read_last lst st' = Ok NULL st' /\
     linked_list_size lst st' = Ok 0 st' /\
     (forall v, linked_list_prepend lst v st' = Fault) /\
     (forall v, head plan <> Some false -> linked_list_append lst v st' = Fault)).
Proof.
  split; intros Hplan.
  - unfold linked_list_create, calloc_list, calloc_decide, bind, ret. rewrite Hplan. simpl.
    unfold calloc_link, calloc_decide, bind, ret. simpl.
    by destruct (default true (head plan)).
  - eexists. exists (Some (calloc_addr st)). split; [|split; [|split; [|split; [|split]]]].
    + unfold linked_list_create.
      erewrite bind_ok by (apply calloc_list_ok; by rewrite Hplan). cbv beta.
      rewrite Hplan. cbn [tail].
      erewrite bind_ok by (by apply calloc_link_fail). cbv beta.
      run write_last_ok. run write_first_ok. run write_size_ok.
      run write_fun_ok. reflexivity.
    + erewrite read_first_ok by lookup. done.
    + erewrite read_last_ok by lookup. done.
    + unfold linked_list_size. erewrite read_size_ok by lookup. done.
    + intros v. unfold linked_list_prepend. run read_first_ok. reflexivity.
    + intros v Hhead. unfold linked_list_append.
      run link_new_ok. run read_last_ok. reflexivity.
Qed.

Lemma create_without_memory_witness :
  linked_list_create (Some dummy_func_ptr) (initial_state [false]) = Fault /\
  exists st' lst,
    linked_list_create (Some dummy_func_ptr) (initial_state [true; false]) = Ok lst st' /\
    read_first lst st' = Ok NULL st' /\
    read_last lst st' = Ok NULL st' /\
    linked_list_size lst st' = Ok 0 st' /\
    (forall v, linked_list_prepend lst v st' = Fault) /\
    (forall v, head (@nil bool) <> Some false -> linked_list_append lst v st' = Fault).
Proof.
  split.
  - apply (create_without_memory (initial_state [false]) (Some dummy_func_ptr) []).
    reflexivity.
  - apply (create_without_memory (initial_state [true; false]) (Some dummy_func_ptr) []).
    reflexivity.
Defined.

(** ** Indexed access through any valid index *)

Lemma linked_list_size_bind {B : Type} st lp l (k : Z -> M B) :
  lists st !! lp = Some l -> bind (linked_list_size (Some lp)) k st = k (list_size l) st.
Proof. intros Hl. unfold linked_list_size. by run read_size_ok. Qed.

(** [linked_list_get], [linked_list_remove] and [linked_list_insert] use the
    index only through what [list_inner_adjust_index] makes of it
    ([linked_list_insert] also prints it when it is bad). *)
Lemma linked_list_get_adjusted st lp l index index' :
  lists st !! lp = Some l ->
  list_inner_adjust_index index (to_size_t (to_int (to_int (list_size l) - 1))) =
  list_inner_adjust_index index' (to_size_t (to_int (to_int (list_size l) - 1))) ->
  linked_list_get (Some lp) index st = linked_list_get (Some lp) index' st.
Proof.
  intros Hl Hadj. unfold linked_list_get.
  rewrite !(linked_list_size_bind st lp l) by done. cbv zeta. by rewrite Hadj.
Qed.

Lemma linked_list_remove_adjusted st lp l index index' :
  lists st !! lp = Some l ->
  list_inner_adjust_index index (to_size_t (to_int (to_int (list_size l) - 1))) =
  list_inner_adjust_index index' (to_size_t (to_int (to_int (list_size l) - 1))) ->
  linked_list_remove (Some lp) index st = linked_list_remove (Some lp) index' st.
Proof.
  intros Hl Hadj. unfold linked_list_remove.
  rewrite !(linked_list_size_bind st lp l) by done. cbv zeta. by rewrite Hadj.
Qed.

Lemma linked_list_insert_adjusted st lp l index index' v :
  lists st !! lp = Some l ->
  list_inner_adjust_index index (list_size l) = list_inner_adjust_index index' (list_size l) ->
  list_inner_adjust_index index' (list_size l) <> -1 ->
  linked_list_insert (Some lp) index v st = linked_list_insert (Some lp) index' v st.
Proof.
  intros Hl Hadj Hok. unfold linked_list_insert.
  rewrite !(linked_list_size_bind st lp l) by done. cbv zeta. rewrite Hadj.
  by destruct (Z.eqb_spec (list_inner_adjust_index index' (list_size l)) (-1)).
Qed.

(** A valid index of [linked_list_get] and [linked_list_remove] is adjusted
    to the position it denotes. *)
Lemma adjust_index_position n index :
  1 <= n <= INT_MAX -> INT_MIN <= index <= INT_MAX ->
  0 <= normalized_index n index < n ->
  list_inner_adjust_index index (to_size_t (to_int (to_int n - 1))) = normalized_index n index /\
  list_inner_adjust_index (normalized_index n index) (to_size_t (to_int (to_int n - 1))) =
    normalized_index n index.
Proof.
  intros Hn Hindex Hpos. split.
  - rewrite adjust_index_normalized by done.
    rewrite decide_False; [done|]. unfold bad_index. lia.
  - rewrite upper_limit_nonempty by done.
    apply adjust_index_valid; unfold INT_MAX in *; lia.
Qed.

Lemma lookup_values (cells : list (positive * elem_t)) i v :
  cells.*2 !! i = Some v -> exists a, cells !! i = Some (a, v).
Proof.
  rewrite list_lookup_fmap. destruct (cells !! i) as [[a w]|]; simpl; [|done].
  intros [= ->]. by exists a.
Qed.

Lemma values_insert_at (cells : list (positive * elem_t)) i new v :
  (take i cells ++ (new, v) :: drop i cells).*2 = take i cells.*2 ++ v :: drop i cells.*2.
Proof. by rewrite fmap_app, fmap_cons, fmap_take, fmap_drop. Qed.

Lemma last_delete {A : Type} (x : A) (xs : list A) i :
  (S i < length xs)%nat -> last (x :: delete i xs) = last (x :: xs).
Proof.
  revert x i. induction xs as [|y xs IH]; intros x i Hi; simpl in Hi; [lia|].
  destruct i as [|i].
  - simpl. destruct xs as [|z xs]; [simpl in Hi; lia|]. done.
  - change (delete (S i) (y :: xs)) with (y :: delete i xs).
    rewrite !last_cons_cons. apply IH. lia.
Qed.

(** With a valid index, the three functions do what they do with the
    position the index denotes. *)
Lemma get_index_position st lst s v0 cells index :
  list_rep st lst s v0 cells ->
  Z.of_nat (length cells) <= INT_MAX -> INT_MIN <= index <= INT_MAX ->
  0 <= normalized_index (Z.of_nat (length cells)) index < Z.of_nat (length cells) ->
  linked_list_get lst index st =
  linked_list_get lst
    (Z.of_nat (Z.to_nat (normalized_index (Z.of_nat (length cells)) index))) st.
Proof.
  intros ((lp & l & -> & Hl & Hfirst & Hsize) & _) Hmax Hindex Hpos.
  destruct (adjust_index_position (Z.of_nat (length cells)) index) as (Hadj & Hadj');
    [lia|done|lia|].
  apply (linked_list_get_adjusted st lp l); [done|].
  rewrite Z2Nat.id, Hsize by lia. congruence.
Qed.

Lemma remove_index_position st lst s v0 cells index :
  list_rep st lst s v0 cells ->
  Z.of_nat (length cells) <= INT_MAX -> INT_MIN <= index <= INT_MAX ->
  0 <= normalized_index (Z.of_nat (length cells)) index < Z.of_nat (length cells) ->
  linked_list_remove lst index st =
  linked_list_remove lst
    (Z.of_nat (Z.to_nat (normalized_index (Z.of_nat (length cells)) index))) st.
Proof.
  intros ((lp & l & -> & Hl & Hfirst & Hsize) & _) Hmax Hindex Hpos.
  destruct (adjust_index_position (Z.of_nat (length cells)) index) as (Hadj & Hadj');
    [lia|done|lia|].
  apply (linked_list_remove_adjusted st lp l); [done|].
  rewrite Z2Nat.id, Hsize by lia. congruence.
Qed.

Lemma insert_index_position st lst s v0 cells index v :
  list_rep st lst s v0 cells ->
  Z.of_nat (length cells) <= INT_MAX -> INT_MIN <= index <= INT_MAX ->
  0 <= insert_position (Z.of_nat (length cells)) index <= Z.of_nat (length cells) ->
  linked_list_insert lst index v st =
  linked_list_insert lst
    (Z.of_nat (Z.to_nat (insert_position (Z.of_nat (length cells)) index))) v st.
Proof.
  intros ((lp & l & -> & Hl & Hfirst & Hsize) & _) Hmax Hindex Hpos.
  set (n := Z.of_nat (length cells)) in *.
  assert (list_inner_adjust_index index n = insert_position n index) as Hadj.
  { rewrite adjust_index_cases by (unfold INT_MAX in *; lia).
    unfold insert_position in *.
    destruct (Z.ltb_spec index 0).
    - destruct (Z.ltb_spec (index + n) 0); [lia|done].
    - destruct (Z.ltb_spec n index); [lia|done]. }
  assert (list_inner_adjust_index (insert_position n index) n = insert_position n index)
    as Hadj' by (apply adjust_index_valid; unfold INT_MAX in *; lia).
  apply (linked_list_insert_adjusted st lp l); [done| |];
    rewrite Z2Nat.id, Hsize by lia; [congruence|lia].
Qed.

(** X4. [linked_list_get] with a valid index returns the element at the
    position the index denotes, the index itself when it is not negative and
    [index + (size - 1)] when it is negative (so -1 denotes the element
    before the last one).  The list and the heap of links are left as they
    were, nothing is printed, and the iterator of the traversal is released
    again. *)
Theorem get_returns_the_element st lst values index v :
  list_holds st lst values ->
  head (calloc_plan st) <> Some false ->
  Z.of_nat (length values) <= INT_MAX ->
  INT_MIN <= index <= INT_MAX ->
  0 <= normalized_index (Z.of_nat (length values)) index ->
  values !! Z.to_nat (normalized_index (Z.of_nat (length values)) index) = Some v ->
  exists st',
    linked_list_get lst index st = Ok v st' /\
    links st' = links st /\ lists st' = lists st /\ iters st' = iters st /\
    stdout st' = stdout st /\ calls st' = calls st.
Proof.
  intros (s & v0 & cells & Hrep & <-) Hplan Hmax Hindex Hpos Hv.
  rewrite length_fmap in *.
  pose proof (lookup_lt_Some _ _ _ Hv) as Hlt. rewrite length_fmap in Hlt.
  apply lookup_values in Hv as (a & Ha).
  rewrite (get_index_position st lst s v0 cells index) by (done || lia).
  destruct (linked_list_get_ok st lst s v0 cells _ a v Hrep Hplan Hmax Ha)
    as (st' & Hget & Hlinks & Hlists & Hiters & Hout & Hcalls & _).
  exists st'. done.
Qed.

Lemma get_returns_the_element_witness :
  exists st',
    linked_list_get (Some 1%positive) (-1) state_123 = Ok (int_elem 2) st' /\
    links st' = links state_123 /\ lists st' = lists state_123 /\
    iters st' = iters state_123 /\
    stdout st' = stdout state_123 /\ calls st' = calls state_123.
Proof.
  apply (get_returns_the_element state_123 (Some 1%positive)
           [int_elem 1; int_elem 2; int_elem 3] (-1) (int_elem 2)).
  - exact state_123_holds.
  - exact state_123_next_calloc.
  - vm_compute. discriminate.
  - vm_compute. split; discriminate.
  - vm_compute. discriminate.
  - reflexivity.
Defined.

(** X5. [linked_list_remove] with a valid index (read as in
    [linked_list_get]) returns the element at that position and takes it out
    of the list: the other elements keep their order and the size goes down
    by one.  The tail pointer stays in order unless the element removed was
    the last one. *)
Theorem remove_takes_the_element_out st lst values index v :
  list_holds st lst values ->
  head (calloc_plan st) <> Some false ->
  Z.of_nat (length values) <= INT_MAX ->
  INT_MIN <= index <= INT_MAX ->
  0 <= normalized_index (Z.of_nat (length values)) index ->
  values !! Z.to_nat (normalized_index (Z.of_nat (length values)) index) = Some v ->
  exists st',
    linked_list_remove lst index st = Ok v st' /\
    list_holds st' lst
      (delete (Z.to_nat (normalized_index (Z.of_nat (length values)) index)) values) /\
    (list_intact st lst values ->
     normalized_index (Z.of_nat (length values)) index + 1 < Z.of_nat (length values) ->
     list_intact st' lst
       (delete (Z.to_nat (normalized_index (Z.of_nat (length values)) index)) values)).
Proof.
  intros (s & v0 & cells & Hrep & <-) Hplan Hmax Hindex Hpos Hv.
  rewrite length_fmap in *.
  set (pos := normalized_index (Z.of_nat (length cells)) index) in *.
  pose proof (lookup_lt_Some _ _ _ Hv) as Hlt. rewrite length_fmap in Hlt.
  apply lookup_values in Hv as (a & Ha).
  rewrite (remove_index_position st lst s v0 cells index) by (done || lia). fold pos.
  destruct (linked_list_remove_ok st lst s v0 cells (Z.to_nat pos) a v Hrep Hplan Hmax Ha)
    as (st' & Hrun & Hrep' & _ & _ & (lp & l & l' & -> & Hl & Hl' & Hlast') & _).
  exists st'. split; [done|]. split.
  - exists s, v0, (delete (Z.to_nat pos) cells). split; [done|]. apply list_fmap_delete.
  - intros Hintact Hnotlast.
    pose proof (list_intact_rep _ _ _ _ _ Hrep Hintact) as (lp3 & l3 & E3 & Hl3 & Hlast3).
    injection E3 as <-. rewrite Hl in Hl3. injection Hl3 as <-.
    exists s, v0, (delete (Z.to_nat pos) cells). split; [done|]. split; [|apply list_fmap_delete].
    exists lp, l'. split; [done|]. split; [done|].
    rewrite Hlast', Hlast3, list_fmap_delete.
    symmetry. apply last_delete. rewrite length_fmap. lia.
Qed.

Lemma remove_takes_the_element_out_witness :
  exists st',
    linked_list_remove (Some 1%positive) (-2) state_123 = Ok (int_elem 1) st' /\
    list_holds st' (Some 1%positive) [int_elem 2; int_elem 3] /\
    (list_intact state_123 (Some 1%positive) [int_elem 1; int_elem 2; int_elem 3] ->
     0 + 1 < 3 ->
     list_intact st' (Some 1%positive) [int_elem 2; int_elem 3]).
Proof.
  apply (remove_takes_the_element_out state_123 (Some 1%positive)
           [int_elem 1; int_elem 2; int_elem 3] (-2) (int_elem 1)).
  - exact state_123_holds.
  - exact state_123_next_calloc.
  - vm_compute. discriminate.
  - vm_compute. split; discriminate.
  - vm_compute. discriminate.
  - reflexivity.
Defined.

(** ** Insertion through any valid index *)

(** X6. [linked_list_insert] with a valid index puts the element at the
    position the index denotes, the index itself when it is not negative and
    [index + size] when it is negative (so -1 inserts before the last
    element and [-size] at the front): the elements before that position
    stay, the others move up by one, and the list is in order again. *)
Theorem insert_puts_the_element st lst values index v :
  list_intact st lst values ->
  calloc_succeeds st ->
  Z.of_nat (length values) < INT_MAX ->
  INT_MIN <= index <= INT_MAX ->
  0 <= insert_position (Z.of_nat (length values)) index <= Z.of_nat (length values) ->
  exists st',
    linked_list_insert lst index v st = Ok tt st' /\
    list_intact st' lst
      (take (Z.to_nat (insert_position (Z.of_nat (length values)) index)) values ++
       v :: drop (Z.to_nat (insert_position (Z.of_nat (length values)) index)) values) /\
    calloc_succeeds st'.
Proof.
  intros (s & v0 & cells & Hrep & Htail & <-) Hplan Hmax Hindex Hpos.
  rewrite length_fmap in *.
  set (pos := insert_position (Z.of_nat (length cells)) index) in *.
  rewrite (insert_index_position st lst s v0 cells index) by (done || lia). fold pos.
  destruct (linked_list_insert_ok st lst s v0 cells (Z.to_nat pos) v Hrep)
    as (st' & new & Hrun & Hrep' & Htail' & Hplan'); [done|done|lia|done|].
  exists st'. split; [done|]. split; [|done].
  eexists s, v0, _. split; [exact Hrep'|]. split; [by apply Htail'|].
  apply values_insert_at.
Qed.

Lemma insert_puts_the_element_witness :
  exists st',
    linked_list_insert (Some 1%positive) (-1) (int_elem 7) state_123 = Ok tt st' /\
    list_intact st' (Some 1%positive) [int_elem 1; int_elem 2; int_elem 7; int_elem 3] /\
    calloc_succeeds st'.
Proof.
  apply (insert_puts_the_element state_123 (Some 1%positive)
           [int_elem 1; int_elem 2; int_elem 3] (-1) (int_elem 7)).
  - exact state_123_intact.
  - exact state_123_calloc.
  - vm_compute. reflexivity.
  - vm_compute. split; discriminate.
  - vm_compute. split; discriminate.
Defined.

(** X7. [linked_list_insert] with an index that denotes no position from 0
    to the size prints the line [<index> is not a valid index!] and does
    nothing else: the state is the one before but for that line. *)
Theorem insert_with_bad_index st lst values index v :
  list_holds st lst values ->
  Z.of_nat (length values) <= INT_MAX ->
  INT_MIN <= index <= INT_MAX ->
  insert_position (Z.of_nat (length values)) index < 0 \/
  Z.of_nat (length values) < insert_position (Z.of_nat (length values)) index ->
  linked_list_insert lst index v st = Ok tt (add_stdout (PrintfInvalidIndex index) st).
Proof.
  intros (s & v0 & cells & ((lp & l & -> & Hl & Hfirst & Hsize) & _) & <-) Hmax Hindex Hbad.
  rewrite length_fmap in *.
  unfold linked_list_insert. rewrite (linked_list_size_bind st lp l) by done. cbv zeta.
  rewrite Hsize, adjust_index_cases by (unfold INT_MAX in *; lia).
  unfold insert_position in Hbad.
  destruct (Z.ltb_spec index 0).
  - destruct (Z.ltb_spec (index + Z.of_nat (length cells)) 0); [done|lia].
  - destruct (Z.ltb_spec (Z.of_nat (length cells)) index); [done|lia].
Qed.

Lemma insert_with_bad_index_witness :
  linked_list_insert (Some 1%positive) (-4) (int_elem 7) state_123 =
  Ok tt (add_stdout (PrintfInvalidIndex (-4)) state_123).
Proof.
  apply (insert_with_bad_index state_123 (Some 1%positive)
           [int_elem 1; int_elem 2; int_elem 3] (-4) (int_elem 7)).
  - exact state_123_holds.
  - vm_compute. discriminate.
  - vm_compute. split; discriminate.
  - left. vm_compute. reflexivity.
Defined.

(** X8. [linked_list_append] puts the element behind the last one and
    [linked_list_prepend] before the first one, and both leave the list in
    order.  [linked_list_prepend] does not go through the tail pointer: it
    also works on a list whose tail pointer is stale. *)
Theorem append_and_prepend st lst values v :
  head (calloc_plan st) <> Some false ->
  Z.of_nat (length values) < 2 ^ 64 - 1 ->
  (list_intact st lst values ->
   exists st', linked_list_append lst v st = Ok tt st' /\
               list_intact st' lst (values ++ [v])) /\
  (list_intact st lst values ->
   exists st', linked_list_prepend lst v st = Ok tt st' /\
               list_intact st' lst (v :: values)) /\
  (list_holds st lst values ->
   exists st', linked_list_prepend lst v st = Ok tt st' /\
               list_holds st' lst (v :: values)).
Proof.
  intros Hplan Hmax. split; [|split].
  - intros (s & v0 & cells & Hrep & Htail & <-). rewrite length_fmap in Hmax.
    destruct (linked_list_append_ok st lst s v0 cells v Hrep Htail Hplan Hmax)
      as (st' & Hrun & Hrep' & Htail' & _).
    exists st'. split; [done|]. eexists s, v0, _. split; [exact Hrep'|]. split; [done|].
    by rewrite fmap_app.
  - intros (s & v0 & cells & Hrep & Htail & <-). rewrite length_fmap in Hmax.
    destruct (linked_list_prepend_ok st lst s v0 cells v Hrep Hplan Hmax)
      as (st' & Hrun & Hrep' & Htail' & _).
    exists st'. split; [done|]. eexists s, v0, _. split; [exact Hrep'|]. split; [auto|done].
  - intros (s & v0 & cells & Hrep & <-). rewrite length_fmap in Hmax.
    destruct (linked_list_prepend_ok st lst s v0 cells v Hrep Hplan Hmax)
      as (st' & Hrun & Hrep' & _).
    exists st'. split; [done|]. eexists s, v0, _. split; [exact Hrep'|done].
Qed.

Lemma append_and_prepend_witness :
  (exists st', linked_list_append (Some 1%positive) (int_elem 4) state_123 = Ok tt st' /\
               list_intact st' (Some 1%positive)
                 [int_elem 1; int_elem 2; int_elem 3; int_elem 4]) /\
  (exists st', linked_list_prepend (Some 1%positive) (int_elem 4) state_123 = Ok tt st' /\
               list_intact st' (Some 1%positive)
                 [int_elem 4; int_elem 1; int_elem 2; int_elem 3]).
Proof.
  destruct (append_and_prepend state_123 (Some 1%positive)
              [int_elem 1; int_elem 2; int_elem 3] (int_elem 4))
    as (Happend & Hprepend & _).
  - exact state_123_next_calloc.
  - vm_compute. reflexivity.
  - split; [exact (Happend state_123_intact)|exact (Hprepend state_123_intact)].
Defined.

Lemma delete_insert_at {A : Type} (xs : list A) (i : nat) (x : A) :
  (i <= length xs)%nat -> delete i (take i xs ++ x :: drop i xs) = xs.
Proof.
  revert i. induction xs as [|y xs IH]; intros [|i] Hi; simpl in *; try lia; try done.
  f_equal. apply IH. lia.
Qed.

(** X9. Inserting an element and removing at the same index right after
    gives the element back and leaves the list with the elements, in the
    order, it had before; this holds for every index that is valid for the
    insertion, negative ones too.  The tail pointer is in order again unless
    the element went in and out at the end of the list. *)
Theorem insert_then_remove st lst values index v :
  list_intact st lst values ->
  calloc_succeeds st ->
  Z.of_nat (length values) < INT_MAX ->
  INT_MIN <= index <= INT_MAX ->
  0 <= insert_position (Z.of_nat (length values)) index <= Z.of_nat (length values) ->
  exists st1 st2,
    linked_list_insert lst index v st = Ok tt st1 /\
    linked_list_remove lst index st1 = Ok v st2 /\
    list_holds st2 lst values /\
    (insert_position (Z.of_nat (length values)) index < Z.of_nat (length values) ->
     list_intact st2 lst values).
Proof.
  intros (s & v0 & cells & Hrep & Htail & <-) Hplan Hmax Hindex Hpos.
  rewrite length_fmap in *.
  set (pos := insert_position (Z.of_nat (length cells)) index) in *.
  rewrite (insert_index_position st lst s v0 cells index) by (done || lia). fold pos.
  destruct (linked_list_insert_ok st lst s v0 cells (Z.to_nat pos) v Hrep)
    as (st1 & new & Hins & Hrep1 & Htail1 & Hplan1); [done|done|lia|done|].
  specialize (Htail1 Htail).
  set (cells1 := take (Z.to_nat pos) cells ++ (new, v) :: drop (Z.to_nat pos) cells) in *.
  assert (length cells1 = S (length cells)) as Hlen.
  { subst cells1. rewrite length_app. simpl. rewrite length_take, length_drop. lia. }
  assert (normalized_index (Z.of_nat (length cells1)) index = pos) as Hnorm.
  { subst pos. unfold normalized_index, insert_position. rewrite Hlen.
    destruct (Z.ltb_spec index 0); lia. }
  assert (cells1 !! Z.to_nat pos = Some (new, v)) as Hnew
    by (apply lookup_insert_at; lia).
  assert (delete (Z.to_nat pos) cells1 = cells) as Hdel
    by (apply delete_insert_at; lia).
  assert (linked_list_remove lst index st1 =
          linked_list_remove lst (Z.of_nat (Z.to_nat pos)) st1) as Hidx.
  { rewrite (remove_index_position st1 lst s v0 cells1 index) by (done || lia).
    by rewrite Hnorm. }
  destruct (linked_list_remove_ok st1 lst s v0 cells1 (Z.to_nat pos) new v Hrep1)
    as (st2 & Hrun & Hrep2 & _ & _ & (lp & l1 & l2 & -> & Hl1 & Hl2 & Hlast2) & _);
    [by apply calloc_succeeds_head|lia|done|].
  rewrite Hdel in Hrep2.
  exists st1, st2. split; [done|]. split; [by rewrite Hidx|].
  split; [by eexists s, v0, cells|].
  intros Hinside. exists s, v0, cells. split; [done|]. split; [|done].
  destruct Htail1 as (lp' & l1' & E & Hl1' & Hlast1).
  injection E as <-. rewrite Hl1 in Hl1'. injection Hl1' as <-.
  exists lp, l2. split; [done|]. split; [done|].
  rewrite Hlast2, Hlast1. clearbody cells1. rewrite <- Hdel, list_fmap_delete.
  symmetry. apply last_delete. rewrite length_fmap. lia.
Qed.

Lemma insert_then_remove_witness :
  exists st1 st2,
    linked_list_insert (Some 1%positive) (-1) (int_elem 7) state_123 = Ok tt st1 /\
    linked_list_remove (Some 1%positive) (-1) st1 = Ok (int_elem 7) st2 /\
    list_holds st2 (Some 1%positive) [int_elem 1; int_elem 2; int_elem 3] /\
    (2 < 3 -> list_intact st2 (Some 1%positive) [int_elem 1; int_elem 2; int_elem 3]).
Proof.
  apply (insert_then_remove state_123 (Some 1%positive)
           [int_elem 1; int_elem 2; int_elem 3] (-1) (int_elem 7)).
  - exact state_123_intact.
  - exact state_123_calloc.
  - vm_compute. reflexivity.
  - vm_compute. split; discriminate.
  - vm_compute. split; discriminate.
Defined.

(** ** Reading from an empty list *)

Lemma to_int_period x k : to_int (x + k * 2 ^ 32) = to_int x.
Proof.
  unfold to_int. replace (x + k * 2 ^ 32 + 2 ^ 31) with (x + 2 ^ 31 + k * 2 ^ 32) by lia.
  by rewrite Z_mod_plus_full.
Qed.

(** The bound [linked_list_get] and [linked_list_remove] pass for an empty
    list is the largest [size_t]; a negative index is moved down by one
    under it, and the smallest [int] wraps around to the largest. *)
Lemma adjust_index_empty_negative index :
  INT_MIN <= index < 0 ->
  list_inner_adjust_index index (2 ^ 64 - 1) = if decide (index = INT_MIN) then INT_MAX else -1.
Proof.
  intros Hindex. unfold list_inner_adjust_index, INT_MIN, INT_MAX in *.
  destruct (Z.ltb_spec index 0) as [_|?]; [|lia].
  rewrite to_int_to_size_t.
  assert (to_size_t index = index + 2 ^ 64) as ->.
  { unfold to_size_t. rewrite <- (Z_mod_plus_full index 1 (2 ^ 64)).
    rewrite Z.mod_small; lia. }
  replace (index + 2 ^ 64 + (2 ^ 64 - 1)) with (index - 1 + 2 ^ 33 * 2 ^ 32) by lia.
  rewrite to_int_period.
  destruct (decide (index = - 2 ^ 31)) as [->|Hne].
  - reflexivity.
  - rewrite to_int_id by (unfold INT_MIN, INT_MAX; lia).
    destruct (Z.ltb_spec (index - 1) 0); [done|lia].
Qed.

(** X10. On an empty list [linked_list_get] tells no index apart from a
    valid one by its bound ([size - 1] is -1, the largest [size_t]).  With
    index 0, and with a negative index other than the smallest [int], it
    returns the no-value element; with an index from 1 up, and with the
    smallest [int], the traversal steps over the end of the chain and reads
    through [NULL]. *)
Theorem get_on_an_empty_list st lst index :
  list_holds st lst [] ->
  head (calloc_plan st) <> Some false ->
  INT_MIN <= index <= INT_MAX ->
  (INT_MIN < index <= 0 -> exists st', linked_list_get lst index st = Ok no_value st') /\
  (0 < index \/ index = INT_MIN -> linked_list_get lst index st = Fault).
Proof.
  intros (s & v0 & cells & Hrep & Hnil) Hplan Hindex.
  apply fmap_nil_inv in Hnil as ->.
  destruct (Z.ltb_spec index 0) as [Hneg|Hnonneg].
  - pose proof Hrep as ((lp & l & -> & Hl & Hfirst & Hsize) & Hseg & _).
    simpl in Hseg. destruct Hseg as (_ & n & Hs & ->).
    assert (forall k : Z -> M elem_t,
               bind (linked_list_size (Some lp)) k st = k 0 st) as Hsz.
    { intros k. rewrite (linked_list_size_bind st lp l) by done. by rewrite Hsize. }
    unfold linked_list_get. rewrite Hsz. cbv zeta.
    rewrite upper_limit_empty, adjust_index_empty_negative by lia.
    split.
    + intros Hok. rewrite decide_False by lia. by eexists.
    + intros [Hgt | ->]; [lia|]. rewrite decide_True by done.
      change (INT_MAX =? -1) with false. cbv iota.
      run list_iterator_ok. rewrite Hfirst.
      destruct (Z.to_nat (to_size_t INT_MAX)) as [|k] eqn:E.
      { rewrite to_size_t_id in E by (unfold INT_MAX; lia). unfold INT_MAX in E. lia. }
      norm_bind. unfold bind at 1.
      erewrite for_loop_next_end; [reflexivity| lookup | reflexivity | lookup | reflexivity].
  - destruct (get_on_empty_list st lst s v0 index Hrep Hplan) as (Hzero & Hpos); [lia|].
    split.
    + intros Hok. apply Hzero. lia.
    + intros [Hgt | E]; [apply Hpos; lia|]. unfold INT_MIN in E. lia.
Qed.

Lemma get_on_an_empty_list_witness :
  (exists st', linked_list_get (Some 1%positive) (-2) state_empty = Ok no_value st') /\
  linked_list_get (Some 1%positive) 1 state_empty = Fault.
Proof.
  assert (list_holds state_empty (Some 1%positive) []) as Hholds.
  { exists 2%positive, calloc_elem, []. split; [|reflexivity].
    apply list_rep_check_sound. vm_compute. reflexivity. }
  assert (head (calloc_plan state_empty) <> Some false) as Hplan.
  { replace (calloc_plan state_empty) with (@nil bool) by (vm_compute; reflexivity).
    simpl. discriminate. }
  split.
  - destruct (get_on_an_empty_list state_empty (Some 1%positive) (-2) Hholds Hplan)
      as (Hvalue & _); [|apply Hvalue]; unfold INT_MIN, INT_MAX; lia.
  - destruct (get_on_an_empty_list state_empty (Some 1%positive) 1 Hholds Hplan)
      as (_ & Hfault); [unfold INT_MIN, INT_MAX; lia|apply Hfault; lia].
Defined.

(** ** Clearing and destroying *)

(** The loop of [linked_list_clear], with everything it does to the state:
    the data links are released, the sentinel closes the chain, the cached
    size is 0, and nothing else changes, the tail pointer included. *)
Lemma clear_loop_frees ip lp s v0 cells :
  forall st l fuel,
    (length cells < fuel)%nat ->
    Z.of_nat (length cells) < 2 ^ 64 ->
    iters st !! ip = Some (Iter (Some s) (Some lp)) ->
    lists st !! lp = Some l -> list_first l = Some s ->
    list_size l = Z.of_nat (length cells) ->
    lseg (links st) (Some s) ((s, v0) :: cells) NULL ->
    NoDup (s :: cells.*1) ->
    exists st',
      while fuel
        (fun _ => iterator_has_next (Some ip))
        (fun _ =>
           do _ <- iterator_remove (Some ip);
           do _ <- iterator_reset (Some ip);
           do n <- read_size (Some lp);
           do _ <- write_size (Some lp) (to_size_t (n - 1));
           ret (Continue tt))
        tt st
      = Ok tt st' /\
      links st' !! s = Some (Link v0 NULL) /\
      (forall a, a ∈ cells.*1 -> links st' !! a = None /\ a ∈ freed st') /\
      (forall b, b ∉ s :: cells.*1 -> links st' !! b = links st !! b) /\
      (forall b, b ∈ freed st -> b ∈ freed st') /\
      lists st' = <[lp:=List (Some s) (list_last l) 0 (list_fun l)]> (lists st) /\
      iters st' = iters st /\
      calloc_plan st' = calloc_plan st /\ stdout st' = stdout st /\ calls st' = calls st.
Proof.
  induction cells as [|[a v] cells IH]; intros st l fuel Hfuel Hmax Hit Hl Hfirst Hsize Hseg Hnd;
    (destruct fuel as [|fuel]; [simpl in Hfuel; lia|]).
  - exists st. pose proof Hseg as (_ & n & Hs & ->). split.
    { cbn [while]. run iterator_has_next_ok. reflexivity. }
    split; [done|]. split; [intros a Ha; by apply elem_of_nil in Ha|].
    split; [done|]. split; [done|]. split; [|done].
    symmetry. apply insert_id. rewrite Hl. f_equal.
    destruct l; simpl in *. by subst.
  - destruct (lseg_remove_after _ _ _ _ 0%nat s v0 a v Hseg Hnd eq_refl eq_refl)
      as (n & Hs & Ha & Hne & Hseg').
    cbn [while].
    run iterator_has_next_ok. cbn [link_next].
    replace (negb (ptr_eqb (Some a) NULL)) with true by reflexivity. cbv iota.
    run iterator_remove_ok. cbn [link_value link_next].
    run iterator_reset_ok. cbn [iter_list].
    run read_size_ok.
    run write_size_ok.
    rewrite Hfirst, Hsize.
    rewrite to_size_t_id by (simpl length in *; lia).
    pose proof Hnd as Hnd0.
    apply NoDup_cons in Hnd as (Hs' & Hnd). rewrite fmap_cons in Hs', Hnd.
    apply not_elem_of_cons in Hs' as (_ & Hs'). apply NoDup_cons in Hnd as (Ha' & Hnd).
    simpl in Ha'.
    match goal with
    | |- context [while fuel _ _ tt ?st1] =>
        destruct (IH st1 (List (Some s) (list_last l) (Z.of_nat (length ((a, v) :: cells)) - 1)
                            (list_fun l)) fuel)
          as (st' & Hrun & Hsent & Hfreed & Hframe & Hfreed0 & Hlists & Hiters & Hplan & Hout
              & Hcalls)
    end.
    + simpl in Hfuel. lia.
    + simpl length in Hmax. lia.
    + simpl_state. rewrite insert_id by done. exact Hit.
    + simpl_state. apply lookup_insert_eq.
    + reflexivity.
    + simpl. lia.
    + simpl_state. exact Hseg'.
    + by apply NoDup_cons.
    + exists st'. split; [exact Hrun|]. simpl_state. cbn [list_last list_fun] in Hlists.
      split; [done|]. split; [|split; [|split; [|split; [|split]]]].
      * intros b Hb. rewrite fmap_cons in Hb. apply elem_of_cons in Hb as [->|Hb]; [|auto].
        simpl. split.
        -- rewrite Hframe by (apply not_elem_of_cons; split; [congruence|done]).
           simpl_state. apply lookup_delete_eq.
        -- apply Hfreed0. simpl_state. apply elem_of_union. left. by apply elem_of_singleton.
      * intros b Hb. rewrite fmap_cons in Hb. simpl in Hb.
        apply not_elem_of_cons in Hb as (Hbs & Hb). apply not_elem_of_cons in Hb as (Hba & Hb).
        rewrite Hframe by (apply not_elem_of_cons; split; done).
        simpl_state. rewrite lookup_delete_ne, lookup_insert_ne by done. done.
      * intros b Hb. apply Hfreed0. simpl_state. apply elem_of_union. by right.
      * rewrite Hlists. by rewrite insert_insert_eq.
      * rewrite Hiters. by apply insert_id.
      * done.
Qed.

Lemma free_list_ok st lp l :
  lists st !! lp = Some l ->
  free_list (Some lp) st = Ok tt (set_freed (union {[lp]}) (set_lists (delete lp) st)).
Proof. intros H. unfold free_list. by rewrite H. Qed.

(** [linked_list_clear] as a whole. *)
Lemma linked_list_clear_frees st lp l s v0 cells fuel :
  list_rep st (Some lp) s v0 cells ->
  lists st !! lp = Some l ->
  head (calloc_plan st) <> Some false ->
  (length cells < fuel)%nat ->
  Z.of_nat (length cells) < 2 ^ 64 ->
  exists st',
    linked_list_clear fuel (Some lp) st = Ok tt st' /\
    links st' !! s = Some (Link v0 NULL) /\
    (forall a, a ∈ cells.*1 -> links st' !! a = None /\ a ∈ freed st') /\
    (forall b, b ∉ s :: cells.*1 -> links st' !! b = links st !! b) /\
    (forall b, b ∈ freed st -> b ∈ freed st') /\
    lists st' = <[lp:=List (Some s) (list_last l) 0 (list_fun l)]> (lists st) /\
    iters st' = iters st /\
    calloc_plan st' = (if decide (cells = []) then calloc_plan st else tail (calloc_plan st)) /\
    stdout st' = stdout st /\ calls st' = calls st.
Proof.
  intros ((lp' & l' & E & Hl' & Hfirst & Hsize) & Hseg & Hnd) Hl Hplan Hfuel Hmax.
  injection E as <-. rewrite Hl in Hl'. injection Hl' as <-.
  unfold linked_list_clear, linked_list_is_empty, linked_list_size.
  run read_size_ok. rewrite Hsize.
  destruct cells as [|c cells].
  - exists st. split; [reflexivity|]. pose proof Hseg as (_ & n & Hs & ->).
    split; [done|]. split; [intros a Ha; by apply elem_of_nil in Ha|].
    split; [done|]. split; [done|]. split; [|done].
    symmetry. apply insert_id. rewrite Hl. f_equal.
    destruct l; simpl in *. by subst.
  - destruct (Z.eqb_spec (Z.of_nat (length (c :: cells))) 0) as [E|_]; [simpl in E; lia|].
    rewrite bind_ret. cbn [negb].
    run list_iterator_ok. rewrite Hfirst.
    match goal with
    | |- context [bind (while fuel _ _ tt) _ ?st1] =>
        destruct (clear_loop_frees (calloc_addr st) lp s v0 (c :: cells) st1 l fuel)
          as (st' & Hrun & Hsent & Hfreed & Hframe & Hfreed0 & Hlists & Hiters & Hplan' & Hout
              & Hcalls);
          [done|done|lookup|lookup|done|done|by simpl_state|done|]
    end.
    simpl_state.
    run Hrun.
    erewrite free_iter_ok by (rewrite Hiters; apply lookup_insert_eq).
    eexists. split; [reflexivity|]. simpl_state.
    split; [done|]. split; [|split; [done|split; [|split; [done|split; [|done]]]]].
    + intros a Ha. destruct (Hfreed a Ha) as (Hnone & Hin). split; [done|].
      apply elem_of_union. by right.
    + intros b Hb. apply elem_of_union. right. by apply Hfreed0.
    + rewrite Hiters, delete_insert_eq. apply delete_id, calloc_addr_iters.
Qed.

(** X11. On a list that is in order (the chain from the sentinel holds
    every link once and the cached size is the number of its data links),
    and when the iterator can be allocated, [linked_list_clear] empties the
    list: every data link is given back with [free], the sentinel closes the
    chain, the cached size is 0 and [linked_list_is_empty] is true.  Links
    that do not belong to the list are left alone, the iterator the function
    works with is released again, and nothing is printed. *)
Theorem clear_releases_the_elements st lst s v0 cells fuel :
  list_rep st lst s v0 cells ->
  head (calloc_plan st) <> Some false ->
  (length cells < fuel)%nat ->
  Z.of_nat (length cells) < 2 ^ 64 ->
  exists st',
    linked_list_clear fuel lst st = Ok tt st' /\
    list_rep st' lst s v0 [] /\
    linked_list_is_empty lst st' = Ok true st' /\
    (forall a, a ∈ cells.*1 -> links st' !! a = None /\ a ∈ freed st') /\
    (forall b, b ∉ s :: cells.*1 -> links st' !! b = links st !! b) /\
    iters st' = iters st /\ stdout st' = stdout st.
Proof.
  intros Hrep Hplan Hfuel Hmax.
  pose proof Hrep as ((lp & l & -> & Hl & Hfirst & Hsize) & Hseg & Hnd).
  destruct (linked_list_clear_frees st lp l s v0 cells fuel Hrep Hl Hplan Hfuel Hmax)
    as (st' & Hrun & Hsent & Hfreed & Hframe & _ & Hlists & Hiters & _ & Hout & _).
  exists st'. split; [done|]. split; [|split; [|done]].
  - split; [|split; [|apply NoDup_singleton]].
    + exists lp. eexists. split; [done|]. rewrite Hlists, lookup_insert_eq.
      split; [reflexivity|split; reflexivity].
    + simpl. split; [done|]. by exists NULL.
  - unfold linked_list_is_empty, linked_list_size.
    erewrite bind_ok by (apply read_size_ok; rewrite Hlists; apply lookup_insert_eq).
    reflexivity.
Qed.

Lemma clear_releases_the_elements_witness :
  exists st',
    linked_list_clear 4 (Some 1%positive) state_123 = Ok tt st' /\
    list_rep st' (Some 1%positive) 2 calloc_elem [] /\
    linked_list_is_empty (Some 1%positive) st' = Ok true st' /\
    (forall a, a ∈ [3%positive; 4%positive; 5%positive] ->
               links st' !! a = None /\ a ∈ freed st') /\
    (forall b, b ∉ [2%positive; 3%positive; 4%positive; 5%positive] ->
               links st' !! b = links state_123 !! b) /\
    iters st' = iters state_123 /\ stdout st' = stdout state_123.
Proof.
  apply (clear_releases_the_elements state_123 (Some 1%positive) 2%positive calloc_elem
           [(3%positive, int_elem 1); (4%positive, int_elem 2); (5%positive, int_elem 3)]
           4%nat).
  - exact state_123_rep.
  - exact state_123_next_calloc.
  - simpl. lia.
  - vm_compute. reflexivity.
Defined.

(** X12. [linked_list_clear] does not reset the tail pointer.  After
    clearing a list that was in order and not empty, [last] still holds the
    address of the link that was last, which is freed, and every later
    [linked_list_append] writes through it. *)
Theorem append_after_clear st lst values fuel :
  list_intact st lst values ->
  values <> [] ->
  calloc_succeeds st ->
  (length values < fuel)%nat ->
  Z.of_nat (length values) < 2 ^ 64 ->
  exists st' a,
    linked_list_clear fuel lst st = Ok tt st' /\
    list_holds st' lst [] /\
    read_last lst st' = Ok (Some a) st' /\
    links st' !! a = None /\
    forall v, linked_list_append lst v st' = Fault.
Proof.
  intros (s & v0 & cells & Hrep & Htail & <-) Hne Hplan Hfuel Hmax.
  rewrite length_fmap in *.
  pose proof Hrep as ((lp & l & -> & Hl & Hfirst & Hsize) & Hseg & Hnd).
  destruct (linked_list_clear_frees st lp l s v0 cells fuel Hrep Hl)
    as (st' & Hrun & Hsent & Hfreed & Hframe & _ & Hlists & Hiters & Hplan' & Hout & _);
    [by apply calloc_succeeds_head|done|done|].
  destruct Htail as (lp' & l' & E & Hl' & Hlast).
  injection E as <-. rewrite Hl in Hl'. injection Hl' as <-.
  destruct (last cells.*1) as [a|] eqn:Ha.
  2:{ apply last_None in Ha. apply fmap_nil_inv in Ha. subst cells. done. }
  assert (list_last l = Some a) as Hlast'.
  { rewrite Hlast. destruct (cells.*1) as [|c rest]; [done|]. by rewrite last_cons_cons. }
  assert (a ∈ cells.*1) as Hin.
  { apply last_Some in Ha as (pre & ->). apply elem_of_app. right.
    by apply list_elem_of_singleton. }
  destruct (Hfreed a Hin) as (Hnone & Hafreed).
  exists st', a. split; [done|]. split; [|split; [|split; [done|]]].
  - exists s, v0, []. split; [|done]. split; [|split; [|apply NoDup_singleton]].
    + exists lp. eexists. split; [done|]. rewrite Hlists, lookup_insert_eq.
      split; [reflexivity|split; reflexivity].
    + simpl. split; [done|]. by exists NULL.
  - erewrite read_last_ok by (rewrite Hlists; apply lookup_insert_eq). by rewrite <- Hlast'.
  - intros v. eapply read_last_dangling_append.
    + rewrite Hlists. apply lookup_insert_eq.
    + exact Hlast'.
    + done.
    + done.
    + rewrite Hplan'. rewrite decide_False by (intros ->; done).
      exact (calloc_succeeds_head _
               (calloc_succeeds_step st (set_calloc_plan (tail (calloc_plan st)) st)
                  Hplan eq_refl)).
Qed.

Lemma append_after_clear_witness :
  exists st' a,
    linked_list_clear 4 (Some 1%positive) state_123 = Ok tt st' /\
    list_holds st' (Some 1%positive) [] /\
    read_last (Some 1%positive) st' = Ok (Some a) st' /\
    links st' !! a = None /\
    forall v, linked_list_append (Some 1%positive) v st' = Fault.
Proof.
  apply (append_after_clear state_123 (Some 1%positive)
           [int_elem 1; int_elem 2; int_elem 3] 4%nat).
  - exact state_123_intact.
  - discriminate.
  - exact state_123_calloc.
  - simpl. lia.
  - vm_compute. reflexivity.
Defined.

(** X13. On a list that is in order (the chain from the sentinel holds
    every link once and the cached size is the number of its data links),
    and when the iterator can be allocated, [linked_list_destroy] gives back
    everything the list is made of: every data link, the sentinel and the
    list header are released, links of other lists are left alone and no
    iterator stays behind.  Afterwards the list pointer is dangling: even
    [linked_list_size] reads freed memory. *)
Theorem destroy_releases_the_list st lst s v0 cells fuel :
  list_rep st lst s v0 cells ->
  head (calloc_plan st) <> Some false ->
  (length cells < fuel)%nat ->
  Z.of_nat (length cells) < 2 ^ 64 ->
  exists st' lp,
    lst = Some lp /\
    linked_list_destroy fuel lst st = Ok tt st' /\
    lists st' = delete lp (lists st) /\ lp ∈ freed st' /\
    (forall a, a ∈ s :: cells.*1 -> links st' !! a = None /\ a ∈ freed st') /\
    (forall b, b ∉ s :: cells.*1 -> links st' !! b = links st !! b) /\
    iters st' = iters st /\
    linked_list_size lst st' = Fault.
Proof.
  intros Hrep Hplan Hfuel Hmax.
  pose proof Hrep as ((lp & l & -> & Hl & Hfirst & Hsize) & Hseg & Hnd).
  destruct (linked_list_clear_frees st lp l s v0 cells fuel Hrep Hl Hplan Hfuel Hmax)
    as (st1 & Hrun & Hsent & Hfreed & Hframe & _ & Hlists & Hiters & _ & Hout & _).
  assert (lists st1 !! lp = Some (List (Some s) (list_last l) 0 (list_fun l))) as Hl1
    by (rewrite Hlists; apply lookup_insert_eq).
  eexists. exists lp. split; [done|]. split.
  { unfold linked_list_destroy.
    run Hrun.
    run read_first_ok. cbn [list_first].
    run free_link_ok.
    erewrite free_list_ok by lookup. reflexivity. }
  simpl_state. split; [|split; [|split; [|split; [|split; [done|]]]]].
  - rewrite Hlists. apply delete_insert_eq.
  - apply elem_of_union. left. by apply elem_of_singleton.
  - intros a Ha. apply elem_of_cons in Ha as [->|Ha].
    + split; [apply lookup_delete_eq|].
      apply elem_of_union. right. apply elem_of_union. left. by apply elem_of_singleton.
    + destruct (Hfreed a Ha) as (Hnone & Hin). split.
      * rewrite lookup_delete_ne; [done|]. intros ->. congruence.
      * apply elem_of_union. right. apply elem_of_union. by right.
  - intros b Hb. pose proof Hb as Hb'. apply not_elem_of_cons in Hb' as (Hbs & _).
    rewrite lookup_delete_ne by done. by apply Hframe.
  - unfold linked_list_size, read_size, bind, load_list. simpl_state.
    by rewrite lookup_delete_eq.
Qed.

Lemma destroy_releases_the_list_witness :
  exists st' lp,
    Some 1%positive = Some lp /\
    linked_list_destroy 4 (Some 1%positive) state_123 = Ok tt st' /\
    lists st' = delete lp (lists state_123) /\ lp ∈ freed st' /\
    (forall a, a ∈ [2%positive; 3%positive; 4%positive; 5%positive] ->
               links st' !! a = None /\ a ∈ freed st') /\
    (forall b, b ∉ [2%positive; 3%positive; 4%positive; 5%positive] ->
               links st' !! b = links state_123 !! b) /\
    iters st' = iters state_123 /\
    linked_list_size (Some 1%positive) st' = Fault.
Proof.
  apply (destroy_releases_the_list state_123 (Some 1%positive) 2%positive calloc_elem
           [(3%positive, int_elem 1); (4%positive, int_elem 2); (5%positive, int_elem 3)]
           4%nat).
  - exact state_123_rep.
  - exact state_123_next_calloc.
  - simpl. lia.
  - vm_compute. reflexivity.
Defined.

(** ** Searching with a predicate: [linked_list_any] *)

Section AnyLoop.

Variables (ip : positive) (lstp : ptr).

(** The loop of [linked_list_any] once the predicate has held: the
    condition still asks the iterator, and ends the loop. *)
Lemma any_loop_found {E : Type} (prop : predicate E) (extra : E) st b kb fuel :
  iters st !! ip = Some (Iter (Some b) lstp) -> links st !! b = Some kb ->
  while (S fuel)
    (fun result : bool =>
       do has_next <- iterator_has_next (Some ip);
       ret (has_next && negb result))
    (fun result : bool =>
       do result' <- (if negb result
                      then do value <- iterator_current (Some ip);
                           call_predicate prop value extra
                      else ret false);
       do _ <- iterator_next (Some ip);
       ret (Continue result'))
    true st
  = Ok true st.
Proof.
  intros Hit Hb. cbn [while].
  run iterator_has_next_ok. rewrite andb_false_r. reflexivity.
Qed.

Lemma any_loop {E : Type} (p : elem_t -> E -> bool) extra rest :
  forall st b vb fuel,
    (length rest < fuel)%nat ->
    iters st !! ip = Some (Iter (Some b) lstp) ->
    lseg (links st) (Some b) ((b, vb) :: rest) NULL ->
    exists st' it',
      while fuel
        (fun result : bool =>
           do has_next <- iterator_has_next (Some ip);
           ret (has_next && negb result))
        (fun result : bool =>
           do result' <- (if negb result
                          then do value <- iterator_current (Some ip);
                               call_predicate (Some p) value extra
                          else ret false);
           do _ <- iterator_next (Some ip);
           ret (Continue result'))
        false st
      = Ok (existsb (fun x => p x extra) rest.*2) st' /\
      links st' = links st /\ lists st' = lists st /\
      iters st' = <[ip:=it']> (iters st) /\
      stdout st' = stdout st /\
      calls st' = calls st ++ map CallPredicate (upto_first (fun x => p x extra) rest.*2).
Proof.
  induction rest as [|[c vc] rest IH]; intros st b vb fuel Hfuel Hit Hseg;
    (destruct fuel as [|fuel]; [simpl in Hfuel; lia|]);
    simpl in Hseg; destruct Hseg as (_ & n & Hb & Hrest); simpl in Hrest.
  - subst n. exists st. eexists. split.
    { cbn [while]. run iterator_has_next_ok. reflexivity. }
    simpl. rewrite app_nil_r. split; [done|]. split; [done|].
    split; [symmetry; by apply insert_id|done].
  - destruct Hrest as (-> & nc & Hc & Hrest).
    cbn [while].
    run iterator_has_next_ok. cbn [link_next].
    replace (negb (ptr_eqb (Some c) NULL)) with true by reflexivity. cbn [negb andb]. cbv iota.
    run iterator_current_ok. cbn [link_value].
    rewrite ?bind_assoc. erewrite bind_ok by apply call_predicate_ok. cbv beta.
    run iterator_next_ok.
    cbn [fmap list_fmap existsb upto_first snd].
    destruct (p vc extra) eqn:Hp; cbn [orb].
    + destruct fuel as [|fuel]; [simpl in Hfuel; lia|].
      erewrite any_loop_found; [ | simpl_state; apply lookup_insert_eq | simpl_state; exact Hc ].
      eexists. eexists. split; [reflexivity|]. simpl_state. done.
    + edestruct (IH (set_iters (insert ip (Iter (Some c) lstp))
                       (add_call (CallPredicate vc) st)) c vc fuel)
        as (st' & it' & Hrun & Hlinks & Hlists & Hiters & Hout & Hcalls).
      * simpl in Hfuel. lia.
      * simpl_state. apply lookup_insert_eq.
      * simpl_state. simpl. eauto.
      * exists st', it'. split; [exact Hrun|]. simpl_state.
        rewrite Hcalls, Hiters, insert_insert_eq. simpl. rewrite <- app_assoc. done.
Qed.

End AnyLoop.

(** X14. [linked_list_any] returns whether the predicate holds of some
    stored element, and applies it, front to back, to the elements up to and
    including the first one of which it holds and to no element after it; on
    the empty list it returns false without a call.  The list is left as it
    was and the iterator of the traversal is released. *)
Theorem any_stops_at_the_first_hit {E : Type} st lst values (p : elem_t -> E -> bool)
    extra fuel :
  list_holds st lst values ->
  head (calloc_plan st) <> Some false ->
  (length values < fuel)%nat ->
  exists st',
    linked_list_any fuel lst (Some p) extra st =
      Ok (existsb (fun x => p x extra) values) st' /\
    calls st' = calls st ++ map CallPredicate (upto_first (fun x => p x extra) values) /\
    links st' = links st /\ lists st' = lists st /\ iters st' = iters st /\
    stdout st' = stdout st.
Proof.
  intros (s & v0 & cells & Hrep & <-) Hplan Hfuel. rewrite length_fmap in Hfuel.
  pose proof Hrep as ((lp & l & -> & Hl & Hfirst & Hsize) & Hseg & Hnd).
  unfold linked_list_any.
  run list_iterator_ok. rewrite Hfirst.
  set (st1 := set_iters _ _).
  destruct (any_loop (calloc_addr st) (Some lp) p extra cells st1 s v0 fuel) as
    (st' & it' & Hrun & Hlinks & Hlists & Hiters & Hout & Hcalls);
    [exact Hfuel| | |].
  { subst st1. simpl_state. apply lookup_insert_eq. }
  { subst st1. simpl_state. exact Hseg. }
  run Hrun.
  erewrite bind_ok by (apply (free_iter_ok _ _ it'); rewrite Hiters; apply lookup_insert_eq).
  cbv beta.
  eexists. split; [reflexivity|]. simpl_state. split; [exact Hcalls|].
  split; [done|]. split; [done|]. split; [|done].
  rewrite Hiters. subst st1. simpl_state.
  rewrite delete_insert_eq, delete_insert_eq. apply delete_id, calloc_addr_iters.
Qed.

Lemma any_stops_at_the_first_hit_witness :
  exists st',
    linked_list_any 4 (Some 1%positive) (Some int_less) 3 state_123 = Ok true st' /\
    calls st' = calls state_123 ++ [CallPredicate (int_elem 1)] /\
    links st' = links state_123 /\ lists st' = lists state_123 /\
    iters st' = iters state_123 /\ stdout st' = stdout state_123.
Proof.
  apply (any_stops_at_the_first_hit state_123 (Some 1%positive)
           [int_elem 1; int_elem 2; int_elem 3] int_less 3 4%nat).
  - exact state_123_holds.
  - exact state_123_next_calloc.
  - simpl. lia.
Defined.

(** ** The three ways to ask for the size *)

(** X15. On a list that is in order, [linked_list_size] returns the number
    of stored elements, [linked_list_is_empty] returns whether there is none,
    both without touching the state, and [linked_list_calculate_size], which
    walks the chain, returns the same number and leaves the list as it
    was. *)
Theorem size_functions_agree st lst values fuel :
  list_holds st lst values ->
  head (calloc_plan st) <> Some false ->
  (length values < fuel)%nat ->
  Z.of_nat (length values) < 2 ^ 64 ->
  linked_list_size lst st = Ok (Z.of_nat (length values)) st /\
  linked_list_is_empty lst st = Ok (bool_decide (values = [])) st /\
  exists st',
    linked_list_calculate_size fuel lst st = Ok (Z.of_nat (length values)) st' /\
    links st' = links st /\ lists st' = lists st.
Proof.
  intros (s & v0 & cells & Hrep & <-) Hplan Hfuel Hmax. rewrite length_fmap in *.
  pose proof Hrep as ((lp & l & -> & Hl & Hfirst & Hsize) & Hseg & Hnd).
  split; [|split].
  - unfold linked_list_size. erewrite read_size_ok by done. by rewrite Hsize.
  - unfold linked_list_is_empty. rewrite (linked_list_size_bind st lp l) by done.
    rewrite Hsize. destruct cells as [|c cells]; [done|].
    destruct (Z.eqb_spec (Z.of_nat (length (c :: cells))) 0) as [E|_]; [simpl in E; lia|].
    done.
  - by apply (linked_list_calculate_size_count st lp l s v0 cells fuel).
Qed.

Lemma size_functions_agree_witness :
  linked_list_size (Some 1%positive) state_123 = Ok 3 state_123 /\
  linked_list_is_empty (Some 1%positive) state_123 = Ok false state_123 /\
  exists st',
    linked_list_calculate_size 4 (Some 1%positive) state_123 = Ok 3 st' /\
    links st' = links state_123 /\ lists st' = lists state_123.
Proof.
  apply (size_functions_agree state_123 (Some 1%positive)
           [int_elem 1; int_elem 2; int_elem 3] 4%nat).
  - exact state_123_holds.
  - exact state_123_next_calloc.
  - simpl. lia.
  - vm_compute. reflexivity.
Defined.

(** ** The iterator as a cursor into the chain *)

Lemma chain_at st s v0 cells i a va :
  chain st s v0 cells -> ((s, v0) :: cells) !! i = Some (a, va) ->
  exists n,
    links st !! a = Some (Link va n) /\
    match cells !! i with
    | Some (b, vb) => n = Some b /\ a <> b /\ exists n', links st !! b = Some (Link vb n')
    | None => n = NULL
    end.
Proof.
  intros (Hseg & Hnd) Hi.
  destruct (lseg_split _ _ _ _ _ _ _ Hseg Hi) as (n & _ & Ha & Hpost).
  exists n. split; [done|].
  destruct (cells !! i) as [[b vb]|] eqn:Hb.
  - destruct (lseg_remove_after _ _ _ _ i a va b vb Hseg Hnd Hi Hb)
      as (n' & Ha' & Hb' & Hne & _).
    rewrite Ha in Ha'. injection Ha' as ->. eauto.
  - apply lookup_ge_None in Hb.
    rewrite drop_ge in Hpost by (simpl; lia). done.
Qed.

Lemma chain_delete st st' s v0 cells i t vt a v n :
  chain st s v0 cells ->
  ((s, v0) :: cells) !! i = Some (t, vt) -> cells !! i = Some (a, v) ->
  links st !! a = Some (Link v n) ->
  links st' = delete a (<[t:=Link vt n]> (links st)) ->
  chain st' s v0 (delete i cells).
Proof.
  intros (Hseg & Hnd) Ht Ha Hla Hlinks.
  destruct (lseg_remove_after _ _ _ _ i t vt a v Hseg Hnd Ht Ha)
    as (n' & _ & Hla' & _ & Hseg').
  rewrite Hla in Hla'. injection Hla' as <-.
  split.
  - rewrite Hlinks. exact Hseg'.
  - change (s :: (delete i cells).*1) with ((delete (S i) ((s, v0) :: cells)).*1).
    rewrite list_fmap_delete. eapply sublist_NoDup; [exact Hnd|apply sublist_delete].
Qed.

Lemma for_loop_add a b (body : M unit) st :
  for_loop (a + b) body st = bind (for_loop a body) (fun _ => for_loop b body) st.
Proof.
  revert st. induction a as [|a IH]; intros st; simpl; [reflexivity|].
  rewrite bind_assoc. unfold bind in *.
  destruct (body st) as [[] st1| |]; [apply IH|done|done].
Qed.

(** X16. [list_iterator] returns a new iterator whose cursor is the
    sentinel, in front of the first element.  From there the stepping loop
    of [linked_list_get], [linked_list_remove] and [linked_list_insert], [k]
    calls of [iterator_next], puts the cursor at position [k] when the list
    has at least [k] elements, without changing the list, and
    [iterator_reset] puts it back in front of the first element; with fewer
    than [k] elements the loop steps over the end of the chain and reads
    through [NULL]. *)
Theorem iterator_reaches_every_position st lst s v0 cells k :
  list_rep st lst s v0 cells ->
  head (calloc_plan st) <> Some false ->
  exists st0 iter,
    list_iterator lst st = Ok iter st0 /\
    iterator_pos st0 iter lst s v0 cells 0 /\
    ((k <= length cells)%nat ->
     exists st1 st2,
       for_loop k (do _ <- iterator_next iter; ret tt) st0 = Ok tt st1 /\
       iterator_pos st1 iter lst s v0 cells k /\
       links st1 = links st /\ lists st1 = lists st /\
       iterator_reset iter st1 = Ok tt st2 /\
       iterator_pos st2 iter lst s v0 cells 0) /\
    ((length cells < k)%nat ->
     for_loop k (do _ <- iterator_next iter; ret tt) st0 = Fault).
Proof.
  intros ((lp & l & -> & Hl & Hfirst & Hsize) & Hseg & Hnd) Hplan.
  set (ip := calloc_addr st).
  set (st0 := set_iters (insert ip (Iter (list_first l) (Some lp)))
                (set_calloc_plan (tail (calloc_plan st)) st)).
  assert (forall j t vt n,
             ((s, v0) :: cells) !! j = Some (t, vt) -> links st !! t = Some (Link vt n) ->
             lseg (links st) (Some s) (take j ((s, v0) :: cells) ++ [(t, vt)]) n ->
             for_loop j (do _ <- iterator_next (Some ip); ret tt) st0 =
             Ok tt (set_iters (insert ip (Iter (Some t) (Some lp))) st0)) as Hwalk.
  { intros j t vt n Hj Ht Hpre.
    pose proof (for_loop_next st0 ip (Some lp) (take j ((s, v0) :: cells)) (Some s) t vt n)
      as Hloop.
    rewrite length_take_le in Hloop by (apply lookup_lt_Some in Hj; lia).
    apply Hloop; [|done]. subst st0. simpl_state. by rewrite lookup_insert_eq, Hfirst. }
  exists st0, (Some ip). split; [by apply list_iterator_ok|]. split; [|split].
  - exists ip, s, v0. split; [done|]. subst st0. simpl_state.
    by rewrite lookup_insert_eq, Hfirst.
  - intros Hk.
    assert (exists t vt, ((s, v0) :: cells) !! k = Some (t, vt)) as (t & vt & Hcur).
    { destruct (((s, v0) :: cells) !! k) as [[t vt]|] eqn:E; [eauto|].
      apply lookup_ge_None in E. simpl in E. lia. }
    destruct (lseg_split _ _ _ _ _ _ _ Hseg Hcur) as (n & Hpre & Ht & _).
    eexists. eexists. split; [by eapply Hwalk|].
    split; [|split; [done|split; [done|split]]].
    + exists ip, t, vt. split; [done|]. simpl_state. by rewrite lookup_insert_eq.
    + eapply iterator_reset_ok; [simpl_state; apply lookup_insert_eq|reflexivity|done].
    + exists ip, s, v0. split; [done|]. simpl_state. by rewrite lookup_insert_eq, Hfirst.
  - intros Hk.
    assert (exists t vt, ((s, v0) :: cells) !! length cells = Some (t, vt)) as (t & vt & Hcur).
    { destruct (((s, v0) :: cells) !! length cells) as [[t vt]|] eqn:E; [eauto|].
      apply lookup_ge_None in E. simpl in E. lia. }
    destruct (lseg_split _ _ _ _ _ _ _ Hseg Hcur) as (n & Hpre & Ht & Hpost).
    rewrite drop_ge in Hpost by (simpl; lia). simpl in Hpost. subst n.
    replace k with (length cells + S (k - length cells - 1))%nat by lia.
    rewrite for_loop_add. erewrite bind_ok by (by eapply Hwalk). cbv beta.
    eapply for_loop_next_end; [simpl_state; apply lookup_insert_eq|reflexivity|done|done].
Qed.

Lemma iterator_reaches_every_position_witness :
  exists st0 iter,
    list_iterator (Some 1%positive) state_123 = Ok iter st0 /\
    iterator_pos st0 iter (Some 1%positive) 2 calloc_elem
      [(3%positive, int_elem 1); (4%positive, int_elem 2); (5%positive, int_elem 3)] 0 /\
    ((2 <= 3)%nat ->
     exists st1 st2,
       for_loop 2 (do _ <- iterator_next iter; ret tt) st0 = Ok tt st1 /\
       iterator_pos st1 iter (Some 1%positive) 2 calloc_elem
         [(3%positive, int_elem 1); (4%positive, int_elem 2); (5%positive, int_elem 3)] 2 /\
       links st1 = links state_123 /\ lists st1 = lists state_123 /\
       iterator_reset iter st1 = Ok tt st2 /\
       iterator_pos st2 iter (Some 1%positive) 2 calloc_elem
         [(3%positive, int_elem 1); (4%positive, int_elem 2); (5%positive, int_elem 3)] 0) /\
    ((3 < 2)%nat ->
     for_loop 2 (do _ <- iterator_next iter; ret tt) st0 = Fault).
Proof.
  apply (iterator_reaches_every_position state_123 (Some 1%positive) 2%positive calloc_elem
           [(3%positive, int_elem 1); (4%positive, int_elem 2); (5%positive, int_elem 3)]
           2%nat).
  - exact state_123_rep.
  - exact state_123_next_calloc.
Defined.

(** X17. With the cursor at position [i] of the chain, [iterator_has_next]
    tells whether an element is left, [iterator_current] returns the element
    at index [i] without moving (the no-value element when none is left), and
    [iterator_next] returns that same element and moves the cursor one link
    on, leaving the chain as it was.  With no element left, [iterator_next]
    and [iterator_remove] read through the [NULL] that ends the chain. *)
Theorem iterator_walks_the_chain st iter lst s v0 cells i :
  chain st s v0 cells ->
  iterator_pos st iter lst s v0 cells i ->
  iterator_has_next iter st = Ok (bool_decide (i < length cells)%nat) st /\
  iterator_current iter st = Ok (default no_value (cells.*2 !! i)) st /\
  match cells.*2 !! i with
  | Some v =>
      exists st',
        iterator_next iter st = Ok v st' /\
        iterator_pos st' iter lst s v0 cells (S i) /\
        links st' = links st /\ lists st' = lists st
  | None => iterator_next iter st = Fault /\ iterator_remove iter st = Fault
  end.
Proof.
  intros Hchain (ip & a & va & -> & Hit & Hi).
  destruct (chain_at st s v0 cells i a va Hchain Hi) as (n & Ha & Hnext).
  rewrite list_lookup_fmap.
  destruct (cells !! i) as [[b vb]|] eqn:Hb; simpl.
  - destruct Hnext as (-> & Hne & n' & Hlb).
    pose proof (lookup_lt_Some _ _ _ Hb) as Hlt.
    split; [|split].
    + erewrite iterator_has_next_ok by (done || reflexivity).
      by rewrite bool_decide_eq_true_2.
    + by erewrite iterator_current_ok by (done || reflexivity).
    + eexists. split; [by erewrite iterator_next_ok by (done || reflexivity)|].
      split; [|done]. exists ip, b, vb. split; [done|]. simpl_state.
      rewrite lookup_insert_eq. done.
  - subst n. apply lookup_ge_None in Hb.
    split; [|split; [|split]].
    + erewrite iterator_has_next_ok by (done || reflexivity).
      by rewrite bool_decide_eq_false_2 by lia.
    + by erewrite iterator_current_none by (done || reflexivity).
    + unfold iterator_next.
      run read_current_ok. cbn [iter_current].
      run read_next_ok. cbn [link_next].
      run write_current_ok.
      run read_current_ok. reflexivity.
    + unfold iterator_remove.
      run read_current_ok. cbn [iter_current].
      run read_next_ok. reflexivity.
Qed.

Lemma state_123_iterator_pos :
  iterator_pos state_123_iterator (Some 6%positive) (Some 1%positive) 2 calloc_elem
    [(3%positive, int_elem 1); (4%positive, int_elem 2); (5%positive, int_elem 3)] 0.
Proof.
  exists 6%positive, 2%positive, calloc_elem.
  split; [reflexivity|]. split; [vm_compute; reflexivity|reflexivity].
Defined.

Lemma state_123_iterator_rep :
  list_rep state_123_iterator (Some 1%positive) 2 calloc_elem
    [(3%positive, int_elem 1); (4%positive, int_elem 2); (5%positive, int_elem 3)].
Proof. apply list_rep_check_sound. vm_compute. reflexivity. Defined.

Lemma iterator_walks_the_chain_witness :
  iterator_has_next (Some 6%positive) state_123_iterator = Ok true state_123_iterator /\
  iterator_current (Some 6%positive) state_123_iterator = Ok (int_elem 1) state_123_iterator /\
  exists st',
    iterator_next (Some 6%positive) state_123_iterator = Ok (int_elem 1) st' /\
    iterator_pos st' (Some 6%positive) (Some 1%positive) 2 calloc_elem
      [(3%positive, int_elem 1); (4%positive, int_elem 2); (5%positive, int_elem 3)] 1 /\
    links st' = links state_123_iterator /\ lists st' = lists state_123_iterator.
Proof.
  apply (iterator_walks_the_chain state_123_iterator (Some 6%positive) (Some 1%positive)
           2%positive calloc_elem
           [(3%positive, int_elem 1); (4%positive, int_elem 2); (5%positive, int_elem 3)]
           0%nat).
  - exact (list_rep_chain _ _ _ _ _ state_123_iterator_rep).
  - exact state_123_iterator_pos.
Defined.

(** ** Changing the list through an iterator *)

(** X18. [iterator_remove] takes the element behind the cursor out of the
    chain, returns it and frees its link; the cursor stays where it is.  It
    does not touch the list header: the cached size is now one more than the
    number of elements, as [linked_list_calculate_size] finds. *)
Theorem iterator_remove_keeps_the_cached_size st iter lst s v0 cells i a v fuel :
  list_rep st lst s v0 cells ->
  iterator_pos st iter lst s v0 cells i ->
  cells !! i = Some (a, v) ->
  head (calloc_plan st) <> Some false ->
  (length cells <= fuel)%nat ->
  Z.of_nat (length cells) < 2 ^ 64 ->
  exists st1 st2,
    iterator_remove iter st = Ok v st1 /\
    chain st1 s v0 (delete i cells) /\
    iterator_pos st1 iter lst s v0 (delete i cells) i /\
    links st1 !! a = None /\
    lists st1 = lists st /\
    linked_list_size lst st1 = Ok (Z.of_nat (length cells)) st1 /\
    linked_list_calculate_size fuel lst st1 = Ok (Z.of_nat (length cells) - 1) st2.
Proof.
  intros Hrep (ip & t & vt & -> & Hit & Hi) Ha Hplan Hfuel Hmax.
  pose proof Hrep as ((lp & l & -> & Hl & Hfirst & Hsize) & Hseg & Hnd).
  destruct (chain_at st s v0 cells i t vt (list_rep_chain _ _ _ _ _ Hrep) Hi)
    as (n & Ht & Hnext).
  rewrite Ha in Hnext. destruct Hnext as (-> & Hne & n' & Hla).
  pose proof (lookup_lt_Some _ _ _ Ha) as Hlt.
  set (st1 := set_freed (union {[a]})
                (set_links (delete a) (set_links (insert t (Link vt n')) st))).
  assert (iterator_remove (Some ip) st = Ok v st1) as Hrun
    by (by erewrite iterator_remove_ok by (done || reflexivity)).
  assert (chain st1 s v0 (delete i cells)) as Hchain
    by (by eapply (chain_delete st st1 s v0 cells i t vt a v n'); try split).
  destruct (linked_list_calculate_size_count st1 lp l s v0 (delete i cells) fuel)
    as (st2 & Hcount & _); try done.
  { apply Hchain. }
  { rewrite length_delete by eauto. lia. }
  { rewrite length_delete by eauto. lia. }
  exists st1, st2. split; [done|]. split; [done|]. split; [|split; [|split; [done|split]]].
  - exists ip, t, vt. split; [done|]. split; [done|].
    change (((s, v0) :: delete i cells) !! i) with ((delete (S i) ((s, v0) :: cells)) !! i).
    rewrite list_lookup_delete_lt by lia. done.
  - subst st1. simpl_state. apply lookup_delete_eq.
  - unfold linked_list_size. erewrite read_size_ok by done. by rewrite Hsize.
  - rewrite Hcount. f_equal. rewrite length_delete by eauto. lia.
Qed.

Lemma iterator_remove_keeps_the_cached_size_witness :
  exists st1 st2,
    iterator_remove (Some 6%positive) state_123_iterator = Ok (int_elem 1) st1 /\
    chain st1 2 calloc_elem [(4%positive, int_elem 2); (5%positive, int_elem 3)] /\
    iterator_pos st1 (Some 6%positive) (Some 1%positive) 2 calloc_elem
      [(4%positive, int_elem 2); (5%positive, int_elem 3)] 0 /\
    links st1 !! 3%positive = None /\
    lists st1 = lists state_123_iterator /\
    linked_list_size (Some 1%positive) st1 = Ok 3 st1 /\
    linked_list_calculate_size 3 (Some 1%positive) st1 = Ok 2 st2.
Proof.
  apply (iterator_remove_keeps_the_cached_size state_123_iterator (Some 6%positive)
           (Some 1%positive) 2%positive calloc_elem
           [(3%positive, int_elem 1); (4%positive, int_elem 2); (5%positive, int_elem 3)]
           0%nat 3%positive (int_elem 1) 3%nat).
  - exact state_123_iterator_rep.
  - exact state_123_iterator_pos.
  - reflexivity.
  - replace (calloc_plan state_123_iterator) with (@nil bool) by (vm_compute; reflexivity).
    simpl. discriminate.
  - simpl. lia.
  - vm_compute. reflexivity.
Defined.

(** X19. [iterator_insert] links a new element in behind the cursor and
    leaves the cursor where it is.  It does not touch the list header
    either: the cached size is now one less than the number of elements
    [linked_list_calculate_size] counts, and the tail pointer is not moved
    when the element went in behind the last one. *)
Theorem iterator_insert_keeps_the_cached_size st iter lst s v0 cells i v fuel :
  list_rep st lst s v0 cells ->
  iterator_pos st iter lst s v0 cells i ->
  calloc_succeeds st ->
  (S (length cells) < fuel)%nat ->
  Z.of_nat (length cells) < 2 ^ 64 - 1 ->
  exists st1 new st2,
    iterator_insert iter v st = Ok tt st1 /\
    chain st1 s v0 (take i cells ++ (new, v) :: drop i cells) /\
    iterator_pos st1 iter lst s v0 (take i cells ++ (new, v) :: drop i cells) i /\
    lists st1 = lists st /\
    linked_list_size lst st1 = Ok (Z.of_nat (length cells)) st1 /\
    linked_list_calculate_size fuel lst st1 = Ok (Z.of_nat (length cells) + 1) st2.
Proof.
  intros Hrep (ip & t & vt & -> & Hit & Hi) Hplan Hfuel Hmax.
  pose proof Hrep as ((lp & l & -> & Hl & Hfirst & Hsize) & Hseg & Hnd).
  pose proof (lookup_lt_Some _ _ _ Hi) as Hlt. simpl in Hlt.
  pose proof (calloc_addr_links st) as Hnew.
  destruct (lseg_insert_after _ _ _ _ i t vt (calloc_addr st) v Hseg Hnd Hi Hnew)
    as (n & Ht & Hseg').
  set (st1 := set_links (insert t (Link vt (Some (calloc_addr st))))
                (set_links (insert (calloc_addr st) (Link v n))
                   (set_calloc_plan (tail (calloc_plan st)) st))).
  assert (iterator_insert (Some ip) v st = Ok tt st1) as Hrun.
  { by rewrite (iterator_insert_ok st ip (Iter (Some t) (Some lp)) t (Link vt n) v Hit eq_refl
                   Ht (calloc_succeeds_head _ Hplan)). }
  set (cells1 := take i cells ++ (calloc_addr st, v) :: drop i cells) in *.
  assert (length cells1 = S (length cells)) as Hlen.
  { subst cells1. rewrite length_app. simpl. rewrite length_take, length_drop. lia. }
  assert (chain st1 s v0 cells1) as Hchain.
  { split; [exact Hseg'|].
    pose proof (lseg_fresh _ _ _ _ _ Hseg Hnew) as Hnotin.
    subst cells1. rewrite fmap_app, fmap_cons, fmap_take, fmap_drop.
    by apply (NoDup_insert_at (s :: cells.*1) (calloc_addr st) (S i)). }
  destruct (linked_list_calculate_size_count st1 lp l s v0 cells1 fuel)
    as (st2 & Hcount & _); try done.
  { exact (calloc_succeeds_head _
             (calloc_succeeds_step st (set_calloc_plan (tail (calloc_plan st)) st)
                Hplan eq_refl)). }
  { lia. }
  { lia. }
  exists st1, (calloc_addr st), st2.
  split; [done|]. split; [done|]. split; [|split; [done|split]].
  - exists ip, t, vt. split; [done|]. split; [done|].
    destruct i as [|j]; [done|]. subst cells1. simpl in Hi |- *.
    rewrite lookup_app_l by (rewrite length_take; lia).
    rewrite lookup_take_lt by lia. done.
  - unfold linked_list_size. erewrite read_size_ok by done. by rewrite Hsize.
  - rewrite Hcount. f_equal. lia.
Qed.

Lemma state_123_iterator_calloc : calloc_succeeds state_123_iterator.
Proof.
  unfold calloc_succeeds.
  replace (calloc_plan state_123_iterator) with (@nil bool) by (vm_compute; reflexivity).
  constructor.
Defined.

Lemma iterator_insert_keeps_the_cached_size_witness :
  exists st1 new st2,
    iterator_insert (Some 6%positive) (int_elem 7) state_123_iterator = Ok tt st1 /\
    chain st1 2 calloc_elem
      [(new, int_elem 7); (3%positive, int_elem 1); (4%positive, int_elem 2);
       (5%positive, int_elem 3)] /\
    iterator_pos st1 (Some 6%positive) (Some 1%positive) 2 calloc_elem
      [(new, int_elem 7); (3%positive, int_elem 1); (4%positive, int_elem 2);
       (5%positive, int_elem 3)] 0 /\
    lists st1 = lists state_123_iterator /\
    linked_list_size (Some 1%positive) st1 = Ok 3 st1 /\
    linked_list_calculate_size 5 (Some 1%positive) st1 = Ok 4 st2.
Proof.
  apply (iterator_insert_keeps_the_cached_size state_123_iterator (Some 6%positive)
           (Some 1%positive) 2%positive calloc_elem
           [(3%positive, int_elem 1); (4%positive, int_elem 2); (5%positive, int_elem 3)]
           0%nat (int_elem 7) 5%nat).
  - exact state_123_iterator_rep.
  - exact state_123_iterator_pos.
  - exact state_123_iterator_calloc.
  - simpl. lia.
  - vm_compute. reflexivity.
Defined.

(** ** Running out of memory *)

(** X20. When the link cannot be allocated, [linked_list_append] and
    [linked_list_prepend] print two lines and do nothing else: the state is
    the one before but for the two lines and the allocation that was tried.
    [linked_list_insert] at index 0 and at index [size] goes through them and
    does the same. *)
Theorem append_and_prepend_without_memory st lst values v plan :
  list_holds st lst values ->
  calloc_plan st = false :: plan ->
  Z.of_nat (length values) <= INT_MAX ->
  linked_list_append lst v st =
    Ok tt (add_stdout (Puts "Append failed due to memory corruption!")
             (add_stdout (Puts "Failed to allocate memory for another link.")
                (set_calloc_plan plan st))) /\
  linked_list_prepend lst v st =
    Ok tt (add_stdout (Puts "Prepend failed due to memory corruption!")
             (add_stdout (Puts "Failed to allocate memory for another link.")
                (set_calloc_plan plan st))) /\
  linked_list_insert lst 0 v st = linked_list_prepend lst v st /\
  (values <> [] ->
   linked_list_insert lst (Z.of_nat (length values)) v st = linked_list_append lst v st).
Proof.
  intros (s & v0 & cells & Hrep & <-) Hplan Hmax. rewrite length_fmap in *.
  pose proof Hrep as ((lp & l & -> & Hl & Hfirst & Hsize) & Hseg & Hnd).
  split; [by apply append_alloc_failure|].
  split; [by eapply prepend_alloc_failure|].
  split.
  - unfold linked_list_insert. rewrite (linked_list_size_bind st lp l) by done. cbv zeta.
    rewrite Hsize, adjust_index_valid by (unfold INT_MAX in *; lia). reflexivity.
  - intros Hne. unfold linked_list_insert.
    rewrite (linked_list_size_bind st lp l) by done. cbv zeta.
    rewrite Hsize, adjust_index_valid by (unfold INT_MAX in *; lia).
    destruct (Z.eqb_spec (Z.of_nat (length cells)) (-1)) as [?|_]; [lia|].
    rewrite to_size_t_id by (unfold INT_MAX in *; lia).
    destruct (Z.eqb_spec (Z.of_nat (length cells)) 0) as [E|_].
    { destruct cells; [done|simpl in E; lia]. }
    by rewrite Z.eqb_refl.
Qed.

Lemma append_and_prepend_without_memory_witness :
  linked_list_append (Some 1%positive) (int_elem 4) state_123_out_of_memory =
    Ok tt (add_stdout (Puts "Append failed due to memory corruption!")
             (add_stdout (Puts "Failed to allocate memory for another link.")
                (set_calloc_plan [] state_123_out_of_memory))) /\
  linked_list_prepend (Some 1%positive) (int_elem 4) state_123_out_of_memory =
    Ok tt (add_stdout (Puts "Prepend failed due to memory corruption!")
             (add_stdout (Puts "Failed to allocate memory for another link.")
                (set_calloc_plan [] state_123_out_of_memory))) /\
  linked_list_insert (Some 1%positive) 0 (int_elem 4) state_123_out_of_memory =
    linked_list_prepend (Some 1%positive) (int_elem 4) state_123_out_of_memory /\
  ([int_elem 1; int_elem 2; int_elem 3] <> [] ->
   linked_list_insert (Some 1%positive) 3 (int_elem 4) state_123_out_of_memory =
     linked_list_append (Some 1%positive) (int_elem 4) state_123_out_of_memory).
Proof.
  apply (append_and_prepend_without_memory state_123_out_of_memory
           (Some 1%positive) [int_elem 1; int_elem 2; int_elem 3] (int_elem 4) []).
  - exists 2%positive, calloc_elem,
      [(3%positive, int_elem 1); (4%positive, int_elem 2); (5%positive, int_elem 3)].
    split; [|reflexivity]. apply list_rep_check_sound. vm_compute. reflexivity.
  - reflexivity.
  - vm_compute. discriminate.
Defined.

Lemma list_iterator_fail st lp l plan :
  lists st !! lp = Some l -> calloc_plan st = false :: plan ->
  list_iterator (Some lp) st = Fault.
Proof.
  intros Hl Hplan. unfold list_iterator.
  erewrite bind_ok by (by apply calloc_iter_fail). cbv beta.
  run read_first_ok. reflexivity.
Qed.

(** X21. [list_iterator] does not look at what [calloc] returns, and no
    function that walks the list with an iterator checks the iterator it
    gets.  When the iterator cannot be allocated they write through [NULL]:
    [linked_list_contains], [linked_list_calculate_size], [linked_list_all]
    and [linked_list_any] on every list, [linked_list_get] and
    [linked_list_remove] with every valid index that is not negative,
    [linked_list_insert] strictly inside the list, and [linked_list_clear] on
    a list that is not empty. *)
Theorem traversals_without_memory st lst values plan fuel :
  list_holds st lst values ->
  calloc_plan st = false :: plan ->
  Z.of_nat (length values) <= INT_MAX ->
  list_iterator lst st = Fault /\
  (forall v, linked_list_contains fuel lst v st = Fault) /\
  linked_list_calculate_size fuel lst st = Fault /\
  (forall (E : Type) (prop : predicate E) extra,
      linked_list_all fuel lst prop extra st = Fault /\
      linked_list_any fuel lst prop extra st = Fault) /\
  (forall i, 0 <= i < Z.of_nat (length values) ->
             linked_list_get lst i st = Fault /\ linked_list_remove lst i st = Fault) /\
  (forall i v, 0 < i < Z.of_nat (length values) -> linked_list_insert lst i v st = Fault) /\
  (values <> [] -> linked_list_clear fuel lst st = Fault).
Proof.
  intros (s & v0 & cells & Hrep & <-) Hplan Hmax. rewrite length_fmap in *.
  pose proof Hrep as ((lp & l & -> & Hl & Hfirst & Hsize) & Hseg & Hnd).
  pose proof (list_iterator_fail st lp l plan Hl Hplan) as Hfail.
  assert (forall (A B : Type) (k : ptr -> M B), bind (list_iterator (Some lp)) k st = Fault)
    as Hbind by (intros A B k; unfold bind; by rewrite Hfail).
  split; [done|]. split; [intros v; by apply (Hbind unit)|].
  split; [by apply (Hbind unit)|].
  split; [intros E prop extra; split; by apply (Hbind unit)|].
  split; [|split].
  - intros i Hi.
    assert (list_inner_adjust_index i (to_size_t (to_int (to_int (list_size l) - 1))) = i)
      as Hadj.
    { rewrite Hsize, upper_limit_nonempty by lia.
      apply adjust_index_valid; unfold INT_MAX in *; lia. }
    split.
    + unfold linked_list_get. rewrite (linked_list_size_bind st lp l) by done. cbv zeta.
      rewrite Hadj. destruct (Z.eqb_spec i (-1)) as [?|_]; [lia|]. by apply (Hbind unit).
    + unfold linked_list_remove. rewrite (linked_list_size_bind st lp l) by done. cbv zeta.
      rewrite Hadj. destruct (Z.eqb_spec i (-1)) as [?|_]; [lia|]. by apply (Hbind unit).
  - intros i v Hi. unfold linked_list_insert.
    rewrite (linked_list_size_bind st lp l) by done. cbv zeta.
    rewrite Hsize, adjust_index_valid by (unfold INT_MAX in *; lia).
    destruct (Z.eqb_spec i (-1)) as [?|_]; [lia|].
    rewrite to_size_t_id by (unfold INT_MAX in *; lia).
    destruct (Z.eqb_spec i 0) as [?|_]; [lia|].
    destruct (Z.eqb_spec i (Z.of_nat (length cells))) as [?|_]; [lia|].
    by apply (Hbind unit).
  - intros Hne. unfold linked_list_clear, linked_list_is_empty.
    rewrite bind_assoc, (linked_list_size_bind st lp l) by done. rewrite Hsize.
    destruct (Z.eqb_spec (Z.of_nat (length cells)) 0) as [E|_].
    { destruct cells; [done|simpl in E; lia]. }
    rewrite bind_ret. cbn [negb]. by apply (Hbind unit).
Qed.

Lemma traversals_without_memory_witness :
  list_iterator (Some 1%positive) state_123_out_of_memory = Fault /\
  (forall v, linked_list_contains 4 (Some 1%positive) v state_123_out_of_memory
             = Fault) /\
  linked_list_calculate_size 4 (Some 1%positive) state_123_out_of_memory = Fault /\
  (forall (E : Type) (prop : predicate E) extra,
      linked_list_all 4 (Some 1%positive) prop extra state_123_out_of_memory
      = Fault /\
      linked_list_any 4 (Some 1%positive) prop extra state_123_out_of_memory
      = Fault) /\
  (forall i, 0 <= i < 3 ->
             linked_list_get (Some 1%positive) i state_123_out_of_memory = Fault /\
             linked_list_remove (Some 1%positive) i state_123_out_of_memory
             = Fault) /\
  (forall i v, 0 < i < 3 ->
               linked_list_insert (Some 1%positive) i v state_123_out_of_memory
               = Fault) /\
  ([int_elem 1; int_elem 2; int_elem 3] <> [] ->
   linked_list_clear 4 (Some 1%positive) state_123_out_of_memory = Fault).
Proof.
  apply (traversals_without_memory state_123_out_of_memory
           (Some 1%positive) [int_elem 1; int_elem 2; int_elem 3] [] 4%nat).
  - exists 2%positive, calloc_elem,
      [(3%positive, int_elem 1); (4%positive, int_elem 2); (5%positive, int_elem 3)].
    split; [|reflexivity]. apply list_rep_check_sound. vm_compute. reflexivity.
  - reflexivity.
  - vm_compute. discriminate.
Defined.

(** ** A list without a comparator *)

(** X22. [linked_list_contains] calls the comparator of the list without
    looking at it.  On a list that was created with a [NULL] comparator it
    returns false when the list is empty, and calls through [NULL] as soon
    as the list has an element. *)
Theorem contains_without_comparator st lst values v fuel :
  list_holds st lst values ->
  list_has_fun st lst None ->
  head (calloc_plan st) <> Some false ->
  (0 < fuel)%nat ->
  (values = [] -> exists st', linked_list_contains fuel lst v st = Ok false st') /\
  (values <> [] -> linked_list_contains fuel lst v st = Fault).
Proof.
  intros (s & v0 & cells & Hrep & <-) (lp & l & -> & Hl & Hfun) Hplan Hfuel.
  pose proof Hrep as ((lp' & l' & E & Hl' & Hfirst & Hsize) & Hseg & Hnd).
  injection E as <-. rewrite Hl in Hl'. injection Hl' as <-.
  destruct fuel as [|fuel]; [lia|].
  unfold linked_list_contains.
  run list_iterator_ok. rewrite Hfirst. cbn [while].
  simpl in Hseg. destruct Hseg as (_ & n & Hs & Hrest).
  destruct cells as [|[c vc] cells]; simpl in Hrest.
  - subst n. split; [|done]. intros _.
    run iterator_has_next_ok. cbn [link_next].
    replace (negb (ptr_eqb NULL NULL)) with false by reflexivity. cbv iota.
    run free_iter_ok. by eexists.
  - destruct Hrest as (-> & nc & Hc & _). split; [done|]. intros _.
    run iterator_has_next_ok. cbn [link_next].
    replace (negb (ptr_eqb (Some c) NULL)) with true by reflexivity. cbv iota.
    run iterator_next_ok.
    run read_fun_ok. rewrite Hfun. reflexivity.
Qed.

Lemma contains_without_comparator_witness :
  ([int_elem 1] = [] ->
   exists st',
     linked_list_contains 1 (Some 1%positive) (int_elem 1) state_1_no_comparator
     = Ok false st') /\
  ([int_elem 1] <> [] ->
   linked_list_contains 1 (Some 1%positive) (int_elem 1) state_1_no_comparator = Fault).
Proof.
  apply (contains_without_comparator state_1_no_comparator (Some 1%positive)
           [int_elem 1] (int_elem 1) 1%nat).
  - exists 2%positive, calloc_elem, [(3%positive, int_elem 1)]. split; [|reflexivity].
    apply list_rep_check_sound. vm_compute. reflexivity.
  - exists 1%positive, (List (Some 2%positive) (Some 3%positive) 1 None).
    split; [reflexivity|]. split; [vm_compute; reflexivity|reflexivity].
  - replace (calloc_plan state_1_no_comparator) with (@nil bool) by (vm_compute; reflexivity).
    simpl. discriminate.
  - lia.
Defined.

(** ** What the operations never do

    These properties hold of every run that returns, from every state: they
    are read off the code by going through it statement by statement. *)

Section Respects.

Variable R : state -> state -> Prop.
Hypothesis R_refl : forall st, R st st.
Hypothesis R_trans : forall st1 st2 st3, R st1 st2 -> R st2 st3 -> R st1 st3.

Lemma respects_ret {A : Type} (a : A) : respects R (ret a).
Proof. intros st b st' [= <- <-]. apply R_refl. Qed.

Lemma respects_fault {A : Type} : respects R (@fault A).
Proof. intros st a st' H. discriminate H. Qed.

Lemma respects_bind {A B : Type} (m : M A) (k : A -> M B) :
  respects R m -> (forall a, respects R (k a)) -> respects R (bind m k).
Proof.
  intros Hm Hk st b st' H. unfold bind in H.
  destruct (m st) as [a st1| |] eqn:E; try discriminate.
  eapply R_trans; [by eapply Hm|by eapply Hk].
Qed.

Lemma respects_for_loop n (body : M unit) : respects R body -> respects R (for_loop n body).
Proof.
  intros Hbody. induction n as [|n IH]; simpl.
  - apply respects_ret.
  - apply respects_bind; [done|]. by intros _.
Qed.

Lemma respects_while {A : Type} fuel (cond : A -> M bool) (body : A -> M (control A)) :
  (forall a, respects R (cond a)) -> (forall a, respects R (body a)) ->
  forall a, respects R (while fuel cond body a).
Proof.
  intros Hcond Hbody. induction fuel as [|fuel IH]; intros a; simpl.
  - intros st b st' H. discriminate H.
  - apply respects_bind; [done|]. intros [|]; [|apply respects_ret].
    apply respects_bind; [done|]. intros [a'|a']; [apply IH|apply respects_ret].
Qed.

End Respects.

Create HintDb program discriminated.

#[export] Hint Unfold
  read_value read_next write_value write_next
  read_first read_last read_size read_fun write_first write_fun
  read_current read_list write_current write_list
  calloc_link calloc_list calloc_iter call_eq call_predicate call_apply
  link_new list_iterator iterator_insert iterator_has_next iterator_next iterator_remove
  iterator_reset iterator_current iterator_destroy
  linked_list_create linked_list_size linked_list_is_empty linked_list_clear
  linked_list_destroy linked_list_append linked_list_prepend linked_list_insert
  linked_list_remove linked_list_get linked_list_contains linked_list_calculate_size
  linked_list_all linked_list_any linked_list_apply_to_all : program.

(** The two assignments to a list header outside [linked_list_create] are
    unfolded last: a relation on the headers has lemmas for them. *)
Create HintDb header_writes discriminated.

#[export] Hint Unfold write_last write_size : header_writes.

(** A statement that is not made of other statements: run it and look at
    the state it leaves. *)
Ltac respects_leaf solve_R :=
  let st := fresh "st" in
  let a := fresh "a" in
  let st' := fresh "st'" in
  let H := fresh "H" in
  intros st a st' H;
  unfold calloc_decide, load_link, store_link, load_list, store_list, load_iter, store_iter,
    free_link, free_list, free_iter, puts, printf_invalid_index, fault, ret in H;
  cbv beta in H;
  repeat (case_match; try discriminate);
  simplify_eq; solve_R.

(** Going through a program: [special] closes the statements the relation
    needs a lemma for, [solve_R] the relation on the state a leaf leaves. *)
Ltac respects_go Hrefl Htrans special solve_R :=
  repeat
    match goal with
    | |- respects _ _ => solve [special]
    | |- respects _ (bind _ _) => apply (respects_bind _ Htrans); [|intros]
    | |- respects _ (ret _) => apply (respects_ret _ Hrefl)
    | |- respects _ fault => apply respects_fault
    | |- respects _ (for_loop _ _) => apply (respects_for_loop _ Hrefl Htrans)
    | |- respects _ (while _ _ _ _) => apply (respects_while _ Hrefl Htrans); intros
    | |- respects _ (if ?b then _ else _) => destruct b
    | |- respects _ (match ?x with _ => _ end) => destruct x
    | |- respects _ _ => progress cbv zeta
    | |- respects _ _ => progress autounfold with program
    | |- respects _ _ => progress autounfold with header_writes
    | |- respects _ _ => respects_leaf solve_R
    end.

Lemma same_heap_refl st : same_heap st st.
Proof. by split. Qed.

Lemma same_heap_trans st1 st2 st3 : same_heap st1 st2 -> same_heap st2 st3 -> same_heap st1 st3.
Proof. intros [H1 H2] [H3 H4]. split; congruence. Qed.

Ltac same_heap_go :=
  respects_go same_heap_refl same_heap_trans fail ltac:(split; reflexivity).

(** X23. The functions that ask something of a list change neither a link
    nor a list header, whatever the state they are called in:
    [linked_list_size], [linked_list_is_empty], [linked_list_get],
    [linked_list_contains], [linked_list_calculate_size], [linked_list_all],
    [linked_list_any], and of the iterator [list_iterator],
    [iterator_has_next], [iterator_next], [iterator_current],
    [iterator_reset] and [iterator_destroy]. *)
Theorem queries_leave_the_heap_alone :
  (forall lst, respects same_heap (linked_list_size lst)) /\
  (forall lst, respects same_heap (linked_list_is_empty lst)) /\
  (forall lst index, respects same_heap (linked_list_get lst index)) /\
  (forall fuel lst v, respects same_heap (linked_list_contains fuel lst v)) /\
  (forall fuel lst, respects same_heap (linked_list_calculate_size fuel lst)) /\
  (forall (E : Type) fuel lst (prop : predicate E) extra,
      respects same_heap (linked_list_all fuel lst prop extra)) /\
  (forall (E : Type) fuel lst (prop : predicate E) extra,
      respects same_heap (linked_list_any fuel lst prop extra)) /\
  (forall lst, respects same_heap (list_iterator lst)) /\
  (forall iter, respects same_heap (iterator_has_next iter)) /\
  (forall iter, respects same_heap (iterator_next iter)) /\
  (forall iter, respects same_heap (iterator_current iter)) /\
  (forall iter, respects same_heap (iterator_reset iter)) /\
  (forall iter, respects same_heap (iterator_destroy iter)).
Proof.
  repeat apply conj; intros; same_heap_go.
Qed.

Lemma queries_leave_the_heap_alone_witness :
  same_heap state_123 (final_state (linked_list_get (Some 1%positive) 1 state_123)) /\
  same_heap state_123
    (final_state (linked_list_contains 4 (Some 1%positive) (int_elem 2) state_123)).
Proof.
  destruct queries_leave_the_heap_alone as (_ & _ & Hget & Hcontains & _). split.
  - apply (Hget (Some 1%positive) 1 state_123 (int_elem 2)). vm_compute. reflexivity.
  - apply (Hcontains 4%nat (Some 1%positive) (int_elem 2) state_123 true).
    vm_compute. reflexivity.
Defined.

Lemma quiet_refl st : quiet st st.
Proof. by split. Qed.

Lemma quiet_trans st1 st2 st3 : quiet st1 st2 -> quiet st2 st3 -> quiet st1 st3.
Proof. unfold quiet, same_calls, same_stdout. intros [H1 H2] [H3 H4]. split; congruence. Qed.

Lemma same_calls_refl st : same_calls st st.
Proof. done. Qed.

Lemma same_calls_trans st1 st2 st3 :
  same_calls st1 st2 -> same_calls st2 st3 -> same_calls st1 st3.
Proof. unfold same_calls. congruence. Qed.

Lemma same_stdout_refl st : same_stdout st st.
Proof. done. Qed.

Lemma same_stdout_trans st1 st2 st3 :
  same_stdout st1 st2 -> same_stdout st2 st3 -> same_stdout st1 st3.
Proof. unfold same_stdout. congruence. Qed.

Ltac quiet_go := respects_go quiet_refl quiet_trans fail ltac:(split; reflexivity).

Ltac same_calls_go := respects_go same_calls_refl same_calls_trans fail ltac:(reflexivity).

Ltac same_stdout_go := respects_go same_stdout_refl same_stdout_trans fail ltac:(reflexivity).

(** X24. Only the insertions print, and only the searches and
    [linked_list_apply_to_all] call a function of the caller.  Creating,
    destroying, clearing, removing, reading and counting, and every iterator
    function but [iterator_insert], neither print a line nor call a function
    pointer; the four inserting functions and [link_new] call no function
    pointer;
    [linked_list_contains], [linked_list_all], [linked_list_any] and
    [linked_list_apply_to_all] print nothing. *)
Theorem printing_and_callbacks :
  ((forall f, respects quiet (linked_list_create f)) /\
   (forall fuel lst, respects quiet (linked_list_destroy fuel lst)) /\
   (forall fuel lst, respects quiet (linked_list_clear fuel lst)) /\
   (forall lst index, respects quiet (linked_list_remove lst index)) /\
   (forall lst index, respects quiet (linked_list_get lst index)) /\
   (forall lst, respects quiet (linked_list_size lst)) /\
   (forall lst, respects quiet (linked_list_is_empty lst)) /\
   (forall fuel lst, respects quiet (linked_list_calculate_size fuel lst)) /\
   (forall lst, respects quiet (list_iterator lst)) /\
   (forall iter, respects quiet (iterator_has_next iter)) /\
   (forall iter, respects quiet (iterator_next iter)) /\
   (forall iter, respects quiet (iterator_current iter)) /\
   (forall iter, respects quiet (iterator_remove iter)) /\
   (forall iter, respects quiet (iterator_reset iter)) /\
   (forall iter, respects quiet (iterator_destroy iter))) /\
  ((forall lst v, respects same_calls (linked_list_append lst v)) /\
   (forall lst v, respects same_calls (linked_list_prepend lst v)) /\
   (forall lst index v, respects same_calls (linked_list_insert lst index v)) /\
   (forall iter v, respects same_calls (iterator_insert iter v)) /\
   (forall v next, respects same_calls (link_new v next))) /\
  ((forall fuel lst v, respects same_stdout (linked_list_contains fuel lst v)) /\
   (forall (E : Type) fuel lst (prop : predicate E) extra,
       respects same_stdout (linked_list_all fuel lst prop extra)) /\
   (forall (E : Type) fuel lst (prop : predicate E) extra,
       respects same_stdout (linked_list_any fuel lst prop extra)) /\
   (forall (E : Type) fuel lst (fun_ : apply_function E) extra,
       respects same_stdout (linked_list_apply_to_all fuel lst fun_ extra))).
Proof.
  split; [|split].
  - repeat apply conj; intros; quiet_go.
  - repeat apply conj; intros; same_calls_go.
  - repeat apply conj; intros; same_stdout_go.
Qed.

Lemma printing_and_callbacks_witness :
  quiet state_123 (final_state (linked_list_remove (Some 1%positive) 1 state_123)) /\
  same_calls state_123
    (final_state (linked_list_insert (Some 1%positive) 7 (int_elem 7) state_123)) /\
  same_stdout state_123
    (final_state (linked_list_contains 4 (Some 1%positive) (int_elem 2) state_123)).
Proof.
  destruct printing_and_callbacks
    as ((_ & _ & _ & Hremove & _) & (_ & _ & Hinsert & _) & (Hcontains & _)).
  split; [|split].
  - apply (Hremove (Some 1%positive) 1 state_123 (int_elem 2)). vm_compute. reflexivity.
  - apply (Hinsert (Some 1%positive) 7 (int_elem 7) state_123 tt). vm_compute. reflexivity.
  - apply (Hcontains 4%nat (Some 1%positive) (int_elem 2) state_123 true).
    vm_compute. reflexivity.
Defined.

Lemma keeps_headers_refl st : keeps_headers st st.
Proof. intros lp l Hl. by exists l. Qed.

Lemma keeps_headers_trans st1 st2 st3 :
  keeps_headers st1 st2 -> keeps_headers st2 st3 -> keeps_headers st1 st3.
Proof.
  intros H1 H2 lp l Hl.
  destruct (H1 lp l Hl) as (l' & Hl' & Hf' & Hc').
  destruct (H2 lp l' Hl') as (l'' & Hl'' & Hf'' & Hc'').
  exists l''. split; [done|]. split; congruence.
Qed.

Lemma keeps_headers_same_lists st st' : lists st' = lists st -> keeps_headers st st'.
Proof. intros E lp l Hl. exists l. by rewrite E. Qed.

Lemma keeps_headers_store st lp l l' :
  lists st !! lp = Some l -> list_first l' = list_first l -> list_fun l' = list_fun l ->
  keeps_headers st (set_lists (insert lp l') st).
Proof.
  intros Hl Hf Hc lp2 l2 Hl2. simpl_state.
  destruct (decide (lp2 = lp)) as [->|Hne].
  - exists l'. rewrite lookup_insert_eq. rewrite Hl in Hl2. injection Hl2 as <-. done.
  - exists l2. by rewrite lookup_insert_ne.
Qed.

Lemma keeps_headers_write_last lst p : respects keeps_headers (write_last lst p).
Proof.
  intros st a st' H. unfold write_last, bind, load_list, store_list in H.
  destruct lst as [lp|]; [|done].
  destruct (lists st !! lp) as [l|] eqn:Hl; [|done].
  rewrite Hl in H. injection H as <- <-. by eapply keeps_headers_store.
Qed.

Lemma keeps_headers_write_size lst n : respects keeps_headers (write_size lst n).
Proof.
  intros st a st' H. unfold write_size, bind, load_list, store_list in H.
  destruct lst as [lp|]; [|done].
  destruct (lists st !! lp) as [l|] eqn:Hl; [|done].
  rewrite Hl in H. injection H as <- <-. by eapply keeps_headers_store.
Qed.

Ltac keeps_headers_go :=
  respects_go keeps_headers_refl keeps_headers_trans
    ltac:(first [apply keeps_headers_write_last | apply keeps_headers_write_size])
    ltac:(apply keeps_headers_same_lists; reflexivity).

(** [linked_list_create] writes the four fields of the header it has
    allocated, and of no other. *)
Lemma linked_list_create_keeps_headers f : respects keeps_headers (linked_list_create f).
Proof.
  intros st a st' H.
  pose proof (calloc_addr_lists st) as Hfresh.
  unfold linked_list_create, calloc_list, calloc_link, calloc_decide, write_last, write_first,
    write_size, write_fun, bind, load_list, store_list, ret in H.
  repeat (case_match; try discriminate); simplify_eq.
  all: intros q l Hq; exists l; simpl_state.
  all: change (calloc_addr (set_calloc_plan (tail (calloc_plan st)) st)) with (calloc_addr st).
  all: rewrite !lookup_insert_ne by (intros <-; congruence); done.
Qed.

(** X25. Once a list is created, its sentinel and its comparator stay: no
    function but [linked_list_destroy] takes a list header away, and none
    assigns to the [first] or the [fun] of a list that is there.  This holds
    of every run that returns, of every function of the file other than
    [linked_list_destroy], and for every list header of the state. *)
Theorem sentinel_and_comparator_are_fixed :
  (forall f, respects keeps_headers (linked_list_create f)) /\
  (forall lst v, respects keeps_headers (linked_list_append lst v)) /\
  (forall lst v, respects keeps_headers (linked_list_prepend lst v)) /\
  (forall lst index v, respects keeps_headers (linked_list_insert lst index v)) /\
  (forall lst index, respects keeps_headers (linked_list_remove lst index)) /\
  (forall fuel lst, respects keeps_headers (linked_list_clear fuel lst)) /\
  (forall lst index, respects keeps_headers (linked_list_get lst index)) /\
  (forall fuel lst v, respects keeps_headers (linked_list_contains fuel lst v)) /\
  (forall lst, respects keeps_headers (linked_list_size lst)) /\
  (forall fuel lst, respects keeps_headers (linked_list_calculate_size fuel lst)) /\
  (forall lst, respects keeps_headers (linked_list_is_empty lst)) /\
  (forall (E : Type) fuel lst (prop : predicate E) extra,
      respects keeps_headers (linked_list_all fuel lst prop extra)) /\
  (forall (E : Type) fuel lst (prop : predicate E) extra,
      respects keeps_headers (linked_list_any fuel lst prop extra)) /\
  (forall (E : Type) fuel lst (fun_ : apply_function E) extra,
      respects keeps_headers (linked_list_apply_to_all fuel lst fun_ extra)) /\
  (forall v next, respects keeps_headers (link_new v next)) /\
  (forall lst, respects keeps_headers (list_iterator lst)) /\
  (forall iter v, respects keeps_headers (iterator_insert iter v)) /\
  (forall iter, respects keeps_headers (iterator_has_next iter)) /\
  (forall iter, respects keeps_headers (iterator_next iter)) /\
  (forall iter, respects keeps_headers (iterator_remove iter)) /\
  (forall iter, respects keeps_headers (iterator_reset iter)) /\
  (forall iter, respects keeps_headers (iterator_current iter)) /\
  (forall iter, respects keeps_headers (iterator_destroy iter)).
Proof.
  split; [exact linked_list_create_keeps_headers|].
  repeat apply conj; intros; keeps_headers_go.
Qed.

Lemma sentinel_and_comparator_are_fixed_witness :
  keeps_headers state_123 (final_state (linked_list_clear 4 (Some 1%positive) state_123)).
Proof.
  destruct sentinel_and_comparator_are_fixed as (_ & _ & _ & _ & _ & Hclear & _).
  apply (Hclear 4%nat (Some 1%positive) state_123 tt). vm_compute. reflexivity.
Defined.

(** ** Finding what was inserted *)

Lemma linked_list_insert_keeps_headers lst index v :
  respects keeps_headers (linked_list_insert lst index v).
Proof. keeps_headers_go. Qed.

Lemma linked_list_contains_result st lst s v0 cells cmp v fuel :
  list_rep st lst s v0 cells ->
  list_has_fun st lst (Some cmp) ->
  head (calloc_plan st) <> Some false ->
  (length cells < fuel)%nat ->
  exists st',
    linked_list_contains fuel lst v st = Ok (existsb (fun x => cmp x v) cells.*2) st'.
Proof.
  intros Hrep (lp & l & -> & Hl & Hfun) Hplan Hfuel.
  pose proof Hrep as ((lp' & l' & E & Hl' & Hfirst & Hsize) & Hseg & Hnd).
  injection E as <-. rewrite Hl in Hl'. injection Hl' as <-.
  unfold linked_list_contains.
  run list_iterator_ok. rewrite Hfirst.
  set (st1 := set_iters _ _).
  destruct (contains_loop (calloc_addr st) (Some lp) lp l cmp v cells st1 s v0 fuel) as
    (st' & it' & Hrun & Hlinks & Hlists & Hit' & Hcalls);
    [exact Hfuel| | | | |].
  { subst st1. simpl_state. apply lookup_insert_eq. }
  { subst st1. simpl_state. exact Hseg. }
  { subst st1. simpl_state. exact Hl. }
  { exact Hfun. }
  run Hrun.
  run free_iter_ok.
  by eexists.
Qed.

(** X26. An element that was just inserted is found: after
    [linked_list_insert] with a valid index, [linked_list_contains] returns
    true for the element, provided the comparator of the list holds of the
    element and itself. *)
Theorem inserted_element_is_found st lst values index v cmp fuel :
  list_intact st lst values ->
  list_has_fun st lst (Some cmp) ->
  calloc_succeeds st ->
  Z.of_nat (length values) < INT_MAX ->
  INT_MIN <= index <= INT_MAX ->
  0 <= insert_position (Z.of_nat (length values)) index <= Z.of_nat (length values) ->
  cmp v v = true ->
  (S (length values) < fuel)%nat ->
  exists st1 st2,
    linked_list_insert lst index v st = Ok tt st1 /\
    linked_list_contains fuel lst v st1 = Ok true st2.
Proof.
  intros (s & v0 & cells & Hrep & Htail & <-) Hfun Hplan Hmax Hindex Hpos Hcmp Hfuel.
  rewrite length_fmap in *.
  set (pos := insert_position (Z.of_nat (length cells)) index) in *.
  rewrite (insert_index_position st lst s v0 cells index) by (done || lia). fold pos.
  destruct (linked_list_insert_ok st lst s v0 cells (Z.to_nat pos) v Hrep)
    as (st1 & new & Hrun & Hrep1 & _ & Hplan1); [done|done|lia|done|].
  assert (list_has_fun st1 lst (Some cmp)) as Hfun1.
  { destruct Hfun as (lp & l & -> & Hl & Hc).
    destruct (linked_list_insert_keeps_headers _ _ _ _ _ _ Hrun lp l Hl)
      as (l' & Hl' & _ & Hc').
    exists lp, l'. split; [done|]. split; [done|congruence]. }
  destruct (linked_list_contains_result st1 lst s v0 _ cmp v fuel Hrep1 Hfun1)
    as (st2 & Hcontains).
  { by apply calloc_succeeds_head. }
  { rewrite length_app. simpl. rewrite length_take, length_drop. lia. }
  exists st1, st2. split; [done|]. rewrite Hcontains. f_equal.
  apply existsb_exists. exists v. split; [|done].
  rewrite values_insert_at. apply in_or_app. right. by left.
Qed.

Lemma inserted_element_is_found_witness :
  exists st1 st2,
    linked_list_insert (Some 1%positive) 1 (int_elem 7) state_123 = Ok tt st1 /\
    linked_list_contains 5 (Some 1%positive) (int_elem 7) st1 = Ok true st2.
Proof.
  apply (inserted_element_is_found state_123 (Some 1%positive)
           [int_elem 1; int_elem 2; int_elem 3] 1 (int_elem 7) compare_int_elements 5%nat).
  - exact state_123_intact.
  - exists 1%positive, (List (Some 2%positive) (Some 5%positive) 3 (Some compare_int_elements)).
    split; [reflexivity|]. split; [vm_compute; reflexivity|reflexivity].
  - exact state_123_calloc.
  - vm_compute. reflexivity.
  - vm_compute. split; discriminate.
  - vm_compute. split; discriminate.
  - reflexivity.
  - simpl. lia.
Defined.

(** ** What a change of one list does to the rest of the heap *)

(** The states the inserting and removing functions end in, component by
    component. *)
Lemma linked_list_prepend_run st lp l s v0 n v :
  lists st !! lp = Some l -> list_first l = Some s ->
  links st !! s = Some (Link v0 n) ->
  head (calloc_plan st) <> Some false ->
  exists st' l',
    linked_list_prepend (Some lp) v st = Ok tt st' /\
    links st' = <[s:=Link v0 (Some (calloc_addr st))]>
                  (<[calloc_addr st:=Link v n]> (links st)) /\
    lists st' = <[lp:=l']> (lists st) /\
    iters st' = iters st /\ stdout st' = stdout st /\ calls st' = calls st.
Proof.
  intros Hl Hfirst Hs Hplan.
  pose proof (calloc_addr_links st) as Hnew.
  assert (s <> calloc_addr st) as Hne by (intros E; rewrite <- E in Hnew; congruence).
  unfold linked_list_prepend.
  run read_first_ok. rewrite Hfirst.
  run read_next_ok. simpl.
  run link_new_ok.
  run read_first_ok. run read_last_ok. rewrite Hfirst.
  destruct (ptr_eqb (Some s) (list_last l)).
  - run write_last_ok. run read_first_ok. simpl. rewrite Hfirst. run write_next_ok.
    run read_size_ok.
    erewrite write_size_ok by lookup.
    eexists. eexists. split; [reflexivity|]. simpl_state.
    split; [done|]. split; [|done]. by rewrite insert_insert_eq.
  - run read_first_ok. rewrite Hfirst. run write_next_ok. run read_size_ok.
    erewrite write_size_ok by lookup.
    eexists. eexists. split; [reflexivity|]. simpl_state. done.
Qed.

Lemma linked_list_append_run st lp l t vt v :
  lists st !! lp = Some l -> list_last l = Some t ->
  links st !! t = Some (Link vt NULL) ->
  head (calloc_plan st) <> Some false ->
  exists st' l',
    linked_list_append (Some lp) v st = Ok tt st' /\
    links st' = <[t:=Link vt (Some (calloc_addr st))]>
                  (<[calloc_addr st:=Link v NULL]> (links st)) /\
    lists st' = <[lp:=l']> (lists st) /\
    iters st' = iters st /\ stdout st' = stdout st /\ calls st' = calls st.
Proof.
  intros Hl Hlast Ht Hplan.
  pose proof (calloc_addr_links st) as Hnew.
  assert (t <> calloc_addr st) as Hne by (intros E; rewrite <- E in Hnew; congruence).
  unfold linked_list_append.
  run link_new_ok.
  run read_last_ok. rewrite Hlast.
  run write_next_ok. run write_last_ok. run read_size_ok.
  erewrite write_size_ok by lookup.
  eexists. eexists. split; [reflexivity|]. simpl_state.
  split; [done|]. split; [|done]. by rewrite insert_insert_eq.
Qed.

Lemma linked_list_insert_inside_run st lp l s v0 cells i t vt n v :
  lists st !! lp = Some l -> list_first l = Some s ->
  list_size l = Z.of_nat (length cells) ->
  lseg (links st) (Some s) ((s, v0) :: cells) NULL ->
  ((s, v0) :: cells) !! i = Some (t, vt) ->
  links st !! t = Some (Link vt n) ->
  (0 < i < length cells)%nat ->
  Z.of_nat (length cells) < INT_MAX ->
  calloc_succeeds st ->
  exists st' l' new,
    linked_list_insert (Some lp) (Z.of_nat i) v st = Ok tt st' /\
    links st' = <[t:=Link vt (Some new)]> (<[new:=Link v n]> (links st)) /\
    links st !! new = None /\
    lists st' = <[lp:=l']> (lists st) /\
    iters st' = iters st /\ stdout st' = stdout st /\ calls st' = calls st.
Proof.
  intros Hl Hfirst Hsize Hseg Hcur Ht Hi Hmax Hplan.
  destruct (lseg_split _ _ _ _ _ _ _ Hseg Hcur) as (n0 & Hpre & Ht0 & _).
  rewrite Ht in Ht0. injection Ht0 as <-.
  set (st1 := set_calloc_plan (tail (calloc_plan st)) st).
  assert (calloc_succeeds st1) as Hplan1 by (by eapply calloc_succeeds_step).
  unfold linked_list_insert. rewrite (linked_list_size_bind st lp l) by done. cbv zeta.
  rewrite Hsize.
  rewrite adjust_index_valid by (unfold INT_MAX in *; lia).
  destruct (Z.eqb_spec (Z.of_nat i) (-1)) as [?|_]; [lia|].
  rewrite to_size_t_id by (unfold INT_MAX in *; lia).
  destruct (Z.eqb_spec (Z.of_nat i) 0) as [?|_]; [lia|].
  destruct (Z.eqb_spec (Z.of_nat i) (Z.of_nat (length cells))) as [?|_]; [lia|].
  rewrite Nat2Z.id.
  run list_iterator_ok. rewrite Hfirst. fold st1.
  match goal with
  | |- context [bind _ _ ?st2] =>
      pose proof (for_loop_next st2 (calloc_addr st) (Some lp)
                    (take i ((s, v0) :: cells)) (Some s) t vt n) as Hloop
  end.
  rewrite length_take_le in Hloop by (simpl; lia).
  run Hloop.
  run iterator_insert_ok.
  run read_size_ok.
  run write_size_ok.
  erewrite free_iter_ok by lookup.
  eexists. eexists. eexists. split; [reflexivity|]. simpl_state.
  split; [reflexivity|]. split.
  { match goal with |- _ !! calloc_addr ?x = None => exact (calloc_addr_links x) end. }
  split; [done|]. split; [|done].
  rewrite insert_insert_eq, delete_insert_eq. apply delete_id, calloc_addr_iters.
Qed.

Lemma linked_list_remove_run st lp l s v0 cells i t vt a v n :
  lists st !! lp = Some l -> list_first l = Some s ->
  list_size l = Z.of_nat (length cells) ->
  lseg (links st) (Some s) ((s, v0) :: cells) NULL ->
  ((s, v0) :: cells) !! i = Some (t, vt) -> cells !! i = Some (a, v) ->
  links st !! t = Some (Link vt (Some a)) -> links st !! a = Some (Link v n) -> t <> a ->
  Z.of_nat (length cells) <= INT_MAX ->
  head (calloc_plan st) <> Some false ->
  exists st' l',
    linked_list_remove (Some lp) (Z.of_nat i) st = Ok v st' /\
    links st' = delete a (<[t:=Link vt n]> (links st)) /\
    lists st' = <[lp:=l']> (lists st) /\
    iters st' = iters st /\ stdout st' = stdout st /\ calls st' = calls st.
Proof.
  intros Hl Hfirst Hsize Hseg Hcur Hi Ht Ha Hne Hmax Hplan.
  pose proof (lookup_lt_Some _ _ _ Hi) as Hlt.
  destruct (lseg_split _ _ _ _ _ _ _ Hseg Hcur) as (m & Hpre & Ht' & _).
  rewrite Ht in Ht'. injection Ht' as <-.
  unfold linked_list_remove. rewrite (linked_list_size_bind st lp l) by done. cbv zeta.
  rewrite Hsize.
  rewrite upper_limit_nonempty by lia.
  rewrite adjust_index_valid by (unfold INT_MAX in *; lia).
  destruct (Z.eqb_spec (Z.of_nat i) (-1)) as [?|_]; [lia|].
  rewrite to_size_t_id by (unfold INT_MAX in *; lia). rewrite Nat2Z.id.
  run list_iterator_ok. rewrite Hfirst.
  match goal with
  | |- context [bind _ _ ?st1] =>
      pose proof (for_loop_next st1 (calloc_addr st) (Some lp)
                    (take i ((s, v0) :: cells)) (Some s) t vt (Some a)) as Hloop
  end.
  rewrite length_take_le in Hloop by (simpl; lia).
  run Hloop.
  run iterator_remove_ok.
  run read_size_ok.
  run write_size_ok.
  run free_iter_ok.
  eexists. eexists. split; [reflexivity|]. simpl_state.
  split; [done|]. split; [done|]. split; [|done].
  rewrite insert_insert_eq, delete_insert_eq. apply delete_id, calloc_addr_iters.
Qed.

Lemma chain_member (s : positive) (v0 : elem_t) (cells : list (positive * elem_t)) i t vt :
  ((s, v0) :: cells) !! i = Some (t, vt) -> t ∈ s :: cells.*1.
Proof.
  intros Hi. change (s :: cells.*1) with (((s, v0) :: cells).*1).
  apply (list_elem_of_fmap_2' fst _ (t, vt)); [|done].
  by eapply list_elem_of_lookup_2.
Qed.

(** A list whose links and header are the same in two states is the same
    list in both. *)
Lemma list_rep_frame st st' lst s v0 cells :
  list_rep st lst s v0 cells ->
  (forall b, b ∈ s :: cells.*1 -> links st' !! b = links st !! b) ->
  (forall lp, lst = Some lp -> lists st' !! lp = lists st !! lp) ->
  list_rep st' lst s v0 cells /\ (tail_ok st lst s cells -> tail_ok st' lst s cells).
Proof.
  intros ((lp & l & -> & Hl & Hfirst & Hsize) & Hseg & Hnd) Hlinks Hlists.
  split.
  - split; [|split; [|done]].
    + exists lp, l. rewrite Hlists by done. done.
    + eapply lseg_ext; [|exact Hseg]. intros a Ha. by apply Hlinks.
  - intros (lp' & l' & E & Hl' & Hlast). injection E as <-.
    exists lp, l'. rewrite Hlists by done. done.
Qed.

(** Two links written, one of them new: the links of a list that shares
    none with the list at hand are as before. *)
Lemma links_frame_insert (h : gmap positive link_t) t kt new knew (A B : list positive) b :
  t ∈ A -> h !! new = None -> (forall a, a ∈ A -> a ∉ B) -> b ∈ B -> is_Some (h !! b) ->
  <[t:=kt]> (<[new:=knew]> h) !! b = h !! b.
Proof.
  intros Ht Hnew Hdisj Hb [k Hk].
  rewrite !lookup_insert_ne; [done| |].
  - intros ->. congruence.
  - intros ->. by apply (Hdisj b).
Qed.

(** X27. Inserting into a list and removing from it change nothing of
    another list: a list that shares no link with the list at hand has the
    same header, the same chain and the same tail pointer afterwards.  Nor
    is an iterator left behind: the iterators in the state are the ones from
    before. *)
Theorem other_lists_are_left_alone st lst s v0 cells lst2 s2 v2 cells2 :
  list_rep st lst s v0 cells ->
  tail_ok st lst s cells ->
  list_rep st lst2 s2 v2 cells2 ->
  (forall a, a ∈ s :: cells.*1 -> a ∉ s2 :: cells2.*1) ->
  calloc_succeeds st ->
  Z.of_nat (length cells) < INT_MAX ->
  (forall i v, (i <= length cells)%nat ->
     exists st',
       linked_list_insert lst (Z.of_nat i) v st = Ok tt st' /\
       list_rep st' lst2 s2 v2 cells2 /\
       (tail_ok st lst2 s2 cells2 -> tail_ok st' lst2 s2 cells2) /\
       iters st' = iters st) /\
  (forall i, (i < length cells)%nat ->
     exists v st',
       linked_list_remove lst (Z.of_nat i) st = Ok v st' /\
       list_rep st' lst2 s2 v2 cells2 /\
       (tail_ok st lst2 s2 cells2 -> tail_ok st' lst2 s2 cells2) /\
       iters st' = iters st).
Proof.
  intros Hrep Htail Hrep2 Hdisj Hplan Hmax.
  pose proof Hrep as ((lp & l & -> & Hl & Hfirst & Hsize) & Hseg & Hnd).
  assert (forall lp2, lst2 = Some lp2 -> lp2 <> lp) as Hother.
  { intros lp2 -> ->.
    destruct (list_rep_unique _ _ _ _ _ _ _ _ Hrep Hrep2) as (-> & _).
    apply (Hdisj s); apply elem_of_cons; by left. }
  assert (forall b, b ∈ s2 :: cells2.*1 -> is_Some (links st !! b)) as Hlive.
  { intros b Hb. destruct Hrep2 as (_ & Hseg2 & _).
    by apply (lseg_live _ _ _ _ _ Hseg2). }
  pose proof (calloc_succeeds_head _ Hplan) as Hhead.
  split.
  - intros i v Hi.
    assert (exists t vt, ((s, v0) :: cells) !! i = Some (t, vt)) as (t & vt & Hcur).
    { destruct (((s, v0) :: cells) !! i) as [[t vt]|] eqn:E; [eauto|].
      apply lookup_ge_None in E. simpl in E. lia. }
    destruct (lseg_split _ _ _ _ _ _ _ Hseg Hcur) as (n & _ & Ht & Hpost).
    pose proof (chain_member _ _ _ _ _ _ Hcur) as Hmem.
    assert (exists st' l' new,
               linked_list_insert (Some lp) (Z.of_nat i) v st = Ok tt st' /\
               links st' = <[t:=Link vt (Some new)]> (<[new:=Link v n]> (links st)) /\
               links st !! new = None /\
               lists st' = <[lp:=l']> (lists st) /\ iters st' = iters st)
      as (st' & l' & new & Hrun & Hlinks & Hnew & Hlists & Hiters).
    { destruct (decide (i = 0%nat)) as [->|Hi0].
      - injection Hcur as <- <-.
        destruct (linked_list_prepend_run st lp l s v0 n v Hl Hfirst Ht Hhead)
          as (st' & l' & Hrun & Hlinks & Hlists & Hiters & _).
        exists st', l', (calloc_addr st). split; [|split; [done|split; [|done]]].
        + unfold linked_list_insert. rewrite (linked_list_size_bind st lp l) by done.
          cbv zeta. rewrite Hsize, adjust_index_valid by (unfold INT_MAX in *; lia).
          exact Hrun.
        + apply calloc_addr_links.
      - destruct (decide (i = length cells)) as [->|Hin].
        + rewrite drop_ge in Hpost by (simpl; lia). simpl in Hpost. subst n.
          destruct Htail as (lp' & l0 & E & Hl0 & Hlast).
          injection E as <-. rewrite Hl in Hl0. injection Hl0 as <-.
          assert (list_last l = Some t) as Hlast'.
          { rewrite Hlast, last_lookup_cons, length_fmap.
            change (s :: cells.*1) with (((s, v0) :: cells).*1).
            by rewrite list_lookup_fmap, Hcur. }
          destruct (linked_list_append_run st lp l t vt v Hl Hlast' Ht Hhead)
            as (st' & l' & Hrun & Hlinks & Hlists & Hiters & _).
          exists st', l', (calloc_addr st). split; [|split; [done|split; [|done]]].
          * unfold linked_list_insert. rewrite (linked_list_size_bind st lp l) by done.
            cbv zeta. rewrite Hsize, adjust_index_valid by (unfold INT_MAX in *; lia).
            destruct (Z.eqb_spec (Z.of_nat (length cells)) (-1)) as [?|_]; [lia|].
            rewrite to_size_t_id by (unfold INT_MAX in *; lia).
            destruct (Z.eqb_spec (Z.of_nat (length cells)) 0) as [?|_]; [lia|].
            rewrite Z.eqb_refl. exact Hrun.
          * apply calloc_addr_links.
        + destruct (linked_list_insert_inside_run st lp l s v0 cells i t vt n v)
            as (st' & l' & new & Hrun & Hlinks & Hnew & Hlists & Hiters & _);
            try done; [lia|].
          by exists st', l', new. }
    exists st'. split; [done|].
    destruct (list_rep_frame st st' lst2 s2 v2 cells2 Hrep2) as (Hrep2' & Htail2').
    + intros b Hb. rewrite Hlinks.
      by apply (links_frame_insert _ t _ new _ (s :: cells.*1) (s2 :: cells2.*1)); auto.
    + intros lp2 E. rewrite Hlists. apply lookup_insert_ne. intros ->. by eapply Hother.
    + done.
  - intros i Hi.
    assert (exists a v, cells !! i = Some (a, v)) as (a & v & Ha).
    { destruct (cells !! i) as [[a v]|] eqn:E; [eauto|].
      apply lookup_ge_None in E. lia. }
    assert (exists t vt, ((s, v0) :: cells) !! i = Some (t, vt)) as (t & vt & Hcur).
    { destruct (((s, v0) :: cells) !! i) as [[t vt]|] eqn:E; [eauto|].
      apply lookup_ge_None in E. simpl in E. lia. }
    destruct (lseg_remove_after _ _ _ _ i t vt a v Hseg Hnd Hcur Ha)
      as (n & Ht & Hla & Hne & _).
    destruct (linked_list_remove_run st lp l s v0 cells i t vt a v n)
      as (st' & l' & Hrun & Hlinks & Hlists & Hiters & _); try done; [lia|].
    exists v, st'. split; [done|].
    pose proof (chain_member _ _ _ _ _ _ Hcur) as Hmem.
    assert (a ∈ s :: cells.*1) as Hmem'.
    { apply elem_of_cons. right. apply (list_elem_of_fmap_2' fst _ (a, v)); [|done].
      by eapply list_elem_of_lookup_2. }
    destruct (list_rep_frame st st' lst2 s2 v2 cells2 Hrep2) as (Hrep2' & Htail2').
    + intros b Hb. rewrite Hlinks.
      rewrite lookup_delete_ne by (intros <-; by apply (Hdisj a)).
      rewrite lookup_insert_ne by (intros <-; by apply (Hdisj t)). done.
    + intros lp2 E. rewrite Hlists. apply lookup_insert_ne. intros ->. by eapply Hother.
    + done.
Qed.

Lemma other_lists_are_left_alone_witness :
  (forall i v, (i <= 3)%nat ->
     exists st',
       linked_list_insert (Some 1%positive) (Z.of_nat i) v state_two_lists = Ok tt st' /\
       list_rep st' (Some 6%positive) 7 calloc_elem [(8%positive, int_elem 9)] /\
       (tail_ok state_two_lists (Some 6%positive) 7 [(8%positive, int_elem 9)] ->
        tail_ok st' (Some 6%positive) 7 [(8%positive, int_elem 9)]) /\
       iters st' = iters state_two_lists) /\
  (forall i, (i < 3)%nat ->
     exists v st',
       linked_list_remove (Some 1%positive) (Z.of_nat i) state_two_lists = Ok v st' /\
       list_rep st' (Some 6%positive) 7 calloc_elem [(8%positive, int_elem 9)] /\
       (tail_ok state_two_lists (Some 6%positive) 7 [(8%positive, int_elem 9)] ->
        tail_ok st' (Some 6%positive) 7 [(8%positive, int_elem 9)]) /\
       iters st' = iters state_two_lists).
Proof.
  apply (other_lists_are_left_alone state_two_lists (Some 1%positive) 2%positive calloc_elem
           [(3%positive, int_elem 1); (4%positive, int_elem 2); (5%positive, int_elem 3)]
           (Some 6%positive) 7%positive calloc_elem [(8%positive, int_elem 9)]).
  - apply list_rep_check_sound. vm_compute. reflexivity.
  - apply tail_ok_check_sound. vm_compute. reflexivity.
  - apply list_rep_check_sound. vm_compute. reflexivity.
  - apply Forall_forall.
    apply (bool_decide_eq_true_1
             (Forall (fun a : positive => a ∉ [7%positive; 8%positive])
                [2%positive; 3%positive; 4%positive; 5%positive])).
    vm_compute. reflexivity.
  - unfold calloc_succeeds.
    replace (calloc_plan state_two_lists) with (@nil bool) by (vm_compute; reflexivity).
    constructor.
  - vm_compute. reflexivity.
Defined.

(** ** Creating and destroying, removing under an iterator *)

(** X28. Round trip: destroying a list right after its creation gives back
    both objects.  Links, list headers and iterators are the ones from
    before the creation, nothing was printed and no function pointer was
    called. *)
Theorem create_then_destroy st f fuel :
  head (calloc_plan st) <> Some false ->
  head (tail (calloc_plan st)) <> Some false ->
  exists st1 lst st2,
    linked_list_create f st = Ok lst st1 /\
    linked_list_destroy fuel lst st1 = Ok tt st2 /\
    links st2 = links st /\ lists st2 = lists st /\ iters st2 = iters st /\
    stdout st2 = stdout st /\ calls st2 = calls st.
Proof.
  intros Hplan Hplan'.
  pose proof (linked_list_create_run st f Hplan Hplan') as Hrun. cbv zeta in Hrun.
  set (lp := calloc_addr st) in *.
  set (s := calloc_addr (set_lists _ _)) in *.
  assert (links st !! s = None) as Hs by (subst s; exact (calloc_addr_links _)).
  assert (lists st !! lp = None) as Hlp by apply calloc_addr_lists.
  eexists. exists (Some lp). eexists. split; [exact Hrun|]. split.
  { unfold linked_list_destroy, linked_list_clear, linked_list_is_empty, linked_list_size.
    run read_size_ok. cbn [list_size]. change (0 =? 0) with true. cbv iota.
    rewrite bind_ret. cbn [negb]. rewrite bind_ret.
    run read_first_ok. cbn [list_first].
    run free_link_ok.
    erewrite free_list_ok by lookup. reflexivity. }
  simpl_state. split; [|split; [|done]].
  - rewrite delete_insert_eq. by apply delete_id.
  - rewrite delete_insert_eq. by apply delete_id.
Qed.

Lemma create_then_destroy_witness :
  exists st1 lst st2,
    linked_list_create (Some dummy_func_ptr) state_123 = Ok lst st1 /\
    linked_list_destroy 0 lst st1 = Ok tt st2 /\
    links st2 = links state_123 /\ lists st2 = lists state_123 /\
    iters st2 = iters state_123 /\
    stdout st2 = stdout state_123 /\ calls st2 = calls state_123.
Proof.
  apply (create_then_destroy state_123 (Some dummy_func_ptr) 0%nat).
  - exact state_123_next_calloc.
  - replace (calloc_plan state_123) with (@nil bool) by (vm_compute; reflexivity).
    simpl. discriminate.
Defined.

(** X29. [linked_list_remove] knows nothing of the iterators of the list.
    When it removes the element an iterator stands on, the cursor of that
    iterator still holds the address of the link, which is freed, and
    [iterator_has_next], [iterator_current] and [iterator_next] read through
    it. *)
Theorem iterator_dangles_after_remove st iter lst s v0 cells i a v :
  list_rep st lst s v0 cells ->
  iterator_pos st iter lst s v0 cells (S i) ->
  cells !! i = Some (a, v) ->
  head (calloc_plan st) <> Some false ->
  Z.of_nat (length cells) <= INT_MAX ->
  exists st',
    linked_list_remove lst (Z.of_nat i) st = Ok v st' /\
    read_current iter st' = Ok (Some a) st' /\
    links st' !! a = None /\
    iterator_has_next iter st' = Fault /\
    iterator_current iter st' = Fault /\
    iterator_next iter st' = Fault.
Proof.
  intros Hrep (ip & a' & va & -> & Hit & Hpos) Ha Hplan Hmax.
  simpl in Hpos. rewrite Ha in Hpos. injection Hpos as <- <-.
  pose proof Hrep as ((lp & l & -> & Hl & Hfirst & Hsize) & Hseg & Hnd).
  assert (exists t vt, ((s, v0) :: cells) !! i = Some (t, vt)) as (t & vt & Hcur).
  { destruct (((s, v0) :: cells) !! i) as [[t vt]|] eqn:E; [eauto|].
    apply lookup_ge_None in E. apply lookup_lt_Some in Ha. simpl in E. lia. }
  destruct (lseg_remove_after _ _ _ _ i t vt a v Hseg Hnd Hcur Ha)
    as (n & Ht & Hla & Hne & _).
  destruct (linked_list_remove_run st lp l s v0 cells i t vt a v n)
    as (st' & l' & Hrun & Hlinks & Hlists & Hiters & _); try done.
  assert (iters st' !! ip = Some (Iter (Some a) (Some lp))) as Hit' by (by rewrite Hiters).
  assert (links st' !! a = None) as Hgone by (rewrite Hlinks; apply lookup_delete_eq).
  assert (iterator_has_next (Some ip) st' = Fault) as Hnext.
  { unfold iterator_has_next. run read_current_ok. cbn [iter_current].
    unfold bind, read_next, bind, load_link. by rewrite Hgone. }
  exists st'. split; [done|]. split; [|split; [done|split; [done|split]]].
  - by erewrite read_current_ok by done.
  - unfold iterator_current. unfold bind at 1. by rewrite Hnext.
  - unfold iterator_next. run read_current_ok. cbn [iter_current].
    unfold bind, read_next, bind, load_link. by rewrite Hgone.
Qed.

Lemma iterator_dangles_after_remove_witness :
  exists st',
    linked_list_remove (Some 1%positive) 0 state_123_iterator_next = Ok (int_elem 1) st' /\
    read_current (Some 6%positive) st' = Ok (Some 3%positive) st' /\
    links st' !! 3%positive = None /\
    iterator_has_next (Some 6%positive) st' = Fault /\
    iterator_current (Some 6%positive) st' = Fault /\
    iterator_next (Some 6%positive) st' = Fault.
Proof.
  apply (iterator_dangles_after_remove state_123_iterator_next (Some 6%positive)
           (Some 1%positive) 2%positive calloc_elem
           [(3%positive, int_elem 1); (4%positive, int_elem 2); (5%positive, int_elem 3)]
           0%nat 3%positive (int_elem 1)).
  - apply list_rep_check_sound. vm_compute. reflexivity.
  - exists 6%positive, 3%positive, (int_elem 1).
    split; [reflexivity|]. split; [vm_compute; reflexivity|reflexivity].
  - reflexivity.
  - replace (calloc_plan state_123_iterator_next) with (@nil bool)
      by (vm_compute; reflexivity).
    simpl. discriminate.
  - vm_compute. discriminate.
Defined.

(** ** Callbacks that are [NULL] *)

(** X30. No function looks at the function pointer it is given before the
    call.  [linked_list_apply_to_all] starts at the sentinel, so with a
    [NULL] function it calls through [NULL] on every list, the empty one
    too.  [linked_list_all] and [linked_list_any] with a [NULL] predicate
    return true and false on the empty list, where the predicate is not
    called, and call through [NULL] as soon as the list has an element. *)
Theorem null_callbacks {E : Type} st lst values (extra : E) fuel :
  list_holds st lst values ->
  head (calloc_plan st) <> Some false ->
  (0 < fuel)%nat ->
  linked_list_apply_to_all fuel lst None extra st = Fault /\
  (values = [] ->
   exists st1 st2,
     linked_list_all fuel lst None extra st = Ok true st1 /\
     linked_list_any fuel lst None extra st = Ok false st2 /\
     calls st1 = calls st /\ calls st2 = calls st) /\
  (values <> [] ->
   linked_list_all fuel lst None extra st = Fault /\
   linked_list_any fuel lst None extra st = Fault).
Proof.
  intros (s & v0 & cells & Hrep & <-) Hplan Hfuel.
  pose proof Hrep as ((lp & l & -> & Hl & Hfirst & Hsize) & Hseg & Hnd).
  destruct fuel as [|fuel]; [lia|].
  simpl in Hseg. destruct Hseg as (_ & n & Hs & Hrest).
  split; [|split].
  - unfold linked_list_apply_to_all.
    run read_first_ok. rewrite Hfirst. cbn [while]. rewrite bind_assoc, bind_ret.
    replace (negb (ptr_eqb (Some s) NULL)) with true by reflexivity. reflexivity.
  - intros Hnil. apply fmap_nil_inv in Hnil as ->. simpl in Hrest. subst n.
    eexists. eexists. split; [|split].
    + unfold linked_list_all.
      run list_iterator_ok. rewrite Hfirst. cbn [while].
      run iterator_has_next_ok. cbn [link_next].
      replace (negb (ptr_eqb NULL NULL)) with false by reflexivity. cbv iota.
      run free_iter_ok. reflexivity.
    + unfold linked_list_any.
      run list_iterator_ok. rewrite Hfirst. cbn [while].
      run iterator_has_next_ok. cbn [link_next].
      replace (negb (ptr_eqb NULL NULL)) with false by reflexivity. cbn [andb]. cbv iota.
      run free_iter_ok. reflexivity.
    + by simpl_state.
  - intros Hne. destruct cells as [|[c vc] cells]; [done|].
    simpl in Hrest. destruct Hrest as (-> & nc & Hc & _).
    split.
    + unfold linked_list_all.
      run list_iterator_ok. rewrite Hfirst. cbn [while].
      run iterator_has_next_ok. cbn [link_next].
      replace (negb (ptr_eqb (Some c) NULL)) with true by reflexivity. cbv iota.
      run iterator_current_ok. reflexivity.
    + unfold linked_list_any.
      run list_iterator_ok. rewrite Hfirst. cbn [while].
      run iterator_has_next_ok. cbn [link_next].
      replace (negb (ptr_eqb (Some c) NULL)) with true by reflexivity.
      cbn [negb andb]. cbv iota.
      run iterator_current_ok. reflexivity.
Qed.

Lemma null_callbacks_witness :
  linked_list_apply_to_all 1 (Some 1%positive) None 0 state_empty = Fault /\
  (exists st1 st2,
     linked_list_all 1 (Some 1%positive) None 0 state_empty = Ok true st1 /\
     linked_list_any 1 (Some 1%positive) None 0 state_empty = Ok false st2 /\
     calls st1 = calls state_empty /\ calls st2 = calls state_empty) /\
  linked_list_all 1 (Some 1%positive) None 0 state_123 = Fault /\
  linked_list_any 1 (Some 1%positive) None 0 state_123 = Fault.
Proof.
  assert (list_holds state_empty (Some 1%positive) []) as Hempty.
  { exists 2%positive, calloc_elem, []. split; [|reflexivity].
    apply list_rep_check_sound. vm_compute. reflexivity. }
  assert (head (calloc_plan state_empty) <> Some false) as Hplan.
  { replace (calloc_plan state_empty) with (@nil bool) by (vm_compute; reflexivity).
    simpl. discriminate. }
  destruct (null_callbacks state_empty (Some 1%positive) [] 0 1%nat Hempty Hplan)
    as (Happly & Hnone & _); [lia|].
  destruct (null_callbacks state_123 (Some 1%positive) [int_elem 1; int_elem 2; int_elem 3]
              0 1%nat state_123_holds state_123_next_calloc)
    as (_ & _ & Hsome); [lia|].
  split; [exact Happly|]. split; [by apply Hnone|by apply Hsome].
Defined.
